(** * spd5118: a shallow embedding of the JEDEC SPD5118 hwmon driver

    The file follows [spd5118.c]: the register map and constants, the
    vendor-id check, the temperature codec, then the bus-touching
    operations written as programs over the driver's atomic actions
    (mutex, cached page, SMBus transactions), with a sequential and an
    interleaving semantics over a model of the chip. *)

From Stdlib Require Import Ascii String DecimalString.
From Stdlib Require Import ZArith List Bool Lia.
Import ListNotations.
Local Open Scope Z_scope.

(** ** C integer types

    Every C integer is a [Z]; a conversion to a fixed-width type is written
    where the C code performs one. *)

Definition u8 (z : Z) : Z := z mod 2 ^ 8.
Definition u16 (z : Z) : Z := z mod 2 ^ 16.
Definition u32 (z : Z) : Z := z mod 2 ^ 32.
Definition u64 (z : Z) : Z := z mod 2 ^ 64.
Definition s32 (z : Z) : Z := (z + 2 ^ 31) mod 2 ^ 32 - 2 ^ 31.

Definition is_u16 (z : Z) : Prop := 0 <= z < 2 ^ 16.

(** ** Register map and constants (lines 28-61 of the source) *)

Definition SPD5118_REG_TYPE : Z := 0x00.
Definition SPD5118_REG_REVISION : Z := 0x02.
Definition SPD5118_REG_VENDOR : Z := 0x03.
Definition SPD5118_REG_I2C_LEGACY_MODE : Z := 0x0B.
Definition SPD5118_REG_TEMP_CLR : Z := 0x13.
Definition SPD5118_REG_TEMP_MAX : Z := 0x1c.
Definition SPD5118_REG_TEMP_MIN : Z := 0x1e.
Definition SPD5118_REG_TEMP_CRIT : Z := 0x20.
Definition SPD5118_REG_TEMP_LCRIT : Z := 0x22.
Definition SPD5118_REG_TEMP : Z := 0x31.
Definition SPD5118_REG_TEMP_STATUS : Z := 0x33.

Definition SPD5118_TEMP_STATUS_HIGH : Z := Z.shiftl 1 0.
Definition SPD5118_TEMP_STATUS_LOW : Z := Z.shiftl 1 1.
Definition SPD5118_TEMP_STATUS_CRIT : Z := Z.shiftl 1 2.
Definition SPD5118_TEMP_STATUS_LCRIT : Z := Z.shiftl 1 3.

Definition SPD5118_TEMP_CLR_HIGH : Z := Z.shiftl 1 0.
Definition SPD5118_TEMP_CLR_LOW : Z := Z.shiftl 1 1.
Definition SPD5118_TEMP_CLR_CRIT : Z := Z.shiftl 1 2.
Definition SPD5118_TEMP_CLR_LCRIT : Z := Z.shiftl 1 3.

Definition SPD5118_NUM_PAGES : Z := 8.
Definition SPD5118_PAGE_SIZE : Z := 128.
Definition SPD5118_PAGE_SHIFT : Z := 7.
Definition SPD5118_EEPROM_BASE : Z := 0x80.
Definition SPD5118_EEPROM_SIZE : Z := SPD5118_PAGE_SIZE * SPD5118_NUM_PAGES.

Definition SPD5118_TEMP_UNIT : Z := Z.quot 1000 4.
Definition SPD5118_TEMP_RANGE_MIN : Z := -256000.
Definition SPD5118_TEMP_RANGE_MAX : Z := 255750.

(** errno values of <uapi/asm-generic/errno*.h> used by the driver. *)
Definition EIO : Z := 5.
Definition ENODEV : Z := 19.
Definition EINVAL : Z := 22.
Definition EOPNOTSUPP : Z := 95.

(** ** Kernel and compiler helpers the driver calls *)

(** Modelled from the spec: [__builtin_parity] is a GCC builtin, not part of
    the repository.  It returns the number of 1-bits of its [unsigned int]
    argument modulo 2; this is the spec's "odd parity" of a byte. *)
Fixpoint pos_popcount (p : positive) : nat :=
  match p with
  | xH => 1%nat
  | xO q => pos_popcount q
  | xI q => S (pos_popcount q)
  end.

Definition popcount (z : Z) : nat :=
  match z with
  | Zpos p => pos_popcount p
  | _ => 0%nat
  end.

Definition builtin_parity (x : Z) : bool := Nat.odd (popcount (u32 x)).

(** Modelled from the spec: [sign_extend32] of <linux/bitops.h> is not part
    of the repository.  The spec's "sign-extend from bit [index] to full
    width" is the kernel's
    [shift = 31 - index; return (s32)(value << shift) >> shift]. *)
Definition sign_extend32 (value index : Z) : Z :=
  let shift := u8 (31 - index) in
  Z.shiftr (s32 (u32 (Z.shiftl (u32 value) shift))) shift.

(** Modelled from the spec: [clamp_val] of <linux/minmax.h> is not part of
    the repository.  The spec's "clamp input to [lo, hi]" is
    [min(max(val, lo), hi)] at the type of [val]. *)
Definition clamp_val (val lo hi : Z) : Z := Z.min (Z.max val lo) hi.

(** ** The vendor-id check (lines 81-92) *)

Definition spd5118_vendor_valid (reg : Z) : bool :=
  let pfx := u8 (Z.land reg 0xff) in
  let id := u8 (Z.shiftr reg 8) in
  if negb (builtin_parity pfx) || negb (builtin_parity id) then false
  else
    let id := u8 (Z.land id 0x7f) in
    if (id =? 0) || (id =? 0x7f) then false
    else true.

(** ** The temperature codec (lines 94-104)

    In [spd5118_temp_from_reg] the result of [sign_extend32] is stored back
    into the [u16] parameter [reg] before the multiplication, which is done
    at type [int] after the integer promotion of [reg]. *)

Definition spd5118_temp_from_reg (reg : Z) : Z :=
  let reg := u16 (sign_extend32 (Z.shiftr reg 2) 11) in
  s32 (reg * SPD5118_TEMP_UNIT).

Definition spd5118_temp_to_reg (temp : Z) : Z :=
  let temp := clamp_val temp SPD5118_TEMP_RANGE_MIN SPD5118_TEMP_RANGE_MAX in
  u16 (Z.shiftl (Z.land (Z.quot temp SPD5118_TEMP_UNIT) 0x7ff) 2).

(** *** The codec in the words of the specification

    [decode_spec] and [encode_spec] follow section 4.1 of the specification;
    they are what the source functions are compared with. *)

Definition field11 (raw : Z) : Z := Z.land (Z.shiftr raw 2) 0x7ff.

Definition sign_extend_from_bit (v bit : Z) : Z :=
  let low := Z.land v (Z.ones (bit + 1)) in
  if Z.testbit v bit then low - 2 ^ (bit + 1) else low.

Definition decode_spec (raw : Z) : Z :=
  sign_extend_from_bit (Z.shiftr raw 2) 10 * 250.

Definition nearest_boundary (x : Z) : Z :=
  if x <? -256000 then -256000
  else if 255750 <? x then 255750
  else x.

Definition encode_spec (x : Z) : Z :=
  Z.shiftl (Z.land (Z.quot (nearest_boundary x) 250) (Z.ones 11)) 2.

Definition in_temp_range (t : Z) : Prop :=
  SPD5118_TEMP_RANGE_MIN <= t <= SPD5118_TEMP_RANGE_MAX.

(** *** Parity in the words of the specification: a byte has odd parity when
    an odd number of its eight bits is set. *)

Definition bits_set (b : Z) : nat :=
  length (filter (fun i => Z.testbit b (Z.of_nat i)) (seq 0 8)).

Definition odd_parity (b : Z) : Prop := Nat.odd (bits_set b) = true.
Definition even_parity (b : Z) : Prop := Nat.odd (bits_set b) = false.

Definition id_byte (reg : Z) : Z := Z.shiftr reg 8.
Definition prefix_byte (reg : Z) : Z := Z.land reg 0xff.
Definition masked_id (reg : Z) : Z := Z.land (id_byte reg) 0x7f.


(** ** The hwmon interface

    Modelled from the spec: the enumerations of <linux/hwmon.h> are not part
    of the repository.  The driver's "temperature channel" sub-capabilities
    are members of [hwmon_temp_attributes]; every other member reaches the
    [default] branch of the driver's switches. *)

Inductive hwmon_sensor_types : Type :=
| hwmon_chip | hwmon_temp | hwmon_in | hwmon_curr | hwmon_power
| hwmon_energy | hwmon_humidity | hwmon_fan | hwmon_pwm | hwmon_intrusion.

Inductive hwmon_temp_attributes : Type :=
| hwmon_temp_enable | hwmon_temp_input | hwmon_temp_type
| hwmon_temp_lcrit | hwmon_temp_lcrit_hyst
| hwmon_temp_min | hwmon_temp_min_hyst
| hwmon_temp_max | hwmon_temp_max_hyst
| hwmon_temp_crit | hwmon_temp_crit_hyst
| hwmon_temp_emergency | hwmon_temp_emergency_hyst
| hwmon_temp_alarm
| hwmon_temp_lcrit_alarm | hwmon_temp_min_alarm
| hwmon_temp_max_alarm | hwmon_temp_crit_alarm
| hwmon_temp_emergency_alarm
| hwmon_temp_fault | hwmon_temp_offset | hwmon_temp_label
| hwmon_temp_lowest | hwmon_temp_highest | hwmon_temp_reset_history
| hwmon_temp_rated_min | hwmon_temp_rated_max | hwmon_temp_beep.

Definition is_hwmon_temp (type : hwmon_sensor_types) : bool :=
  match type with hwmon_temp => true | _ => false end.

(** The two module parameters (lines 64-70); they are fixed once the module
    is loaded, so every operation takes them as a read-only record. *)
Record module_params : Type := {
  enable_temp_write : bool;
  enable_alarm_write : bool
}.

(** ** Programs over the driver's atomic actions

    A driver function that touches shared state is a tree of atomic actions:
    the mutex, the cached page of [struct spd5118_data], and SMBus transfers.
    The same tree is run alone ([run]) or interleaved with other threads
    ([step]). *)

Definition tid : Type := nat.

Inductive bus_op : Type :=
| ReadByteData (command : Z)
| ReadWordData (command : Z)
| WriteByteData (command value : Z)
| WriteWordData (command value : Z)
| ReadI2cBlockData (command length : Z).

Inductive action : Type -> Type :=
| MutexLock : action unit
| MutexUnlock : action unit
| LoadCurrentPage : action Z
| StoreCurrentPage (page : Z) : action unit
| Smbus (op : bus_op) : action (Z * list Z)
| Spin : action Empty_set.

Inductive prog (A : Type) : Type :=
| Ret (a : A)
| Vis {X : Type} (e : action X) (k : X -> prog A).

Arguments Ret {A} a.
Arguments Vis {A X} e k.

Fixpoint bind {A B : Type} (p : prog A) (f : A -> prog B) : prog B :=
  match p with
  | Ret a => f a
  | Vis e k => Vis e (fun x => bind (k x) f)
  end.

Definition call {X : Type} (e : action X) : prog X := Vis e Ret.

Declare Scope prog_scope.
Delimit Scope prog_scope with prog.
Notation "x <- p ;; q" := (bind p (fun x => q))
  (at level 61, p at next level, right associativity) : prog_scope.
Notation "p ;; q" := (bind p (fun _ => q))
  (at level 61, right associativity) : prog_scope.
Local Open Scope prog_scope.

(** A loop that has not finished within its fuel keeps running. *)
Definition spin {A : Type} : prog A :=
  Vis Spin (fun x : Empty_set => match x with end).

(** *** The kernel primitives as actions

    The SMBus calls take [u8] commands, values and lengths; a word value is
    a [u16].  Each returns the transfer's status: negative errno on failure. *)

Definition mutex_lock : prog unit := call MutexLock.
Definition mutex_unlock : prog unit := call MutexUnlock.

Definition i2c_smbus_read_byte_data (command : Z) : prog Z :=
  r <- call (Smbus (ReadByteData (u8 command))) ;; Ret (fst r).

Definition i2c_smbus_read_word_data (command : Z) : prog Z :=
  r <- call (Smbus (ReadWordData (u8 command))) ;; Ret (fst r).

Definition i2c_smbus_write_byte_data (command value : Z) : prog Z :=
  r <- call (Smbus (WriteByteData (u8 command) (u8 value))) ;; Ret (fst r).

Definition i2c_smbus_write_word_data (command value : Z) : prog Z :=
  r <- call (Smbus (WriteWordData (u8 command) (u16 value))) ;; Ret (fst r).

Definition i2c_smbus_read_i2c_block_data_or_emulated (command length : Z)
  : prog (Z * list Z) :=
  call (Smbus (ReadI2cBlockData (u8 command) (u8 length))).

(** ** Temperature and alarm attributes (lines 106-286) *)

Definition temp_reg_readable (attr : hwmon_temp_attributes) : option Z :=
  match attr with
  | hwmon_temp_input => Some SPD5118_REG_TEMP
  | hwmon_temp_max => Some SPD5118_REG_TEMP_MAX
  | hwmon_temp_min => Some SPD5118_REG_TEMP_MIN
  | hwmon_temp_crit => Some SPD5118_REG_TEMP_CRIT
  | hwmon_temp_lcrit => Some SPD5118_REG_TEMP_LCRIT
  | _ => None
  end.

(** The result pairs the C return value with what is stored through [val]. *)
Definition spd5118_read_temp (attr : hwmon_temp_attributes)
  : prog (Z * option Z) :=
  match temp_reg_readable attr with
  | None => Ret (- EOPNOTSUPP, None)
  | Some reg =>
      mutex_lock ;;
      regval <- i2c_smbus_read_word_data reg ;;
      mutex_unlock ;;
      if regval <? 0 then Ret (regval, None)
      else Ret (0, Some (spd5118_temp_from_reg (u16 regval)))
  end.

Definition temp_reg_writable (attr : hwmon_temp_attributes) : option Z :=
  match attr with
  | hwmon_temp_max => Some SPD5118_REG_TEMP_MAX
  | hwmon_temp_min => Some SPD5118_REG_TEMP_MIN
  | hwmon_temp_crit => Some SPD5118_REG_TEMP_CRIT
  | hwmon_temp_lcrit => Some SPD5118_REG_TEMP_LCRIT
  | _ => None
  end.

(** [val] is a [long]; the call of [spd5118_temp_to_reg] converts it to
    [int]. *)
Definition spd5118_write_temp (cfg : module_params)
  (attr : hwmon_temp_attributes) (val : Z) : prog Z :=
  if negb (enable_temp_write cfg) then Ret (- EOPNOTSUPP)
  else
    match temp_reg_writable attr with
    | None => Ret (- EOPNOTSUPP)
    | Some reg =>
        let regval := spd5118_temp_to_reg (s32 val) in
        mutex_lock ;;
        ret <- i2c_smbus_write_word_data reg regval ;;
        mutex_unlock ;;
        Ret ret
    end.

Definition alarm_status_mask (attr : hwmon_temp_attributes) : option Z :=
  match attr with
  | hwmon_temp_max_alarm => Some SPD5118_TEMP_STATUS_HIGH
  | hwmon_temp_min_alarm => Some SPD5118_TEMP_STATUS_LOW
  | hwmon_temp_crit_alarm => Some SPD5118_TEMP_STATUS_CRIT
  | hwmon_temp_lcrit_alarm => Some SPD5118_TEMP_STATUS_LCRIT
  | _ => None
  end.

Definition spd5118_read_alarm (attr : hwmon_temp_attributes)
  : prog (Z * option Z) :=
  match alarm_status_mask attr with
  | None => Ret (- EOPNOTSUPP, None)
  | Some mask =>
      mutex_lock ;;
      regval <- i2c_smbus_read_byte_data SPD5118_REG_TEMP_STATUS ;;
      mutex_unlock ;;
      if regval <? 0 then Ret (regval, None)
      else Ret (0, Some (if Z.land regval mask =? 0 then 0 else 1))
  end.

Definition alarm_clear_bit (attr : hwmon_temp_attributes) : option Z :=
  match attr with
  | hwmon_temp_max_alarm => Some SPD5118_TEMP_CLR_HIGH
  | hwmon_temp_min_alarm => Some SPD5118_TEMP_CLR_LOW
  | hwmon_temp_crit_alarm => Some SPD5118_TEMP_CLR_CRIT
  | hwmon_temp_lcrit_alarm => Some SPD5118_TEMP_CLR_LCRIT
  | _ => None
  end.

Definition spd5118_clear_alarm (cfg : module_params)
  (attr : hwmon_temp_attributes) : prog Z :=
  if negb (enable_alarm_write cfg) then Ret (- EOPNOTSUPP)
  else
    match alarm_clear_bit attr with
    | None => Ret (- EOPNOTSUPP)
    | Some regval =>
        mutex_lock ;;
        ret <- i2c_smbus_write_byte_data SPD5118_REG_TEMP_CLR regval ;;
        mutex_unlock ;;
        Ret ret
    end.

Definition spd5118_read (type : hwmon_sensor_types)
  (attr : hwmon_temp_attributes) (channel : Z) : prog (Z * option Z) :=
  if negb (is_hwmon_temp type) then Ret (- EOPNOTSUPP, None)
  else
    match attr with
    | hwmon_temp_input | hwmon_temp_max | hwmon_temp_min
    | hwmon_temp_crit | hwmon_temp_lcrit =>
        spd5118_read_temp attr
    | hwmon_temp_max_alarm | hwmon_temp_min_alarm
    | hwmon_temp_crit_alarm | hwmon_temp_lcrit_alarm =>
        spd5118_read_alarm attr
    | _ => Ret (- EOPNOTSUPP, None)
    end.

Definition spd5118_write (cfg : module_params) (type : hwmon_sensor_types)
  (attr : hwmon_temp_attributes) (channel : Z) (val : Z) : prog Z :=
  if negb (is_hwmon_temp type) then Ret (- EOPNOTSUPP)
  else
    match attr with
    | hwmon_temp_max | hwmon_temp_min
    | hwmon_temp_crit | hwmon_temp_lcrit =>
        spd5118_write_temp cfg attr val
    | hwmon_temp_max_alarm | hwmon_temp_min_alarm
    | hwmon_temp_crit_alarm | hwmon_temp_lcrit_alarm =>
        if negb (val =? 0) then Ret (- EINVAL)
        else spd5118_clear_alarm cfg attr
    | _ => Ret (- EOPNOTSUPP)
    end.

(** File modes are the octal constants 0444 and 0644. *)
Definition spd5118_is_visible (cfg : module_params)
  (type : hwmon_sensor_types) (attr : hwmon_temp_attributes) (channel : Z)
  : Z :=
  if negb (is_hwmon_temp type) then 0
  else
    match attr with
    | hwmon_temp_input => 292
    | hwmon_temp_min | hwmon_temp_max
    | hwmon_temp_crit | hwmon_temp_lcrit =>
        if enable_temp_write cfg then 420 else 292
    | hwmon_temp_min_alarm | hwmon_temp_max_alarm
    | hwmon_temp_crit_alarm | hwmon_temp_lcrit_alarm =>
        if enable_alarm_write cfg then 420 else 292
    | _ => 0
    end.

(** ** The paged EEPROM (lines 351-417) *)

Definition spd5118_set_current_page (page : Z) : prog Z :=
  current <- call LoadCurrentPage ;;
  if page =? current then Ret 0
  else
    ret <- i2c_smbus_write_byte_data SPD5118_REG_I2C_LEGACY_MODE page ;;
    if ret <? 0 then Ret ret
    else
      call (StoreCurrentPage page) ;;
      Ret 0.

(** The count handed to the block read: [offset] is the [unsigned int]
    already reduced to the page, [count] a [size_t]. *)
Definition page_clamp (offset count : Z) : Z :=
  if SPD5118_PAGE_SIZE <? u64 (offset + count)
  then u32 (SPD5118_PAGE_SIZE - offset)
  else count.

(** [offset] is an [unsigned int], [count] a [size_t]; the result pairs the
    C return value with the bytes stored in [buf]. *)
Definition spd5118_eeprom_read (offset count : Z) : prog (Z * list Z) :=
  let page := s32 (Z.shiftr offset SPD5118_PAGE_SHIFT) in
  let offset := Z.land offset (Z.shiftl 1 SPD5118_PAGE_SHIFT - 1) in
  status <- spd5118_set_current_page page ;;
  if negb (status =? 0) then Ret (status, [])
  else
    let count := page_clamp offset count in
    i2c_smbus_read_i2c_block_data_or_emulated
      (SPD5118_EEPROM_BASE + offset) count.

(** The [while (count)] loop of [eeprom_read]: [buf] holds the bytes stored
    so far, [ret] the last status.  The structural argument [fuel] bounds
    the number of iterations. *)
Fixpoint eeprom_read_loop (fuel : nat) (buf : list Z) (off count ret : Z)
  : prog (Z * list Z) :=
  if count =? 0 then Ret (ret, buf)
  else
    match fuel with
    | O => spin
    | S fuel' =>
        r <- spd5118_eeprom_read (u32 off) count ;;
        let ret := s32 (fst r) in
        if ret <? 0 then Ret (ret, buf ++ snd r)
        else
          eeprom_read_loop fuel' (buf ++ snd r)
            (off + ret) (u64 (count - ret)) ret
    end.

Definition eeprom_read (fuel : nat) (off count : Z) : prog (Z * list Z) :=
  let requested := count in
  mutex_lock ;;
  r <- eeprom_read_loop fuel [] off count 0 ;;
  mutex_unlock ;;
  Ret (if fst r <? 0 then fst r else requested, snd r).

(** ** The device record, the chip and the bus *)

(** [struct spd5118_data] (lines 74-79); the mutex is its owner, if any. *)
Record spd5118_data : Type := {
  update_lock : option tid;
  current_page : Z;
  vendor : Z;
  revision : Z
}.

(** What [spd5118_probe] stores in the record (lines 508-511). *)
Definition probe_data (vendor revision : Z) : spd5118_data :=
  {| update_lock := None; current_page := -1;
     vendor := u16 vendor; revision := u8 revision |}.

(** Modelled from the spec: the chip behind the bus is an external
    collaborator.  It has byte-wide mode registers at addresses below 0x80
    and, at 0x80..0xff, a 128-byte window onto the page of the flat
    1024-byte memory selected by the low three bits of the page-select
    register. *)
Record chip : Type := {
  mode_regs : Z -> Z;
  nvm : Z -> Z
}.

Definition chip_page (c : chip) : Z :=
  Z.land (mode_regs c SPD5118_REG_I2C_LEGACY_MODE) 7.

Definition chip_read (c : chip) (addr : Z) : Z :=
  if addr <? SPD5118_EEPROM_BASE then u8 (mode_regs c addr)
  else u8 (nvm c (chip_page c * SPD5118_PAGE_SIZE + (addr - SPD5118_EEPROM_BASE))).

Definition chip_write (c : chip) (addr value : Z) : chip :=
  if addr <? SPD5118_EEPROM_BASE
  then {| mode_regs := fun a => if a =? addr then u8 value else mode_regs c a;
          nvm := nvm c |}
  else c.

(** Modelled from the spec: the flat reference memory, [n] bytes from
    [offset]. *)
Definition flat_read (c : chip) (offset : Z) (n : nat) : list Z :=
  map (fun i => u8 (nvm c (offset + Z.of_nat i))) (seq 0 n).

Inductive event : Type :=
| EvLock
| EvUnlock
| EvBus (op : bus_op) (status : Z).

(** Modelled from the spec: a transport error is a negative errno.  The
    kernel's error codes lie in 1..[MAX_ERRNO] (<linux/err.h>). *)
Definition MAX_ERRNO : Z := 4095.

Record errno : Type := {
  errno_code : Z;
  errno_valid : (0 <? errno_code) && (errno_code <=? MAX_ERRNO) = true
}.

Definition fail_status (e : errno) : Z := - errno_code e.

Definition errno_EIO : errno := {| errno_code := EIO; errno_valid := eq_refl |}.

(** The world a thread acts on: the device record, the chip, the fate of the
    coming bus transfers ([Some e]: the next transfer fails with [-e]) and
    the log of what happened, oldest first. *)
Record world : Type := {
  data : spd5118_data;
  device : chip;
  faults : list (option errno);
  log : list (tid * event)
}.

Definition I2C_SMBUS_BLOCK_MAX : Z := 32.

(** Modelled from the spec: the bus transport is an external collaborator.
    A successful transfer returns 0 for a write, the value for a byte or
    word read (low byte first) and, for the block read, the number of bytes
    transferred: the requested length cut to [I2C_SMBUS_BLOCK_MAX]. *)
Definition smbus_success (c : chip) (op : bus_op) : (Z * list Z) * chip :=
  match op with
  | ReadByteData command => ((chip_read c command, []), c)
  | ReadWordData command =>
      ((chip_read c command + 256 * chip_read c (u8 (command + 1)), []), c)
  | WriteByteData command value => ((0, []), chip_write c command value)
  | WriteWordData command value =>
      ((0, []),
       chip_write (chip_write c command (Z.land value 0xff))
         (u8 (command + 1)) (Z.shiftr value 8))
  | ReadI2cBlockData command length =>
      let n := Z.min length I2C_SMBUS_BLOCK_MAX in
      ((n, map (fun i => chip_read c (u8 (command + Z.of_nat i)))
             (seq 0 (Z.to_nat n))), c)
  end.

Definition smbus_xfer (t : tid) (op : bus_op) (w : world)
  : (Z * list Z) * world :=
  match faults w with
  | Some e :: rest =>
      ((fail_status e, []),
       {| data := data w; device := device w; faults := rest;
          log := log w ++ [(t, EvBus op (fail_status e))] |})
  | _ =>
      let '(r, c) := smbus_success (device w) op in
      (r, {| data := data w; device := c; faults := tl (faults w);
             log := log w ++ [(t, EvBus op (fst r))] |})
  end.

Definition with_lock (o : option tid) (ev : tid * event) (w : world) : world :=
  {| data := {| update_lock := o; current_page := current_page (data w);
                vendor := vendor (data w); revision := revision (data w) |};
     device := device w; faults := faults w; log := log w ++ [ev] |}.

Definition with_page (page : Z) (w : world) : world :=
  {| data := {| update_lock := update_lock (data w); current_page := page;
                vendor := vendor (data w); revision := revision (data w) |};
     device := device w; faults := faults w; log := log w |}.

(** One atomic action of thread [t]; [None] when the action cannot complete:
    the mutex is held, or the thread spins. *)
Definition exec (t : tid) {X : Type} (e : action X) (w : world)
  : option (X * world) :=
  match e in action X return option (X * world) with
  | MutexLock =>
      match update_lock (data w) with
      | None => Some (tt, with_lock (Some t) (t, EvLock) w)
      | Some _ => None
      end
  | MutexUnlock => Some (tt, with_lock None (t, EvUnlock) w)
  | LoadCurrentPage => Some (current_page (data w), w)
  | StoreCurrentPage page => Some (tt, with_page page w)
  | Smbus op => Some (smbus_xfer t op w)
  | Spin => None
  end.

(** Thread [t] running [p] alone. *)
Fixpoint run (t : tid) {A : Type} (p : prog A) (w : world)
  : option (A * world) :=
  match p with
  | Ret a => Some (a, w)
  | Vis e k =>
      match exec t e w with
      | None => None
      | Some (x, w') => run t (k x) w'
      end
  end.

(** *** Threads interleaved at the granularity of atomic actions *)

Inductive thread : Type :=
| Thread {A : Type} (p : prog A).

Definition pool : Type := tid -> thread.

Definition pool_set (ts : pool) (i : tid) (th : thread) : pool :=
  fun j => if Nat.eqb j i then th else ts j.

Inductive step : pool * world -> pool * world -> Prop :=
| step_action (ts : pool) (w w' : world) (i : tid)
    (A X : Type) (e : action X) (k : X -> prog A) (x : X) :
    ts i = Thread (Vis e k) ->
    exec i e w = Some (x, w') ->
    step (ts, w) (pool_set ts i (Thread (k x)), w').

Inductive steps : pool * world -> pool * world -> Prop :=
| steps_refl (c : pool * world) : steps c c
| steps_snoc (c1 c2 c3 : pool * world) :
    steps c1 c2 -> step c2 c3 -> steps c1 c3.

(** The driver's entry points, as the hwmon core and sysfs call them. *)
Inductive entry : Type :=
| EntryRead (type : hwmon_sensor_types) (attr : hwmon_temp_attributes)
    (channel : Z)
| EntryWrite (type : hwmon_sensor_types) (attr : hwmon_temp_attributes)
    (channel : Z) (val : Z)
| EntryEepromRead (fuel : nat) (off count : Z).

Definition entry_thread (cfg : module_params) (e : entry) : thread :=
  match e with
  | EntryRead type attr channel => Thread (spd5118_read type attr channel)
  | EntryWrite type attr channel val =>
      Thread (spd5118_write cfg type attr channel val)
  | EntryEepromRead fuel off count => Thread (eeprom_read fuel off count)
  end.

(** ** Vocabulary of the properties *)

Definition is_threshold (attr : hwmon_temp_attributes) : Prop :=
  attr = hwmon_temp_max \/ attr = hwmon_temp_min \/
  attr = hwmon_temp_crit \/ attr = hwmon_temp_lcrit.

Definition is_alarm (attr : hwmon_temp_attributes) : Prop :=
  attr = hwmon_temp_max_alarm \/ attr = hwmon_temp_min_alarm \/
  attr = hwmon_temp_crit_alarm \/ attr = hwmon_temp_lcrit_alarm.

(** The position of an alarm in the status and clear registers. *)
Definition alarm_index (attr : hwmon_temp_attributes) : Z :=
  match attr with
  | hwmon_temp_max_alarm => 0
  | hwmon_temp_min_alarm => 1
  | hwmon_temp_crit_alarm => 2
  | hwmon_temp_lcrit_alarm => 3
  | _ => -1
  end.

(** The status the next bus transfer will have if it fails. *)
Definition pending_fault (w : world) : option errno :=
  match faults w with
  | Some e :: _ => Some e
  | _ => None
  end.

(** The cached page is unknown or is the page the chip has selected. *)
Definition coherent (w : world) : Prop :=
  current_page (data w) = -1 \/ current_page (data w) = chip_page (device w).

Definition bus_status (ev : tid * event) : option Z :=
  match snd ev with
  | EvBus _ status => Some status
  | _ => None
  end.

(** A block read of [length] bytes at [command] stays in the page window. *)
Definition in_window (command length : Z) : Prop :=
  SPD5118_EEPROM_BASE <= command /\
  command + length <= SPD5118_EEPROM_BASE + SPD5118_PAGE_SIZE.

(** Enumeration of [n] consecutive integers, for exhaustive checks. *)
Fixpoint zrange (start : Z) (n : nat) : list Z :=
  match n with
  | O => []
  | S m => start :: zrange (start + 1) m
  end.

(** Sample worlds: a chip whose memory holds a recognisable pattern, right
    after probe, with a given fate for the coming transfers. *)
Definition sample_chip : chip :=
  {| mode_regs := fun a => if a =? 0x31 then 0x90 else if a =? 0x32 then 0x01 else 0;
     nvm := fun a => a * 7 + 3 |}.

Definition sample_world (fl : list (option errno)) : world :=
  {| data := probe_data 0xB380 0x11; device := sample_chip;
     faults := fl; log := [] |}.

Definition params (temp_write alarm_write : bool) : module_params :=
  {| enable_temp_write := temp_write; enable_alarm_write := alarm_write |}.

(** The first example of the specification: page 3 is selected and cached. *)
Definition world_on_page_3 : world :=
  {| data := {| update_lock := None; current_page := 3;
                vendor := 0xB380; revision := 0x11 |};
     device := chip_write sample_chip SPD5118_REG_I2C_LEGACY_MODE 3;
     faults := []; log := [] |}.

(** A block read issued for the request of [count] bytes at [off]: it reads
    at the in-page offset of some position [o] of the request, and its
    length is what remains, [c], cut at the end of [o]'s page. *)
Definition clamped_read (off count : Z) (op : bus_op) : Prop :=
  forall command length,
    op = ReadI2cBlockData command length ->
    exists o c,
      off <= o /\ 0 < c /\ o + c = off + count /\
      command = SPD5118_EEPROM_BASE + o mod SPD5118_PAGE_SIZE /\
      length = Z.min c (SPD5118_PAGE_SIZE - o mod SPD5118_PAGE_SIZE).

(** An entry of the log written by thread [t] while it reads [count] bytes
    at [off] with final status [ret]: a bus transfer; if it failed, its
    status is [ret]; if it is a block read, it is clamped to its page. *)
Definition read_txn (t : tid) (off count ret : Z) (ev : tid * event) : Prop :=
  exists op status,
    ev = (t, EvBus op status) /\
    (status < 0 -> ret = status) /\
    clamped_read off count op.

(** ** The locking discipline *)

Inductive action_kind : Type :=
| KLock      (* takes the mutex *)
| KUnlock    (* releases it *)
| KGuarded   (* touches what the mutex protects: cached page, bus *)
| KSpin.

Definition kind_of {X : Type} (e : action X) : action_kind :=
  match e with
  | MutexLock => KLock
  | MutexUnlock => KUnlock
  | LoadCurrentPage | StoreCurrentPage _ | Smbus _ => KGuarded
  | Spin => KSpin
  end.

(** After the unlock a function only returns. *)
Definition released {A : Type} (p : prog A) : Prop :=
  match p with
  | Ret _ => True
  | Vis _ _ => False
  end.

(** Inside the critical section: guarded actions on every path, up to the
    unlock, after which the function returns; it never returns holding the
    mutex and never takes it again. *)
Fixpoint critical {A : Type} (p : prog A) : Prop :=
  match p with
  | Ret _ => False
  | @Vis _ X e k =>
      match kind_of e with
      | KLock => False
      | KUnlock => forall x : X, released (k x)
      | KGuarded => forall x : X, critical (k x)
      | KSpin => True
      end
  end.

(** A whole call: it returns without touching anything, or takes the mutex
    and continues with a critical section. *)
Definition well_locked {A : Type} (p : prog A) : Prop :=
  match p with
  | Ret _ => True
  | @Vis _ X e k =>
      match kind_of e with
      | KLock => forall x : X, critical (k x)
      | _ => False
      end
  end.

(** The body of a critical section: guarded actions only. *)
Fixpoint guarded_only {A : Type} (p : prog A) : Prop :=
  match p with
  | Ret _ => True
  | @Vis _ X e k =>
      match kind_of e with
      | KGuarded => forall x : X, guarded_only (k x)
      | KSpin => True
      | _ => False
      end
  end.

Definition thread_well_locked (th : thread) : Prop :=
  match th with Thread p => well_locked p end.

Definition thread_critical (th : thread) : Prop :=
  match th with Thread p => critical p end.

Definition thread_finished (th : thread) : Prop :=
  match th with Thread p => released p end.

(** Replays a log from the holder [h]: [None] when an entry breaks the
    mutex discipline (a lock while the mutex is held; an unlock or a bus
    transfer by a thread that does not hold it), else the holder at the
    end. *)
Fixpoint holder_after (h : option tid) (l : list (tid * event))
  : option (option tid) :=
  match l with
  | [] => Some h
  | (i, ev) :: l' =>
      match ev, h with
      | EvLock, None => holder_after (Some i) l'
      | EvUnlock, Some o =>
          if Nat.eqb i o then holder_after None l' else None
      | EvBus _ _, Some o =>
          if Nat.eqb i o then holder_after h l' else None
      | _, _ => None
      end
  end.

(** The entries of thread [i] are not interleaved with those of others:
    whatever lies between two of them is its own. *)
Definition contiguous (i : tid) (l : list (tid * event)) : Prop :=
  forall l1 l2 l3 e1 e2,
    l = l1 ++ (i, e1) :: l2 ++ (i, e2) :: l3 ->
    Forall (fun ev => fst ev = i) l2.

(** *** An executable scheduler, to build interleavings *)

Definition try_step (i : tid) (c : pool * world) : option (pool * world) :=
  match fst c i with
  | Thread (Ret _) => None
  | Thread (Vis e k) =>
      match exec i e (snd c) with
      | Some (x, w') => Some (pool_set (fst c) i (Thread (k x)), w')
      | None => None
      end
  end.

(** Runs the threads in the order of [sched]; a thread that cannot move
    (finished, blocked on the mutex) is skipped. *)
Fixpoint schedule (sched : list tid) (c : pool * world) : pool * world :=
  match sched with
  | [] => c
  | i :: rest =>
      match try_step i c with
      | Some c' => schedule rest c'
      | None => schedule rest c
      end
  end.

(** A temperature read (thread 0) and a bulk EEPROM read (thread 1). *)
Definition sample_calls (i : tid) : entry :=
  match i with
  | O => EntryRead hwmon_temp hwmon_temp_input 0
  | S O => EntryEepromRead 20 120 20
  | _ => EntryRead hwmon_chip hwmon_temp_input 0
  end.

Definition sample_pool : pool :=
  fun i => entry_thread (params false false) (sample_calls i).

Definition sample_schedule : list tid :=
  [1; 1; 0; 1; 0; 1; 1; 0; 1; 0; 0; 1; 1; 0; 1; 1; 0; 0; 1; 0; 0]%nat.

(** A thread that has not started: its next action takes the mutex. *)
Definition waiting (th : thread) : Prop :=
  match th with
  | Thread (Ret _) => False
  | Thread (Vis e _) => kind_of e = KLock
  end.

(** What every reachable configuration satisfies: the log obeys the mutex
    discipline and ends with the holder recorded in the device record; no
    thread's entries are interleaved with another's; the holder is inside
    its critical section and the log ends with its entries; every other
    thread is before or after its call, and one that has not started has
    logged nothing. *)
Definition lock_invariant (c : pool * world) : Prop :=
  let ts := fst c in
  let w := snd c in
  let h := update_lock (data w) in
  holder_after None (log w) = Some h /\
  (forall i, contiguous i (log w)) /\
  (forall o, h = Some o ->
     thread_critical (ts o) /\
     exists pre suf,
       log w = pre ++ suf /\
       Forall (fun ev => fst ev <> o) pre /\
       Forall (fun ev => fst ev = o) suf) /\
  (forall i, h <> Some i -> thread_well_locked (ts i)) /\
  (forall i, h <> Some i -> waiting (ts i) ->
     Forall (fun ev => fst ev <> i) (log w)).

(** An action that leaves the page selection alone: it does not store the
    cached page and does not write the page-select register. *)
Definition action_keeps_page {X : Type} (e : action X) : Prop :=
  match e with
  | StoreCurrentPage _ => False
  | Smbus (WriteByteData command _) =>
      command <> SPD5118_REG_I2C_LEGACY_MODE
  | Smbus (WriteWordData command _) =>
      command <> SPD5118_REG_I2C_LEGACY_MODE /\
      u8 (command + 1) <> SPD5118_REG_I2C_LEGACY_MODE
  | _ => True
  end.

Fixpoint keeps_page {A : Type} (p : prog A) : Prop :=
  match p with
  | Ret _ => True
  | @Vis _ X e k => action_keeps_page e /\ forall x : X, keeps_page (k x)
  end.

(** ** Discovery and attach (lines 436-517) *)

Definition ENOMEM : Z := 12.

(** Modelled from the spec: [swab16] and [i2c_smbus_read_word_swapped] of
    <linux/swab.h> and <linux/i2c.h> are not part of the repository.  The
    spec's "byte-order-swapped word read" is a word read whose two bytes are
    exchanged when the transfer succeeds. *)
Definition swab16 (x : Z) : Z :=
  Z.lor (Z.shiftl (Z.land x 0x00ff) 8) (Z.shiftr (Z.land x 0xff00) 8).

Definition i2c_smbus_read_word_swapped (command : Z) : prog Z :=
  value <- i2c_smbus_read_word_data command ;;
  Ret (if value <? 0 then value else swab16 (u16 value)).

(** [functionality] is the result of [i2c_check_functionality] for byte and
    word transfers; the result pairs the C return value with what is copied
    into [info->type]. *)
Definition spd5118_detect (functionality : bool) : prog (Z * option string) :=
  if negb functionality then Ret (- ENODEV, None)
  else
    cap <- i2c_smbus_read_word_swapped SPD5118_REG_TYPE ;;
    if negb (cap =? 0x5118) then Ret (- ENODEV, None)
    else
      vendor <- i2c_smbus_read_word_data SPD5118_REG_VENDOR ;;
      if (vendor <? 0) || negb (spd5118_vendor_valid (u16 vendor))
      then Ret (- ENODEV, None)
      else Ret (0, Some "spd5118"%string).

(** [typ], [revision] and [vendor] are [unsigned int]: each read result is
    converted before it is tested.  [alloc_ok] tells whether [devm_kzalloc]
    returns memory, [hwmon_error] what [PTR_ERR_OR_ZERO] makes of the
    registration.  The result pairs the C return value with the record the
    function has initialised, if it got that far. *)
Definition spd5118_probe (alloc_ok : bool) (hwmon_error : option errno)
  : prog (Z * option spd5118_data) :=
  typ <- i2c_smbus_read_word_swapped SPD5118_REG_TYPE ;;
  let typ := u32 typ in
  if negb (typ =? 0x5118) then Ret (- ENODEV, None)
  else
    revision <- i2c_smbus_read_byte_data SPD5118_REG_REVISION ;;
    let revision := u32 revision in
    if revision <? 0 then Ret (- ENODEV, None)
    else
      vendor <- i2c_smbus_read_word_data SPD5118_REG_VENDOR ;;
      let vendor := u32 vendor in
      if vendor <? 0 then Ret (- ENODEV, None)
      else if negb alloc_ok then Ret (- ENOMEM, None)
      else
        let data := probe_data vendor revision in
        Ret (match hwmon_error with
             | Some e => fail_status e
             | None => 0
             end, Some data).

(** ** The text attributes (lines 312-343) *)

Definition newline : string := String (ascii_of_nat 10) EmptyString.

(** Modelled from the spec: [sprintf] of the kernel's lib/vsprintf.c is not
    part of the repository.  ["%d"] prints an [int] in decimal; ["%02X"]
    prints an [unsigned int] in upper-case hexadecimal, padded with zeros to
    two characters.  [sprintf] returns the number of characters written. *)
Definition sprintf_d (z : Z) : string :=
  NilZero.string_of_int (Z.to_int (s32 z)).

Definition hex_digit_upper (d : Z) : ascii :=
  if d <? 10 then ascii_of_nat (48 + Z.to_nat d)
  else ascii_of_nat (55 + Z.to_nat d).

Fixpoint hex_upper (digits : nat) (v : Z) : string :=
  match digits with
  | O => EmptyString
  | S n =>
      if v <? 16 then String (hex_digit_upper v) EmptyString
      else (hex_upper n (v / 16)
            ++ String (hex_digit_upper (v mod 16)) EmptyString)%string
  end.

Definition sprintf_02X (v : Z) : string :=
  let s := hex_upper 8 (u32 v) in
  if (String.length s <? 2)%nat then ("0" ++ s)%string else s.

(** [revision] is the [u8] field of the device record; the result pairs the
    C return value with the text stored in [buf]. *)
Definition revision_show (revision : Z) : Z * string :=
  let out := (sprintf_d (1 + Z.land (Z.shiftr revision 4) 3) ++ "."
              ++ sprintf_d (Z.land (Z.shiftr revision 1) 7) ++ newline)%string in
  (Z.of_nat (String.length out), out).

(** The [while (pfx--)] loop of [pmic_vendor_id_show]: [pfx] is a [u8], [n]
    an [int]; [fuel] bounds the number of iterations. *)
Fixpoint vendor_prefix_loop (fuel : nat) (pfx n : Z) (buf : string)
  : option (Z * string) :=
  match fuel with
  | O => None
  | S fuel' =>
      if pfx =? 0 then Some (n, buf)
      else vendor_prefix_loop fuel' (u8 (pfx - 1)) (s32 (n + 3))
             (buf ++ "7F ")%string
  end.

Definition pmic_vendor_id_show (fuel : nat) (vendor : Z)
  : option (Z * string) :=
  let pfx := u8 (Z.land vendor 0x7f) in
  let id := u8 (Z.land (Z.shiftr vendor 8) 0x7f) in
  match vendor_prefix_loop fuel pfx 0 EmptyString with
  | None => None
  | Some (n, buf) =>
      let tail := (sprintf_02X id ++ newline)%string in
      Some (s32 (n + Z.of_nat (String.length tail)), (buf ++ tail)%string)
  end.

(** ** Vocabulary of the further properties *)

Definition is_readable (attr : hwmon_temp_attributes) : Prop :=
  attr = hwmon_temp_input \/ is_threshold attr.

(** The file modes of [spd5118_is_visible]: octal 0444 and 0644. *)
Definition S_0444 : Z := 292.
Definition S_0644 : Z := 420.

(** A program that performs no action at all. *)
Definition returns_at_once {A : Type} (p : prog A) : Prop :=
  match p with
  | Ret _ => True
  | Vis _ _ => False
  end.

(** The text of [n] continuation tokens. *)
Fixpoint prefix_tokens (n : nat) : string :=
  match n with
  | O => EmptyString
  | S m => ("7F " ++ prefix_tokens m)%string
  end.

(** The type signature and a valid vendor id at the registers of a chip. *)
Definition chip_with_identity (typ_hi typ_lo vendor_lo vendor_hi : Z) : chip :=
  {| mode_regs := fun a =>
       if a =? 0 then typ_hi else if a =? 1 then typ_lo
       else if a =? 3 then vendor_lo else if a =? 4 then vendor_hi
       else 0;
     nvm := fun a => a |}.

Definition world_of_chip (c : chip) (fl : list (option errno)) : world :=
  {| data := probe_data 0 0; device := c; faults := fl; log := [] |}.

(** The word a chip returns for a word read at [addr]: low byte first. *)
Definition chip_word (c : chip) (addr : Z) : Z :=
  chip_read c addr + 256 * chip_read c (u8 (addr + 1)).

(** The fate of the transfer after the next [n]. *)
Definition nth_fault (n : nat) (w : world) : option errno :=
  nth n (faults w) None.

(** The world after one transfer that left the chip as it was. *)
Definition after_read (t : tid) (op : bus_op) (status : Z) (w : world)
  : world :=
  {| data := data w; device := device w; faults := tl (faults w);
     log := log w ++ [(t, EvBus op status)] |}.

(** The value of an upper-case hexadecimal digit, and of the two digits at
    the head of a text. *)
Definition hex_digit_value (c : ascii) : Z :=
  let n := Z.of_nat (nat_of_ascii c) in
  if n <? 58 then n - 48 else n - 55.

Definition hex_pair_value (s : string) : Z :=
  match s with
  | String hi (String lo _) => 16 * hex_digit_value hi + hex_digit_value lo
  | _ => -1
  end.

(** A log entry of thread [t] that is a block read. *)
Definition is_block_read (t : tid) (ev : tid * event) : Prop :=
  exists command length status,
    ev = (t, EvBus (ReadI2cBlockData command length) status).

(** The world right after probe: the record of [probe_data], nothing
    logged. *)
Definition world_after_probe (vendor revision : Z) (c : chip)
  (fl : list (option errno)) : world :=
  {| data := probe_data vendor revision; device := c;
     faults := fl; log := [] |}.

(** * Properties *)

(** ** Checking a decidable property on every value of a fixed-width type *)

Lemma in_zrange (n : nat) :
  forall start z, start <= z < start + Z.of_nat n -> In z (zrange start n).
Proof.
  induction n as [| m IH]; intros start z Hz.
  - lia.
  - cbn [zrange].
    destruct (Z.eq_dec start z) as [Heq | Hne].
    + left. exact Heq.
    + right. apply IH. lia.
Qed.

Lemma forallb_below (n : nat) (f : Z -> bool) :
  forallb f (zrange 0 n) = true ->
  forall z, 0 <= z < Z.of_nat n -> f z = true.
Proof.
  intros Hall z Hz.
  rewrite forallb_forall in Hall.
  apply Hall, in_zrange.
  lia.
Qed.

Lemma forall_u8 (f : Z -> bool) :
  forallb f (zrange 0 256) = true ->
  forall b, 0 <= b < 256 -> f b = true.
Proof.
  intros Hall b Hb. apply (forallb_below 256 f Hall). lia.
Qed.

Lemma forall_u16 (f : Z -> bool) :
  forallb f (zrange 0 (Z.to_nat (2 ^ 16))) = true ->
  forall r, is_u16 r -> f r = true.
Proof.
  intros Hall r Hr. apply (forallb_below _ f Hall).
  rewrite Z2Nat.id by lia. exact Hr.
Qed.

(** ** The vendor-id check *)

Lemma builtin_parity_byte (b : Z) :
  0 <= b < 256 -> builtin_parity b = Nat.odd (bits_set b).
Proof.
  intros Hb.
  apply Bool.eqb_prop.
  revert b Hb.
  apply forall_u8.
  vm_compute. reflexivity.
Qed.

Lemma prefix_byte_range (reg : Z) : 0 <= prefix_byte reg < 256.
Proof.
  unfold prefix_byte.
  change 0xff with (Z.ones 8).
  rewrite Z.land_ones by lia.
  apply Z.mod_pos_bound. lia.
Qed.

Lemma id_byte_range (reg : Z) : is_u16 reg -> 0 <= id_byte reg < 256.
Proof.
  unfold is_u16, id_byte. intros Hr.
  rewrite Z.shiftr_div_pow2 by lia.
  change (2 ^ 16) with (256 * 2 ^ 8) in Hr.
  split.
  - apply Z.div_pos; lia.
  - apply Z.div_lt_upper_bound; lia.
Qed.

Lemma masked_id_range (reg : Z) : 0 <= masked_id reg < 128.
Proof.
  unfold masked_id.
  change 0x7f with (Z.ones 7).
  rewrite Z.land_ones by lia.
  apply Z.mod_pos_bound. lia.
Qed.

Lemma u8_small (z : Z) : 0 <= z < 256 -> u8 z = z.
Proof. intros Hz. unfold u8. apply Z.mod_small. exact Hz. Qed.

(** The source function, step by step, on the spec's vocabulary. *)
Lemma spd5118_vendor_valid_unfold (reg : Z) :
  is_u16 reg ->
  spd5118_vendor_valid reg =
    Nat.odd (bits_set (prefix_byte reg)) &&
    Nat.odd (bits_set (id_byte reg)) &&
    negb (masked_id reg =? 0) && negb (masked_id reg =? 127).
Proof.
  intros Hr.
  pose proof (prefix_byte_range reg) as Hp.
  pose proof (id_byte_range reg Hr) as Hi.
  pose proof (masked_id_range reg) as Hm.
  unfold spd5118_vendor_valid.
  fold (prefix_byte reg). fold (id_byte reg).
  rewrite (u8_small (prefix_byte reg)) by exact Hp.
  rewrite (u8_small (id_byte reg)) by exact Hi.
  fold (masked_id reg).
  rewrite (u8_small (masked_id reg)) by lia.
  rewrite (builtin_parity_byte _ Hp), (builtin_parity_byte _ Hi).
  destruct (Nat.odd (bits_set (prefix_byte reg)));
    destruct (Nat.odd (bits_set (id_byte reg)));
    destruct (masked_id reg =? 0);
    destruct (masked_id reg =? 127); reflexivity.
Qed.

(** C8.  For every 16-bit vendor word, [spd5118_vendor_valid] returns true
    exactly when both bytes have odd parity and the id byte masked to 7 bits
    lies in [1, 126]; it returns false whenever either byte has even parity
    or the masked id is 0 or 127. *)
Theorem spd5118_vendor_valid_spec (reg : Z) :
  is_u16 reg ->
  (spd5118_vendor_valid reg = true <->
     odd_parity (prefix_byte reg) /\ odd_parity (id_byte reg) /\
     1 <= masked_id reg <= 126)
  /\
  (even_parity (prefix_byte reg) \/ even_parity (id_byte reg) \/
   masked_id reg = 0 \/ masked_id reg = 127 ->
   spd5118_vendor_valid reg = false).
Proof.
  intros Hr.
  pose proof (masked_id_range reg) as Hm.
  rewrite (spd5118_vendor_valid_unfold reg Hr).
  unfold odd_parity, even_parity.
  split.
  - rewrite !andb_true_iff, !negb_true_iff, !Z.eqb_neq.
    split.
    + intros [[[Hp Hi] H0] H127]. repeat split; try assumption; lia.
    + intros [Hp [Hi Hrange]]. repeat split; try assumption; lia.
  - intros [Hp | [Hi | [H0 | H127]]].
    + rewrite Hp. reflexivity.
    + rewrite Hi. apply andb_false_iff. left. apply andb_false_iff. left.
      apply andb_false_r.
    + rewrite H0. cbn. apply andb_false_iff. left. apply andb_false_r.
    + rewrite H127. cbn. apply andb_false_r.
Qed.

Lemma spd5118_vendor_valid_spec_witness :
  (spd5118_vendor_valid 0xB380 = true <->
     odd_parity (prefix_byte 0xB380) /\ odd_parity (id_byte 0xB380) /\
     1 <= masked_id 0xB380 <= 126)
  /\
  (even_parity (prefix_byte 0xB380) \/ even_parity (id_byte 0xB380) \/
   masked_id 0xB380 = 0 \/ masked_id 0xB380 = 127 ->
   spd5118_vendor_valid 0xB380 = false).
Proof.
  apply (spd5118_vendor_valid_spec 0xB380).
  unfold is_u16. lia.
Defined.

(** ** The temperature codec *)

Lemma u16_range (z : Z) : 0 <= u16 z < 2 ^ 16.
Proof. unfold u16. apply Z.mod_pos_bound. lia. Qed.

Lemma s32_small (z : Z) : - 2 ^ 31 <= z < 2 ^ 31 -> s32 z = z.
Proof.
  intros Hz. unfold s32.
  rewrite Z.mod_small by lia. lia.
Qed.

(** Whatever [sign_extend32] returns, the store into the [u16] parameter
    makes the product non-negative: the decoder has no negative result. *)
Lemma spd5118_temp_from_reg_nonneg (reg : Z) :
  0 <= spd5118_temp_from_reg reg <= 65535 * 250.
Proof.
  unfold spd5118_temp_from_reg.
  pose proof (u16_range (sign_extend32 (Z.shiftr reg 2) 11)) as Hu.
  change SPD5118_TEMP_UNIT with 250.
  rewrite s32_small by lia.
  lia.
Qed.

Lemma spd5118_temp_from_reg_step (reg : Z) :
  (250 | spd5118_temp_from_reg reg).
Proof.
  unfold spd5118_temp_from_reg.
  pose proof (u16_range (sign_extend32 (Z.shiftr reg 2) 11)) as Hu.
  change SPD5118_TEMP_UNIT with 250.
  rewrite s32_small by lia.
  apply Z.divide_factor_r.
Qed.

(** The decoder of the specification does what C1 says. *)
Lemma decode_spec_range (r : Z) :
  is_u16 r -> in_temp_range (decode_spec r) /\ (250 | decode_spec r).
Proof.
  intros Hr. split.
  - assert (Hb : ((SPD5118_TEMP_RANGE_MIN <=? decode_spec r) &&
                  (decode_spec r <=? SPD5118_TEMP_RANGE_MAX)) = true).
    { revert r Hr. apply forall_u16. vm_compute. reflexivity. }
    apply andb_true_iff in Hb. destruct Hb as [Hlo Hhi].
    unfold in_temp_range. split; apply Z.leb_le; assumption.
  - unfold decode_spec. apply Z.divide_factor_r.
Qed.

(** The source decoder agrees with the specification exactly on the
    registers whose bits 12 and 13 are clear. *)
Lemma spd5118_temp_from_reg_agrees (r : Z) :
  is_u16 r ->
  (Z.land r 0x3000 = 0 -> spd5118_temp_from_reg r = decode_spec r) /\
  (Z.land r 0x3000 <> 0 -> ~ in_temp_range (spd5118_temp_from_reg r)).
Proof.
  intros Hr.
  assert (Hb : (if Z.land r 0x3000 =? 0
                then spd5118_temp_from_reg r =? decode_spec r
                else SPD5118_TEMP_RANGE_MAX <? spd5118_temp_from_reg r) = true).
  { revert r Hr. apply forall_u16. vm_compute. reflexivity. }
  destruct (Z.land r 0x3000 =? 0) eqn:Hbits.
  - apply Z.eqb_eq in Hbits, Hb. split; [intros _; exact Hb | congruence].
  - apply Z.eqb_neq in Hbits. apply Z.ltb_lt in Hb.
    split; [congruence | ].
    intros _ [_ Hhi]. lia.
Qed.

(** C1.  The register 0x1FFC is what the driver's own encoder writes for
    -0.25 degrees; [spd5118_temp_from_reg] decodes it to 511750, outside
    the representable range, where the specification's decoder gives -250. *)
Theorem spd5118_temp_from_reg_below_zero :
  spd5118_temp_to_reg (-250) = 0x1FFC /\
  spd5118_temp_from_reg 0x1FFC = 511750 /\
  ~ in_temp_range (spd5118_temp_from_reg 0x1FFC) /\
  decode_spec 0x1FFC = -250.
Proof.
  repeat split.
  intros [_ Hhi]. vm_compute in Hhi. apply Hhi. reflexivity.
Qed.

(** The round trip of C2 holds for the decoder of the specification, so the
    encoder is not at fault. *)
Lemma roundtrip_decode_spec (r : Z) :
  is_u16 r -> field11 (spd5118_temp_to_reg (decode_spec r)) = field11 r.
Proof.
  intros Hr. apply Z.eqb_eq. revert r Hr.
  apply forall_u16. vm_compute. reflexivity.
Qed.

Lemma roundtrip_bits_clear (r : Z) :
  is_u16 r -> Z.land r 0x3000 = 0 ->
  field11 (spd5118_temp_to_reg (spd5118_temp_from_reg r)) = field11 r.
Proof.
  intros Hr Hbits.
  destruct (spd5118_temp_from_reg_agrees r Hr) as [Hagree _].
  rewrite (Hagree Hbits).
  apply roundtrip_decode_spec. exact Hr.
Qed.

(** C2.  At the register 0x1FFC (-0.25 degrees) the round trip through
    [spd5118_temp_from_reg] and [spd5118_temp_to_reg] returns the field
    1023, not the original 11-bit field 2047. *)
Theorem spd5118_temp_roundtrip_below_zero :
  field11 (spd5118_temp_to_reg (spd5118_temp_from_reg 0x1FFC)) = 1023 /\
  field11 0x1FFC = 2047 /\
  field11 (spd5118_temp_to_reg (spd5118_temp_from_reg 0x1FFC)) <>
    field11 0x1FFC.
Proof.
  repeat split. vm_compute. discriminate.
Qed.

Lemma clamp_val_below (x lo hi : Z) : lo <= hi -> x < lo -> clamp_val x lo hi = lo.
Proof. intros Hlh Hx. unfold clamp_val. lia. Qed.

Lemma clamp_val_above (x lo hi : Z) : lo <= hi -> hi < x -> clamp_val x lo hi = hi.
Proof. intros Hlh Hx. unfold clamp_val. lia. Qed.

Lemma clamp_val_nearest (x : Z) :
  clamp_val x SPD5118_TEMP_RANGE_MIN SPD5118_TEMP_RANGE_MAX = nearest_boundary x.
Proof.
  unfold clamp_val, nearest_boundary, SPD5118_TEMP_RANGE_MIN, SPD5118_TEMP_RANGE_MAX.
  destruct (Z.ltb_spec x (-256000)); [lia | ].
  destruct (Z.ltb_spec 255750 x); lia.
Qed.

Lemma field_shift_fits (q : Z) : u16 (Z.shiftl (Z.land q 0x7ff) 2) = Z.shiftl (Z.land q 0x7ff) 2.
Proof.
  assert (Hq : 0 <= Z.land q 0x7ff < 2 ^ 11).
  { change 0x7ff with (Z.ones 11). rewrite Z.land_ones by lia.
    apply Z.mod_pos_bound. lia. }
  unfold u16. rewrite Z.shiftl_mul_pow2 by lia.
  apply Z.mod_small. lia.
Qed.

(** On every input the encoder is the encoder of the specification. *)
Lemma spd5118_temp_to_reg_encode_spec (x : Z) :
  spd5118_temp_to_reg x = encode_spec x.
Proof.
  unfold spd5118_temp_to_reg, encode_spec.
  rewrite clamp_val_nearest, field_shift_fits.
  reflexivity.
Qed.

(** C7.  For every millidegree input outside [-256000, 255750],
    [spd5118_temp_to_reg] clamps to the nearest boundary, divides by 250
    truncating toward zero, masks to 11 bits and shifts left by 2; so it
    returns the code of -256000 below the range and that of 255750 above. *)
Theorem spd5118_temp_to_reg_clamps (x : Z) :
  ~ in_temp_range x ->
  spd5118_temp_to_reg x =
    Z.shiftl (Z.land (Z.quot (nearest_boundary x) 250) 0x7ff) 2 /\
  (nearest_boundary x = -256000 \/ nearest_boundary x = 255750) /\
  (x < -256000 ->
   nearest_boundary x = -256000 /\
   spd5118_temp_to_reg x = spd5118_temp_to_reg (-256000)) /\
  (255750 < x ->
   nearest_boundary x = 255750 /\
   spd5118_temp_to_reg x = spd5118_temp_to_reg 255750).
Proof.
  unfold in_temp_range, SPD5118_TEMP_RANGE_MIN, SPD5118_TEMP_RANGE_MAX.
  intros Hout.
  split; [apply spd5118_temp_to_reg_encode_spec | ].
  split.
  - unfold nearest_boundary.
    destruct (Z.ltb_spec x (-256000)); [left; reflexivity | ].
    destruct (Z.ltb_spec 255750 x); [right; reflexivity | lia].
  - split; intros Hx.
    + split.
      * unfold nearest_boundary.
        destruct (Z.ltb_spec x (-256000)); [reflexivity | lia].
      * unfold spd5118_temp_to_reg.
        rewrite clamp_val_below by (unfold SPD5118_TEMP_RANGE_MIN, SPD5118_TEMP_RANGE_MAX; lia).
        reflexivity.
    + split.
      * unfold nearest_boundary.
        destruct (Z.ltb_spec x (-256000)); [lia | ].
        destruct (Z.ltb_spec 255750 x); [reflexivity | lia].
      * unfold spd5118_temp_to_reg.
        rewrite clamp_val_above by (unfold SPD5118_TEMP_RANGE_MIN, SPD5118_TEMP_RANGE_MAX; lia).
        reflexivity.
Qed.

Lemma spd5118_temp_to_reg_clamps_witness :
  spd5118_temp_to_reg (-300000) =
    Z.shiftl (Z.land (Z.quot (nearest_boundary (-300000)) 250) 0x7ff) 2 /\
  (nearest_boundary (-300000) = -256000 \/
   nearest_boundary (-300000) = 255750) /\
  (-300000 < -256000 ->
   nearest_boundary (-300000) = -256000 /\
   spd5118_temp_to_reg (-300000) = spd5118_temp_to_reg (-256000)) /\
  (255750 < -300000 ->
   nearest_boundary (-300000) = 255750 /\
   spd5118_temp_to_reg (-300000) = spd5118_temp_to_reg 255750).
Proof.
  apply (spd5118_temp_to_reg_clamps (-300000)).
  unfold in_temp_range, SPD5118_TEMP_RANGE_MIN, SPD5118_TEMP_RANGE_MAX.
  lia.
Defined.

(** ** Running programs *)

Lemma run_bind (t : tid) {A B : Type} (p : prog A) (f : A -> prog B) :
  forall w,
    run t (bind p f) w =
    match run t p w with
    | None => None
    | Some (a, w') => run t (f a) w'
    end.
Proof.
  induction p as [a | X e k IH]; intros w.
  - reflexivity.
  - cbn [bind run].
    destruct (exec t e w) as [[x w'] | ]; [apply IH | reflexivity].
Qed.

(** ** Threshold writes and alarm clears *)

(** C6.  With [enable_temp_write] false, a write of any threshold (max, min,
    crit, lcrit) is the program that returns -EOPNOTSUPP at once: run in any
    world it issues no bus transfer and leaves the world, log included, as
    it was. *)
Theorem spd5118_write_temp_disabled
  (cfg : module_params) (attr : hwmon_temp_attributes) (channel val : Z)
  (t : tid) (w : world) :
  enable_temp_write cfg = false ->
  is_threshold attr ->
  spd5118_write_temp cfg attr val = Ret (- EOPNOTSUPP) /\
  spd5118_write cfg hwmon_temp attr channel val = Ret (- EOPNOTSUPP) /\
  run t (spd5118_write cfg hwmon_temp attr channel val) w
    = Some (- EOPNOTSUPP, w).
Proof.
  intros Hoff Hattr.
  assert (Hwt : spd5118_write_temp cfg attr val = Ret (- EOPNOTSUPP)).
  { unfold spd5118_write_temp. rewrite Hoff. reflexivity. }
  assert (Hw : spd5118_write cfg hwmon_temp attr channel val
               = spd5118_write_temp cfg attr val).
  { destruct Hattr as [-> | [-> | [-> | ->]]]; reflexivity. }
  rewrite Hw, Hwt. repeat split.
Qed.

Lemma spd5118_write_temp_disabled_witness :
  spd5118_write_temp (params false true) hwmon_temp_crit 85000
    = Ret (- EOPNOTSUPP) /\
  spd5118_write (params false true) hwmon_temp hwmon_temp_crit 0 85000
    = Ret (- EOPNOTSUPP) /\
  run 0%nat (spd5118_write (params false true) hwmon_temp hwmon_temp_crit 0 85000)
    (sample_world [])
    = Some (- EOPNOTSUPP, sample_world []).
Proof.
  apply (spd5118_write_temp_disabled
           (params false true) hwmon_temp_crit 0 85000 0%nat (sample_world [])).
  - reflexivity.
  - unfold is_threshold. right. right. left. reflexivity.
Defined.

(** C10.  A write of a nonzero value to an alarm attribute is the program
    that returns -EINVAL at once, whatever the module parameters: with
    [enable_alarm_write] false the result is still -EINVAL, not
    -EOPNOTSUPP, and no bus transfer is issued. *)
Theorem spd5118_write_alarm_nonzero
  (cfg : module_params) (attr : hwmon_temp_attributes) (channel val : Z)
  (t : tid) (w : world) :
  is_alarm attr ->
  val <> 0 ->
  spd5118_write cfg hwmon_temp attr channel val = Ret (- EINVAL) /\
  run t (spd5118_write cfg hwmon_temp attr channel val) w
    = Some (- EINVAL, w) /\
  - EINVAL <> - EOPNOTSUPP.
Proof.
  intros Hattr Hval.
  assert (Hp : spd5118_write cfg hwmon_temp attr channel val = Ret (- EINVAL)).
  { apply Z.eqb_neq in Hval.
    destruct Hattr as [-> | [-> | [-> | ->]]];
      cbn [spd5118_write is_hwmon_temp negb]; rewrite Hval; reflexivity. }
  rewrite Hp. repeat split. discriminate.
Qed.

Lemma spd5118_write_alarm_nonzero_witness :
  spd5118_write (params false false) hwmon_temp hwmon_temp_min_alarm 0 1
    = Ret (- EINVAL) /\
  run 0%nat (spd5118_write (params false false) hwmon_temp hwmon_temp_min_alarm 0 1)
    (sample_world [])
    = Some (- EINVAL, sample_world []) /\
  - EINVAL <> - EOPNOTSUPP.
Proof.
  apply (spd5118_write_alarm_nonzero
           (params false false) hwmon_temp_min_alarm 0 1 0%nat (sample_world [])).
  - unfold is_alarm. right. left. reflexivity.
  - lia.
Defined.

(** *** One bus transfer *)

Lemma fail_status_range (e : errno) : - MAX_ERRNO <= fail_status e < 0.
Proof.
  unfold fail_status.
  pose proof (errno_valid e) as Hv.
  apply andb_true_iff in Hv. destruct Hv as [Hlo Hhi].
  apply Z.ltb_lt in Hlo. apply Z.leb_le in Hhi. lia.
Qed.

Lemma fail_status_ltb (e : errno) : (fail_status e <? 0) = true.
Proof. apply Z.ltb_lt. apply fail_status_range. Qed.

Lemma fail_status_eqb (e : errno) : (fail_status e =? 0) = false.
Proof. apply Z.eqb_neq. pose proof (fail_status_range e). lia. Qed.

Lemma smbus_xfer_fault (t : tid) (op : bus_op) (w : world) (e : errno) :
  pending_fault w = Some e ->
  smbus_xfer t op w =
    ((fail_status e, []),
     {| data := data w; device := device w; faults := tl (faults w);
        log := log w ++ [(t, EvBus op (fail_status e))] |}).
Proof.
  unfold pending_fault, smbus_xfer.
  destruct (faults w) as [| [e' | ] rest]; try discriminate.
  intros [= ->]. reflexivity.
Qed.

Lemma smbus_xfer_ok (t : tid) (op : bus_op) (w : world) :
  pending_fault w = None ->
  smbus_xfer t op w =
    (fst (smbus_success (device w) op),
     {| data := data w; device := snd (smbus_success (device w) op);
        faults := tl (faults w);
        log := log w ++ [(t, EvBus op (fst (fst (smbus_success (device w) op))))] |}).
Proof.
  unfold pending_fault, smbus_xfer.
  destruct (faults w) as [| [e' | ] rest]; try discriminate;
    intros _; destruct (smbus_success (device w) op) as [r c]; reflexivity.
Qed.

Lemma write_alarm_nonzero_ret
  (cfg : module_params) (attr : hwmon_temp_attributes) (channel val : Z) :
  is_alarm attr -> val <> 0 ->
  spd5118_write cfg hwmon_temp attr channel val = Ret (- EINVAL).
Proof.
  intros Hattr Hval. apply Z.eqb_neq in Hval.
  destruct Hattr as [-> | [-> | [-> | ->]]];
    cbn [spd5118_write is_hwmon_temp negb]; rewrite Hval; reflexivity.
Qed.

Lemma alarm_clear_bit_index (attr : hwmon_temp_attributes) :
  is_alarm attr ->
  alarm_clear_bit attr = Some (2 ^ alarm_index attr) /\
  alarm_status_mask attr = Some (2 ^ alarm_index attr) /\
  0 <= alarm_index attr < 4.
Proof.
  intros [-> | [-> | [-> | ->]]]; cbn; repeat split; lia.
Qed.

Lemma write_alarm_zero_prog
  (cfg : module_params) (attr : hwmon_temp_attributes) (channel : Z) :
  is_alarm attr -> enable_alarm_write cfg = true ->
  spd5118_write cfg hwmon_temp attr channel 0 =
    (mutex_lock ;;
     ret <- i2c_smbus_write_byte_data SPD5118_REG_TEMP_CLR (2 ^ alarm_index attr) ;;
     mutex_unlock ;;
     Ret ret)%prog.
Proof.
  intros Hattr Hon.
  destruct (alarm_clear_bit_index attr Hattr) as [Hbit _].
  assert (Hw : spd5118_write cfg hwmon_temp attr channel 0
               = spd5118_clear_alarm cfg attr).
  { destruct Hattr as [-> | [-> | [-> | ->]]]; reflexivity. }
  rewrite Hw. unfold spd5118_clear_alarm.
  rewrite Hon, Hbit. reflexivity.
Qed.

(** C5, as amended.  For every alarm attribute a write of a nonzero value
    returns -EINVAL; a write of zero with [enable_alarm_write] set takes the
    mutex, issues exactly one bus write to the clear register, whose value
    has only that alarm's bit set, releases the mutex and returns the status
    of that write: 0 when the transfer succeeds, the transport error when it
    fails. *)
Theorem spd5118_write_alarm_clear
  (cfg : module_params) (attr : hwmon_temp_attributes) (channel : Z)
  (t : tid) (w : world) :
  is_alarm attr ->
  (forall val, val <> 0 ->
     run t (spd5118_write cfg hwmon_temp attr channel val) w
       = Some (- EINVAL, w)) /\
  (enable_alarm_write cfg = true ->
   update_lock (data w) = None ->
   exists status w',
     run t (spd5118_write cfg hwmon_temp attr channel 0) w = Some (status, w') /\
     log w' = log w ++
       [(t, EvLock);
        (t, EvBus (WriteByteData SPD5118_REG_TEMP_CLR (2 ^ alarm_index attr)) status);
        (t, EvUnlock)] /\
     (forall k, 0 <= k ->
        Z.testbit (2 ^ alarm_index attr) k = (k =? alarm_index attr)) /\
     alarm_status_mask attr = Some (2 ^ alarm_index attr) /\
     status = match pending_fault w with
              | None => 0
              | Some e => fail_status e
              end /\
     update_lock (data w') = None).
Proof.
  intros Hattr. split.
  - intros val Hval.
    rewrite (write_alarm_nonzero_ret cfg attr channel val Hattr Hval).
    reflexivity.
  - intros Hon Hfree.
    destruct (alarm_clear_bit_index attr Hattr) as [_ [Hmask Hidx]].
    rewrite (write_alarm_zero_prog cfg attr channel Hattr Hon).
    assert (Hu8 : u8 (2 ^ alarm_index attr) = 2 ^ alarm_index attr).
    { apply u8_small.
      assert (H4 : alarm_index attr = 0 \/ alarm_index attr = 1 \/
                   alarm_index attr = 2 \/ alarm_index attr = 3) by lia.
      destruct H4 as [-> | [-> | [-> | ->]]]; cbn; lia. }
    cbn [bind mutex_lock mutex_unlock call i2c_smbus_write_byte_data run exec].
    rewrite Hfree, Hu8.
    change (u8 SPD5118_REG_TEMP_CLR) with SPD5118_REG_TEMP_CLR.
    set (w1 := with_lock (Some t) (t, EvLock) w).
    assert (Hpend : pending_fault w1 = pending_fault w) by reflexivity.
    destruct (pending_fault w) as [e | ] eqn:Hp.
    + rewrite (smbus_xfer_fault t _ w1 e Hpend).
      eexists. eexists. split; [reflexivity | ].
      cbn. rewrite <- !app_assoc. repeat split; try assumption.
      intros k Hk. rewrite Z.pow2_bits_eqb by lia. apply Z.eqb_sym.
    + rewrite (smbus_xfer_ok t _ w1 Hpend).
      eexists. eexists. split; [reflexivity | ].
      cbn. rewrite <- !app_assoc. repeat split; try assumption.
      intros k Hk. rewrite Z.pow2_bits_eqb by lia. apply Z.eqb_sym.
Qed.

Lemma spd5118_write_alarm_clear_witness :
  exists status w',
    run 0%nat (spd5118_write (params false true) hwmon_temp hwmon_temp_crit_alarm 0 0)
      (sample_world []) = Some (status, w') /\
    log w' = log (sample_world []) ++
      [(0%nat, EvLock);
       (0%nat, EvBus (WriteByteData SPD5118_REG_TEMP_CLR
                        (2 ^ alarm_index hwmon_temp_crit_alarm)) status);
       (0%nat, EvUnlock)] /\
    (forall k, 0 <= k ->
       Z.testbit (2 ^ alarm_index hwmon_temp_crit_alarm) k
       = (k =? alarm_index hwmon_temp_crit_alarm)) /\
    alarm_status_mask hwmon_temp_crit_alarm
      = Some (2 ^ alarm_index hwmon_temp_crit_alarm) /\
    status = match pending_fault (sample_world []) with
             | None => 0
             | Some e => fail_status e
             end /\
    update_lock (data w') = None.
Proof.
  apply (spd5118_write_alarm_clear
           (params false true) hwmon_temp_crit_alarm 0 0%nat (sample_world [])).
  - unfold is_alarm. right. right. left. reflexivity.
  - reflexivity.
  - reflexivity.
Defined.

(** C5 as stated fails when the bus write fails: with alarm writes enabled,
    clearing the max alarm on a bus whose next transfer fails with EIO
    returns -EIO, not success. *)
Lemma spd5118_write_alarm_clear_bus_error :
  enable_alarm_write (params false true) = true /\
  update_lock (data (sample_world [Some errno_EIO])) = None /\
  exists w',
    run 0%nat (spd5118_write (params false true) hwmon_temp hwmon_temp_max_alarm 0 0)
      (sample_world [Some errno_EIO]) = Some (- EIO, w') /\
    log w' =
      [(0%nat, EvLock);
       (0%nat, EvBus (WriteByteData SPD5118_REG_TEMP_CLR 1) (- EIO));
       (0%nat, EvUnlock)] /\
    - EIO <> 0.
Proof.
  split; [reflexivity | ].
  split; [reflexivity | ].
  eexists. split; [reflexivity | ].
  split; [reflexivity | discriminate].
Qed.

(** ** Page selection *)

Lemma set_current_page_cached (t : tid) (w : world) (page : Z) :
  page = current_page (data w) ->
  run t (spd5118_set_current_page page) w = Some (0, w).
Proof.
  intros Hpage. unfold spd5118_set_current_page.
  cbn [bind call run exec].
  rewrite <- Hpage, Z.eqb_refl. reflexivity.
Qed.

Lemma set_current_page_fault (t : tid) (w : world) (page : Z) (e : errno) :
  page <> current_page (data w) ->
  pending_fault w = Some e ->
  run t (spd5118_set_current_page page) w =
    Some (fail_status e,
          {| data := data w; device := device w; faults := tl (faults w);
             log := log w ++
               [(t, EvBus (WriteByteData SPD5118_REG_I2C_LEGACY_MODE (u8 page))
                      (fail_status e))] |}).
Proof.
  intros Hpage Hp. apply Z.eqb_neq in Hpage.
  unfold spd5118_set_current_page, i2c_smbus_write_byte_data.
  cbn [bind call run exec].
  rewrite Hpage.
  cbn [bind call run exec].
  rewrite (smbus_xfer_fault t _ w e Hp).
  cbn [fst]. rewrite fail_status_ltb.
  reflexivity.
Qed.

Lemma set_current_page_ok (t : tid) (w : world) (page : Z) :
  page <> current_page (data w) ->
  pending_fault w = None ->
  run t (spd5118_set_current_page page) w =
    Some (0,
          with_page page
            {| data := data w;
               device := chip_write (device w) SPD5118_REG_I2C_LEGACY_MODE (u8 page);
               faults := tl (faults w);
               log := log w ++
                 [(t, EvBus (WriteByteData SPD5118_REG_I2C_LEGACY_MODE (u8 page)) 0)] |}).
Proof.
  intros Hpage Hp. apply Z.eqb_neq in Hpage.
  unfold spd5118_set_current_page, i2c_smbus_write_byte_data.
  cbn [bind call run exec].
  rewrite Hpage.
  cbn [bind call run exec].
  rewrite (smbus_xfer_ok t _ w Hp).
  reflexivity.
Qed.

(** The block read at the end of [spd5118_eeprom_read]. *)
Lemma block_read_run (t : tid) (w : world) (command length : Z) :
  exists r w',
    run t (i2c_smbus_read_i2c_block_data_or_emulated command length) w
      = Some (r, w') /\
    log w' = log w ++
      [(t, EvBus (ReadI2cBlockData (u8 command) (u8 length)) (fst r))] /\
    data w' = data w /\
    device w' = device w /\
    faults w' = tl (faults w) /\
    match pending_fault w with
    | Some e => r = (fail_status e, [])
    | None => r = fst (smbus_success (device w)
                         (ReadI2cBlockData (u8 command) (u8 length)))
    end.
Proof.
  unfold i2c_smbus_read_i2c_block_data_or_emulated.
  cbn [call run exec].
  destruct (pending_fault w) as [e | ] eqn:Hp.
  - rewrite (smbus_xfer_fault t _ w e Hp).
    eexists. eexists. split; [reflexivity | ]. cbn. repeat split.
  - rewrite (smbus_xfer_ok t _ w Hp).
    eexists. eexists. split; [reflexivity | ]. cbn. repeat split.
Qed.

(** C4.  In [spd5118_eeprom_read], when the requested page [offset >> 7] is
    the cached [current_page] no page-select write is issued and the only
    transfer is the data read; otherwise exactly one page-select write comes
    first: if it fails its error is returned, no data read follows and
    [current_page] is unchanged; if it succeeds [current_page] becomes the
    requested page and the data read follows. *)
Theorem spd5118_eeprom_read_page_select
  (t : tid) (w : world) (offset count : Z) :
  let page := s32 (Z.shiftr offset SPD5118_PAGE_SHIFT) in
  let intra := Z.land offset (Z.shiftl 1 SPD5118_PAGE_SHIFT - 1) in
  let select := WriteByteData SPD5118_REG_I2C_LEGACY_MODE (u8 page) in
  let read := ReadI2cBlockData (u8 (SPD5118_EEPROM_BASE + intra))
                (u8 (page_clamp intra count)) in
  (page = current_page (data w) ->
   exists r w',
     run t (spd5118_eeprom_read offset count) w = Some (r, w') /\
     log w' = log w ++ [(t, EvBus read (fst r))] /\
     current_page (data w') = current_page (data w))
  /\
  (page <> current_page (data w) ->
   forall e, pending_fault w = Some e ->
   exists w',
     run t (spd5118_eeprom_read offset count) w = Some ((fail_status e, []), w') /\
     log w' = log w ++ [(t, EvBus select (fail_status e))] /\
     current_page (data w') = current_page (data w))
  /\
  (page <> current_page (data w) ->
   pending_fault w = None ->
   exists r w',
     run t (spd5118_eeprom_read offset count) w = Some (r, w') /\
     log w' = log w ++ [(t, EvBus select 0); (t, EvBus read (fst r))] /\
     current_page (data w') = page).
Proof.
  intros page intra select read.
  unfold spd5118_eeprom_read.
  fold page. fold intra.
  repeat split.
  - intros Hpage.
    rewrite run_bind, (set_current_page_cached t w page Hpage).
    cbn [Z.eqb negb].
    destruct (block_read_run t w (SPD5118_EEPROM_BASE + intra)
                (page_clamp intra count))
      as [r [w' [Hrun [Hlog [Hdata _]]]]].
    exists r, w'. rewrite Hdata. repeat split; assumption.
  - intros Hpage e Hp.
    rewrite run_bind, (set_current_page_fault t w page e Hpage Hp).
    rewrite fail_status_eqb.
    cbn [negb run].
    eexists. split; [reflexivity | ]. split; reflexivity.
  - intros Hpage Hp.
    rewrite run_bind, (set_current_page_ok t w page Hpage Hp).
    cbn [Z.eqb negb].
    match goal with
    | |- context [run t _ ?w1] =>
        destruct (block_read_run t w1 (SPD5118_EEPROM_BASE + intra)
                    (page_clamp intra count))
          as [r [w' [Hrun [Hlog [Hdata _]]]]]
    end.
    exists r, w'. rewrite Hdata.
    split; [exact Hrun | ].
    split; [ | reflexivity].
    rewrite Hlog. cbn [log with_page]. rewrite <- app_assoc. reflexivity.
Qed.

(** The examples of the specification: with page 3 cached a read of page 3
    issues no page-select write; a read of page 5 issues exactly one, before
    the data read. *)
Lemma spd5118_eeprom_read_page_select_witness :
  (exists r w',
     run 0%nat (spd5118_eeprom_read (3 * 128 + 10) 16) world_on_page_3
       = Some (r, w') /\
     log w' = [(0%nat, EvBus (ReadI2cBlockData 138 16) (fst r))] /\
     current_page (data w') = 3)
  /\
  (exists r w',
     run 0%nat (spd5118_eeprom_read (5 * 128) 16) world_on_page_3
       = Some (r, w') /\
     log w' = [(0%nat, EvBus (WriteByteData 11 5) 0);
               (0%nat, EvBus (ReadI2cBlockData 128 16) (fst r))] /\
     current_page (data w') = 5).
Proof.
  split.
  - apply (spd5118_eeprom_read_page_select 0%nat world_on_page_3 (3 * 128 + 10) 16).
    reflexivity.
  - apply (spd5118_eeprom_read_page_select 0%nat world_on_page_3 (5 * 128) 16).
    + discriminate.
    + reflexivity.
Defined.

(** ** Coherence of the cached page

    The hypothesis [coherent] of the bulk read holds after probe and is kept
    by every entry point: the hwmon calls never touch the page selection,
    and the bulk read re-establishes it. *)

Lemma probe_coherent (vendor revision : Z) (c : chip)
  (fl : list (option errno)) (l : list (tid * event)) :
  coherent {| data := probe_data vendor revision; device := c;
              faults := fl; log := l |}.
Proof. left. reflexivity. Qed.

Lemma chip_write_keeps_page (c : chip) (addr value : Z) :
  addr <> SPD5118_REG_I2C_LEGACY_MODE ->
  chip_page (chip_write c addr value) = chip_page c /\
  nvm (chip_write c addr value) = nvm c.
Proof.
  intros Hne. unfold chip_write, chip_page.
  destruct (addr <? SPD5118_EEPROM_BASE); [ | split; reflexivity].
  cbn [mode_regs nvm].
  destruct (Z.eqb_spec SPD5118_REG_I2C_LEGACY_MODE addr) as [Heq | _];
    [congruence | split; reflexivity].
Qed.

Lemma exec_keeps_page (t : tid) {X : Type} (e : action X) (w w' : world)
  (x : X) :
  action_keeps_page e ->
  exec t e w = Some (x, w') ->
  current_page (data w') = current_page (data w) /\
  chip_page (device w') = chip_page (device w) /\
  nvm (device w') = nvm (device w).
Proof.
  intros Hkeep Hexec.
  destruct e; cbn [exec] in Hexec.
  - destruct (update_lock (data w)); [discriminate | ].
    injection Hexec as _ <-. repeat split.
  - injection Hexec as _ <-. repeat split.
  - injection Hexec as _ <-. repeat split.
  - contradiction.
  - injection Hexec as Hexec.
    destruct (pending_fault w) as [err | ] eqn:Hp.
    + rewrite (smbus_xfer_fault t op w err Hp) in Hexec.
      injection Hexec as _ <-. repeat split.
    + rewrite (smbus_xfer_ok t op w Hp) in Hexec.
      injection Hexec as _ <-. cbn [data device].
      destruct op; cbn [smbus_success snd action_keeps_page] in *;
        try (repeat split; fail).
      * destruct (chip_write_keeps_page (device w) command value Hkeep).
        repeat split; assumption.
      * destruct Hkeep as [H1 H2].
        destruct (chip_write_keeps_page
                    (chip_write (device w) command (Z.land value 255))
                    (u8 (command + 1)) (Z.shiftr value 8) H2) as [Hp2 Hn2].
        destruct (chip_write_keeps_page (device w) command
                    (Z.land value 255) H1) as [Hp1 Hn1].
        repeat split; congruence.
  - discriminate Hexec.
Qed.

Lemma run_keeps_page (t : tid) {A : Type} (p : prog A) :
  forall (w w' : world) (a : A),
    keeps_page p ->
    run t p w = Some (a, w') ->
    current_page (data w') = current_page (data w) /\
    chip_page (device w') = chip_page (device w) /\
    nvm (device w') = nvm (device w).
Proof.
  induction p as [a0 | X e k IH]; intros w w' a Hkeep Hrun.
  - injection Hrun as _ <-. repeat split.
  - cbn [run] in Hrun. destruct Hkeep as [He Hk].
    destruct (exec t e w) as [[x w1] | ] eqn:Hexec; [ | discriminate].
    destruct (exec_keeps_page t e w w1 x He Hexec) as [H1 [H2 H3]].
    destruct (IH x w1 w' a (Hk x) Hrun) as [H1' [H2' H3']].
    repeat split; congruence.
Qed.

Lemma spd5118_read_keeps_page (type : hwmon_sensor_types)
  (attr : hwmon_temp_attributes) (channel : Z) :
  keeps_page (spd5118_read type attr channel).
Proof.
  destruct type; try exact I.
  destruct attr; try exact I;
    cbn; repeat split; intros; try exact I;
    match goal with
    | |- keeps_page (if ?b then _ else _) => destruct b; exact I
    end.
Qed.

Lemma spd5118_write_keeps_page (cfg : module_params)
  (type : hwmon_sensor_types) (attr : hwmon_temp_attributes)
  (channel val : Z) :
  keeps_page (spd5118_write cfg type attr channel val).
Proof.
  destruct cfg as [tw aw].
  destruct type; try exact I.
  destruct attr; try exact I;
    unfold spd5118_write, spd5118_write_temp, spd5118_clear_alarm;
    cbn [is_hwmon_temp negb enable_temp_write enable_alarm_write];
    try destruct (negb (val =? 0)); try exact I;
    try destruct tw; try destruct aw; try exact I;
    cbn; repeat split; intros; try exact I; discriminate.
Qed.

(** The hwmon calls keep the cached page coherent with the chip. *)
Lemma hwmon_calls_keep_coherent (cfg : module_params)
  (type : hwmon_sensor_types) (attr : hwmon_temp_attributes)
  (channel val : Z) (t : tid) (w : world) :
  coherent w ->
  (forall r w', run t (spd5118_read type attr channel) w = Some (r, w') ->
                coherent w') /\
  (forall r w', run t (spd5118_write cfg type attr channel val) w = Some (r, w') ->
                coherent w').
Proof.
  intros Hcoh. unfold coherent in *. split; intros r w' Hrun.
  - destruct (run_keeps_page t _ w w' r
                (spd5118_read_keeps_page type attr channel) Hrun)
      as [Hp [Hc _]].
    rewrite Hp, Hc. exact Hcoh.
  - destruct (run_keeps_page t _ w w' r
                (spd5118_write_keeps_page cfg type attr channel val) Hrun)
      as [Hp [Hc _]].
    rewrite Hp, Hc. exact Hcoh.
Qed.

(** ** The bulk EEPROM read *)

Lemma clamped_read_in_window (off count : Z) (op : bus_op) :
  clamped_read off count op ->
  forall command length,
    op = ReadI2cBlockData command length -> in_window command length.
Proof.
  intros Hc command length Hop.
  destruct (Hc command length Hop) as [o [c [_ [_ [_ [-> ->]]]]]].
  unfold in_window, SPD5118_EEPROM_BASE, SPD5118_PAGE_SIZE.
  pose proof (Z.mod_pos_bound o 128 ltac:(lia)) as Hm.
  lia.
Qed.

Lemma flat_read_S (c : chip) (off : Z) (n : nat) :
  flat_read c off (S n) = u8 (nvm c off) :: flat_read c (off + 1) n.
Proof.
  unfold flat_read. cbn [seq map].
  rewrite Z.add_0_r. f_equal.
  rewrite <- seq_shift, map_map.
  apply map_ext. intros i. do 2 f_equal. lia.
Qed.

Lemma flat_read_app (c : chip) (n m : nat) :
  forall off,
    flat_read c off n ++ flat_read c (off + Z.of_nat n) m
    = flat_read c off (n + m).
Proof.
  induction n as [| n IH]; intros off.
  - cbn [Nat.add Z.of_nat]. rewrite Z.add_0_r. reflexivity.
  - cbn [Nat.add]. rewrite !flat_read_S. cbn [app]. f_equal.
    rewrite <- IH. do 2 f_equal. lia.
Qed.

Lemma flat_read_nvm (c c' : chip) (off : Z) (n : nat) :
  nvm c' = nvm c -> flat_read c' off n = flat_read c off n.
Proof. intros Hn. unfold flat_read. rewrite Hn. reflexivity. Qed.

(** The C arithmetic of [spd5118_eeprom_read] on an offset inside the
    EEPROM. *)
Lemma eeprom_offset_arith (off count : Z) :
  0 <= off -> 0 < count -> off + count <= SPD5118_EEPROM_SIZE ->
  u32 off = off /\
  s32 (Z.shiftr off SPD5118_PAGE_SHIFT) = off / 128 /\
  Z.land off (Z.shiftl 1 SPD5118_PAGE_SHIFT - 1) = off mod 128 /\
  0 <= off / 128 < 8 /\
  0 <= off mod 128 < 128 /\
  page_clamp (off mod 128) count = Z.min count (128 - off mod 128).
Proof.
  unfold SPD5118_EEPROM_SIZE, SPD5118_PAGE_SIZE, SPD5118_NUM_PAGES,
    SPD5118_PAGE_SHIFT.
  intros Hoff Hcount Hend.
  pose proof (Z.mod_pos_bound off 128 ltac:(lia)) as Hm.
  assert (Hd : 0 <= off / 128 < 8).
  { split; [apply Z.div_pos; lia | apply Z.div_lt_upper_bound; lia]. }
  repeat split; try lia.
  - unfold u32. apply Z.mod_small. lia.
  - rewrite Z.shiftr_div_pow2 by lia. change (2 ^ 7) with 128.
    apply s32_small. lia.
  - change (Z.shiftl 1 7 - 1) with (Z.ones 7).
    rewrite Z.land_ones by lia. reflexivity.
  - unfold page_clamp, SPD5118_PAGE_SIZE, u64, u32.
    rewrite (Z.mod_small (off mod 128 + count)) by lia.
    rewrite (Z.mod_small (128 - off mod 128)) by lia.
    destruct (Z.ltb_spec 128 (off mod 128 + count)); lia.
Qed.

(** What a successful block read inside the window returns. *)
Lemma block_read_window (c : chip) (off len : Z) :
  0 <= off -> 0 < len <= 128 - off mod 128 ->
  chip_page c = off / 128 ->
  fst (smbus_success c (ReadI2cBlockData (128 + off mod 128) len))
  = (Z.min len 32, flat_read c off (Z.to_nat (Z.min len 32))).
Proof.
  intros Hoff Hlen Hpage.
  pose proof (Z.mod_pos_bound off 128 ltac:(lia)) as Hm.
  cbn [smbus_success fst]. unfold I2C_SMBUS_BLOCK_MAX.
  f_equal. unfold flat_read.
  apply map_ext_in. intros i Hi. apply in_seq in Hi.
  assert (Hi' : 0 <= Z.of_nat i < Z.min len 32) by lia.
  rewrite u8_small by lia.
  unfold chip_read, SPD5118_EEPROM_BASE, SPD5118_PAGE_SIZE.
  destruct (Z.ltb_spec (128 + off mod 128 + Z.of_nat i) 128); [lia | ].
  rewrite Hpage. do 2 f_equal.
  pose proof (Z.div_mod off 128 ltac:(lia)). lia.
Qed.

Lemma chip_page_after_select (c : chip) (page : Z) :
  0 <= page < 8 ->
  chip_page (chip_write c SPD5118_REG_I2C_LEGACY_MODE (u8 page)) = page /\
  nvm (chip_write c SPD5118_REG_I2C_LEGACY_MODE (u8 page)) = nvm c.
Proof.
  intros Hp. split; [ | reflexivity].
  rewrite (u8_small page) by lia.
  unfold chip_page, chip_write.
  change (SPD5118_REG_I2C_LEGACY_MODE <? SPD5118_EEPROM_BASE) with true.
  cbn [mode_regs]. rewrite Z.eqb_refl.
  rewrite (u8_small page) by lia.
  change 7 with (Z.ones 3). rewrite Z.land_ones by lia.
  apply Z.mod_small. lia.
Qed.

Lemma read_txn_select (t : tid) (off count ret page status : Z) :
  (status < 0 -> ret = status) ->
  read_txn t off count ret
    (t, EvBus (WriteByteData SPD5118_REG_I2C_LEGACY_MODE page) status).
Proof.
  intros Hst. eexists. eexists. split; [reflexivity | ].
  split; [exact Hst | ].
  intros command length Hop. discriminate Hop.
Qed.

Lemma read_txn_block (t : tid) (off count ret status : Z) :
  0 < count ->
  (status < 0 -> ret = status) ->
  read_txn t off count ret
    (t, EvBus (ReadI2cBlockData (128 + off mod 128)
                 (Z.min count (128 - off mod 128))) status).
Proof.
  intros Hcount Hst. eexists. eexists. split; [reflexivity | ].
  split; [exact Hst | ].
  intros command length [= <- <-].
  exists off, count. unfold SPD5118_EEPROM_BASE, SPD5118_PAGE_SIZE.
  repeat split; lia.
Qed.

(** A transfer of a sub-request, or a successful one, is a transfer of the
    whole request whatever the final status. *)
Lemma read_txn_sub (t : tid) (off count off' count' ret ret' : Z)
  (ev : tid * event) :
  off <= off' -> off' + count' = off + count ->
  (0 <= ret' \/ ret = ret') ->
  read_txn t off' count' ret' ev -> read_txn t off count ret ev.
Proof.
  intros Ho Hend Hret [op [status [-> [Hst Hclamp]]]].
  exists op, status. split; [reflexivity | ].
  split.
  - intros Hneg. specialize (Hst Hneg). destruct Hret as [Hpos | ->]; lia.
  - intros command length Hop.
    destruct (Hclamp command length Hop) as [o [c [H1 [H2 [H3 [H4 H5]]]]]].
    exists o, c. repeat split; try assumption; lia.
Qed.

Lemma coherent_same (w w' : world) :
  data w' = data w -> device w' = device w -> coherent w -> coherent w'.
Proof. unfold coherent. intros -> ->. trivial. Qed.

(** One call of [spd5118_eeprom_read] inside the EEPROM, from a coherent
    world: it fails with a transport error, or transfers the bytes of the
    flat memory at [off], as many as the page and the block limit allow. *)
Lemma spd5118_eeprom_read_step (t : tid) (w : world) (off count : Z) :
  0 <= off -> 0 < count -> off + count <= SPD5118_EEPROM_SIZE ->
  coherent w ->
  exists r w' l,
    run t (spd5118_eeprom_read (u32 off) count) w = Some (r, w') /\
    log w' = log w ++ l /\
    update_lock (data w') = update_lock (data w) /\
    coherent w' /\
    nvm (device w') = nvm (device w) /\
    Forall (read_txn t off count (fst r)) l /\
    ((- MAX_ERRNO <= fst r < 0 /\ snd r = [] /\
      Exists (fun ev => bus_status ev = Some (fst r)) l)
     \/
     (fst r = Z.min (Z.min count (128 - off mod 128)) 32 /\
      snd r = flat_read (device w) off (Z.to_nat (fst r)))).
Proof.
  intros Hoff Hcount Hend Hcoh.
  destruct (eeprom_offset_arith off count Hoff Hcount Hend)
    as [Hu32 [Hpage [Hintra [Hprange [Hirange Hclamp]]]]].
  rewrite Hu32. unfold spd5118_eeprom_read.
  rewrite Hpage, Hintra, Hclamp.
  assert (Hcmd : u8 (SPD5118_EEPROM_BASE + off mod 128) = 128 + off mod 128).
  { unfold SPD5118_EEPROM_BASE. apply u8_small. lia. }
  assert (Hlen : u8 (Z.min count (128 - off mod 128))
                 = Z.min count (128 - off mod 128)).
  { apply u8_small. lia. }
  rewrite run_bind.
  destruct (Z.eq_dec (off / 128) (current_page (data w))) as [Hcached | Hother].
  - (* the page is cached: the chip has it selected *)
    assert (Hchip : chip_page (device w) = off / 128).
    { destruct Hcoh as [Hunknown | Hsame]; lia. }
    rewrite (set_current_page_cached t w _ Hcached).
    cbn [Z.eqb negb].
    destruct (block_read_run t w (SPD5118_EEPROM_BASE + off mod 128)
                (Z.min count (128 - off mod 128)))
      as [r [w' [Hrun [Hlog [Hdata [Hdev [_ Hr]]]]]]].
    rewrite Hcmd, Hlen in Hlog, Hr.
    exists r, w'. eexists. split; [exact Hrun | ].
    split; [exact Hlog | ].
    split; [rewrite Hdata; reflexivity | ].
    split; [exact (coherent_same w w' Hdata Hdev Hcoh) | ].
    split; [rewrite Hdev; reflexivity | ].
    destruct (pending_fault w) as [e | ].
    + subst r. cbn [fst snd]. pose proof (fail_status_range e) as He.
      split.
      * constructor; [ | constructor].
        apply read_txn_block; [exact Hcount | intros _; reflexivity].
      * left. repeat split; try lia.
        apply Exists_cons_hd. reflexivity.
    + rewrite block_read_window in Hr by (try assumption; lia).
      subst r. cbn [fst snd].
      split.
      * constructor; [ | constructor].
        apply read_txn_block; [exact Hcount | lia].
      * right. split; reflexivity.
  - (* another page: select it first *)
    destruct (pending_fault w) as [e | ] eqn:Hp.
    + rewrite (set_current_page_fault t w _ e Hother Hp).
      rewrite fail_status_eqb. cbn [negb run].
      pose proof (fail_status_range e) as He.
      eexists. eexists. eexists. split; [reflexivity | ].
      cbn [log data device fst snd].
      split; [reflexivity | ].
      split; [reflexivity | ]. split; [exact Hcoh | ]. split; [reflexivity | ].
      split.
      * constructor; [ | constructor].
        apply read_txn_select. intros _; reflexivity.
      * left. repeat split; try lia.
        apply Exists_cons_hd. reflexivity.
    + rewrite (set_current_page_ok t w _ Hother Hp).
      cbn [Z.eqb negb].
      destruct (chip_page_after_select (device w) (off / 128) Hprange)
        as [Hsel Hnvm].
      match goal with
      | |- context [run t _ ?w1] =>
          destruct (block_read_run t w1 (SPD5118_EEPROM_BASE + off mod 128)
                      (Z.min count (128 - off mod 128)))
            as [r [w' [Hrun [Hlog [Hdata [Hdev [_ Hr]]]]]]];
          set (w2 := w1) in *
      end.
      rewrite Hcmd, Hlen in Hlog, Hr.
      exists r, w'. eexists. split; [exact Hrun | ].
      split.
      { rewrite Hlog. cbn [w2 log with_page]. rewrite <- app_assoc.
        reflexivity. }
      split; [rewrite Hdata; reflexivity | ].
      split.
      { unfold coherent. rewrite Hdata, Hdev. right.
        cbn [w2 with_page current_page data device]. symmetry. exact Hsel. }
      split; [rewrite Hdev; exact Hnvm | ].
      cbn [w2 with_page device] in Hr.
      destruct (pending_fault w2) as [e | ].
      * subst r. cbn [fst snd]. pose proof (fail_status_range e) as He.
        split.
        -- constructor; [ | constructor; [ | constructor]].
           ++ apply read_txn_select. lia.
           ++ apply read_txn_block; [exact Hcount | intros _; reflexivity].
        -- left. repeat split; try lia.
           apply Exists_cons_tl, Exists_cons_hd. reflexivity.
      * rewrite block_read_window in Hr by (try assumption; lia).
        subst r. cbn [fst snd].
        split.
        -- constructor; [ | constructor; [ | constructor]].
           ++ apply read_txn_select. lia.
           ++ apply read_txn_block; [exact Hcount | lia].
        -- right. split; [reflexivity | ].
           apply flat_read_nvm. exact Hnvm.
Qed.

(** The [while (count)] loop, given fuel for one iteration per byte. *)
Lemma eeprom_read_loop_spec (t : tid) (fuel : nat) :
  forall (w : world) (buf : list Z) (off count ret0 : Z),
    0 <= off -> 0 <= count -> off + count <= SPD5118_EEPROM_SIZE ->
    (Z.to_nat count <= fuel)%nat ->
    coherent w -> 0 <= ret0 ->
    exists ret out w' l,
      run t (eeprom_read_loop fuel buf off count ret0) w
        = Some ((ret, out), w') /\
      log w' = log w ++ l /\
      update_lock (data w') = update_lock (data w) /\
      coherent w' /\
      nvm (device w') = nvm (device w) /\
      Forall (read_txn t off count ret) l /\
      ((ret < 0 /\ Exists (fun ev => bus_status ev = Some ret) l)
       \/
       (0 <= ret /\ out = buf ++ flat_read (device w) off (Z.to_nat count))).
Proof.
  induction fuel as [| fuel IH];
    intros w buf off count ret0 Hoff Hcount Hend Hfuel Hcoh Hret0.
  - assert (count = 0) by lia. subst count.
    cbn [eeprom_read_loop Z.eqb run].
    exists ret0, buf, w, []. rewrite !app_nil_r.
    split; [reflexivity | ]. split; [reflexivity | ].
    split; [reflexivity | ]. split; [exact Hcoh | ].
    split; [reflexivity | ]. split; [constructor | ].
    right. split; [exact Hret0 | reflexivity].
  - cbn [eeprom_read_loop].
    destruct (Z.eqb_spec count 0) as [-> | Hnz].
    + cbn [run]. exists ret0, buf, w, []. rewrite !app_nil_r.
      split; [reflexivity | ]. split; [reflexivity | ].
      split; [reflexivity | ]. split; [exact Hcoh | ].
      split; [reflexivity | ]. split; [constructor | ].
      right. split; [exact Hret0 | reflexivity].
    + assert (Hpos : 0 < count) by lia.
      destruct (spd5118_eeprom_read_step t w off count Hoff Hpos Hend Hcoh)
        as [r [w1 [l1 [Hrun1 [Hlog1 [Hlock1 [Hcoh1 [Hnvm1 [Htx1 Hres1]]]]]]]]].
      rewrite run_bind, Hrun1.
      assert (Hs32 : s32 (fst r) = fst r).
      { apply s32_small. unfold MAX_ERRNO in Hres1.
        pose proof (Z.mod_pos_bound off 128 ltac:(lia)) as Hm.
        destruct Hres1 as [[Hr _] | [Hr _]]; lia. }
      rewrite Hs32.
      destruct Hres1 as [[Hneg [Hnil Hex]] | [Hn Hbytes]].
      * destruct (Z.ltb_spec (fst r) 0) as [_ | Hge]; [ | lia].
        cbn [run]. exists (fst r), (buf ++ snd r), w1, l1.
        split; [reflexivity | ]. split; [exact Hlog1 | ].
        split; [exact Hlock1 | ]. split; [exact Hcoh1 | ].
        split; [exact Hnvm1 | ]. split; [exact Htx1 | ].
        left. split; [lia | exact Hex].
      * pose proof (Z.mod_pos_bound off 128 ltac:(lia)) as Hm.
        destruct (Z.ltb_spec (fst r) 0) as [Hlt | Hge]; [lia | ].
        assert (Hn1 : 1 <= fst r <= count) by lia.
        assert (Hu64 : u64 (count - fst r) = count - fst r).
        { unfold u64. apply Z.mod_small.
          unfold SPD5118_EEPROM_SIZE, SPD5118_PAGE_SIZE, SPD5118_NUM_PAGES in Hend.
          lia. }
        rewrite Hu64.
        destruct (IH w1 (buf ++ snd r) (off + fst r) (count - fst r) (fst r))
          as [ret [out [w' [l2 [Hrun2 [Hlog2 [Hlock2 [Hcoh2 [Hnvm2 [Htx2 Hres2]]]]]]]]]];
          try lia; try assumption.
        exists ret, out, w', (l1 ++ l2).
        split; [exact Hrun2 | ].
        split; [rewrite Hlog2, Hlog1, app_assoc; reflexivity | ].
        split; [congruence | ].
        split; [exact Hcoh2 | ].
        split; [congruence | ].
        split.
        -- apply Forall_app. split.
           ++ eapply Forall_impl; [ | exact Htx1].
              intros ev Hev.
              apply (read_txn_sub t off count off count ret (fst r));
                try lia; try assumption.
           ++ eapply Forall_impl; [ | exact Htx2].
              intros ev Hev.
              apply (read_txn_sub t off count (off + fst r) (count - fst r) ret ret);
                try lia; try assumption.
        -- destruct Hres2 as [[Hneg Hex] | [Hok Hout]].
           ++ left. split; [exact Hneg | ].
              apply Exists_app. right. exact Hex.
           ++ right. split; [exact Hok | ].
              rewrite Hout, Hbytes, <- app_assoc. f_equal.
              rewrite (flat_read_nvm (device w) (device w1)) by exact Hnvm1.
              replace (off + fst r) with (off + Z.of_nat (Z.to_nat (fst r)))
                by (rewrite Z2Nat.id; lia).
              rewrite flat_read_app. f_equal. lia.
Qed.

(** C3.  A bulk read of [count] bytes at [off], inside the 1024-byte EEPROM,
    from a coherent world with the mutex free and fuel for one iteration per
    byte, returns.  Every transfer it logs lies between taking and releasing
    the mutex; every block read is the remaining request cut at the end of
    its page, so it stays inside the 128-byte window; the status of a failed
    transfer is the result of the whole call.  The result is either [count],
    with [buf] equal to the flat memory at [off .. off + count), or the
    negative status of a failed transfer. *)
Theorem eeprom_read_correct (t : tid) (w : world) (fuel : nat) (off count : Z) :
  0 <= off -> 0 <= count -> off + count <= SPD5118_EEPROM_SIZE ->
  (Z.to_nat count <= fuel)%nat ->
  update_lock (data w) = None ->
  coherent w ->
  exists ret buf w' l,
    run t (eeprom_read fuel off count) w = Some ((ret, buf), w') /\
    log w' = log w ++ (t, EvLock) :: l ++ [(t, EvUnlock)] /\
    Forall (read_txn t off count ret) l /\
    (forall i command length status,
       In (i, EvBus (ReadI2cBlockData command length) status) l ->
       in_window command length) /\
    ((ret = count /\
      buf = flat_read (device w) off (Z.to_nat count) /\
      Forall (fun ev => forall st, bus_status ev = Some st -> 0 <= st) l)
     \/
     (ret < 0 /\ Exists (fun ev => bus_status ev = Some ret) l)) /\
    update_lock (data w') = None /\
    coherent w'.
Proof.
  intros Hoff Hcount Hend Hfuel Hfree Hcoh.
  unfold eeprom_read.
  cbn [bind mutex_lock call run exec]. rewrite Hfree.
  set (w0 := with_lock (Some t) (t, EvLock) w).
  assert (Hcoh0 : coherent w0) by exact Hcoh.
  destruct (eeprom_read_loop_spec t fuel w0 [] off count 0
              Hoff Hcount Hend Hfuel Hcoh0 (Z.le_refl 0))
    as [ret [out [w1 [l [Hrun [Hlog [Hlock [Hcoh1 [Hnvm [Htx Hres]]]]]]]]]].
  fold (@bind (Z * list Z) (Z * list Z)).
  rewrite run_bind, Hrun.
  cbn [bind mutex_unlock call run exec fst snd].
  exists (if ret <? 0 then ret else count), out. eexists. exists l.
  split; [reflexivity | ].
  split.
  { cbn [log with_lock]. rewrite Hlog. cbn [w0 log with_lock].
    rewrite <- !app_assoc. reflexivity. }
  assert (Hret : (if ret <? 0 then ret else count) = ret \/
                 (0 <= ret /\ (if ret <? 0 then ret else count) = count)).
  { destruct (Z.ltb_spec ret 0); [left; reflexivity | right; split; [lia | reflexivity]]. }
  assert (Htx' : Forall (read_txn t off count (if ret <? 0 then ret else count)) l).
  { eapply Forall_impl; [ | exact Htx]. intros ev Hev.
    apply (read_txn_sub t off count off count _ ret);
      [lia | reflexivity | | exact Hev].
    destruct Hret as [-> | [Hpos _]]; [right; reflexivity | left; exact Hpos]. }
  split; [exact Htx' | ].
  split.
  { intros i command length status Hin.
    rewrite Forall_forall in Htx.
    destruct (Htx _ Hin) as [op [st [Heq [_ Hclamp]]]].
    injection Heq as _ <- _.
    exact (clamped_read_in_window off count _ Hclamp command length eq_refl). }
  split.
  { destruct Hres as [[Hneg Hex] | [Hok Hout]].
    - right. destruct (Z.ltb_spec ret 0); [ | lia]. split; assumption.
    - left. destruct (Z.ltb_spec ret 0); [lia | ].
      split; [reflexivity | ]. split; [exact Hout | ].
      eapply Forall_impl; [ | exact Htx].
      intros ev [op [st [-> [Hst _]]]] st' [= <-]. lia. }
  split; [reflexivity | ].
  exact Hcoh1.
Qed.

Lemma eeprom_read_correct_witness :
  exists ret buf w' l,
    run 0%nat (eeprom_read 50 120 50) (sample_world []) = Some ((ret, buf), w') /\
    log w' = log (sample_world []) ++ (0%nat, EvLock) :: l ++ [(0%nat, EvUnlock)] /\
    Forall (read_txn 0%nat 120 50 ret) l /\
    (forall i command length status,
       In (i, EvBus (ReadI2cBlockData command length) status) l ->
       in_window command length) /\
    ((ret = 50 /\
      buf = flat_read (device (sample_world [])) 120 (Z.to_nat 50) /\
      Forall (fun ev => forall st, bus_status ev = Some st -> 0 <= st) l)
     \/
     (ret < 0 /\ Exists (fun ev => bus_status ev = Some ret) l)) /\
    update_lock (data w') = None /\
    coherent w'.
Proof.
  apply (eeprom_read_correct 0%nat (sample_world []) 50 120 50).
  - lia.
  - lia.
  - unfold SPD5118_EEPROM_SIZE, SPD5118_PAGE_SIZE, SPD5118_NUM_PAGES. lia.
  - vm_compute. lia.
  - reflexivity.
  - left. reflexivity.
Defined.

(** ** The mutex *)

(** *** Every entry point is well locked *)

Lemma critical_bind {A B : Type} (p : prog A) (f : A -> prog B) :
  guarded_only p -> (forall a, critical (f a)) -> critical (bind p f).
Proof.
  intros Hp Hf.
  induction p as [a | X e k IH]; cbn [bind].
  - apply Hf.
  - cbn [guarded_only] in Hp. cbn [critical].
    destruct (kind_of e); try contradiction.
    + intros x. apply IH, Hp.
    + exact I.
Qed.

Lemma guarded_only_bind {A B : Type} (p : prog A) (f : A -> prog B) :
  guarded_only p -> (forall a, guarded_only (f a)) -> guarded_only (bind p f).
Proof.
  intros Hp Hf.
  induction p as [a | X e k IH]; cbn [bind].
  - apply Hf.
  - cbn [guarded_only] in *.
    destruct (kind_of e); try contradiction.
    + intros x. apply IH, Hp.
    + exact I.
Qed.

Lemma set_current_page_guarded (page : Z) :
  guarded_only (spd5118_set_current_page page).
Proof.
  unfold spd5118_set_current_page, i2c_smbus_write_byte_data.
  cbn. intros current.
  destruct (page =? current); cbn; [exact I | ].
  intros r. destruct (fst r <? 0); cbn; [exact I | intros _; exact I].
Qed.

Lemma spd5118_eeprom_read_guarded (offset count : Z) :
  guarded_only (spd5118_eeprom_read offset count).
Proof.
  unfold spd5118_eeprom_read.
  apply guarded_only_bind; [apply set_current_page_guarded | ].
  intros status. destruct (negb (status =? 0)); cbn; [exact I | ].
  intros _. exact I.
Qed.

Lemma eeprom_read_loop_guarded (fuel : nat) :
  forall buf off count ret,
    guarded_only (eeprom_read_loop fuel buf off count ret).
Proof.
  induction fuel as [| fuel IH]; intros buf off count ret;
    cbn [eeprom_read_loop]; destruct (count =? 0); try exact I.
  apply guarded_only_bind; [apply spd5118_eeprom_read_guarded | ].
  intros r. destruct (s32 (fst r) <? 0); [exact I | apply IH].
Qed.

Lemma eeprom_read_well_locked (fuel : nat) (off count : Z) :
  well_locked (eeprom_read fuel off count).
Proof.
  unfold eeprom_read. cbn [bind mutex_lock call well_locked kind_of].
  intros _.
  apply critical_bind; [apply eeprom_read_loop_guarded | ].
  intros r. cbn. intros _. exact I.
Qed.

Lemma spd5118_read_temp_well_locked (attr : hwmon_temp_attributes) :
  well_locked (spd5118_read_temp attr).
Proof.
  unfold spd5118_read_temp.
  destruct (temp_reg_readable attr) as [reg | ]; [ | exact I].
  cbn. intros _ r _. destruct (fst r <? 0); exact I.
Qed.

Lemma spd5118_read_alarm_well_locked (attr : hwmon_temp_attributes) :
  well_locked (spd5118_read_alarm attr).
Proof.
  unfold spd5118_read_alarm.
  destruct (alarm_status_mask attr) as [mask | ]; [ | exact I].
  cbn. intros _ r _. destruct (fst r <? 0); exact I.
Qed.

Lemma spd5118_write_temp_well_locked (cfg : module_params)
  (attr : hwmon_temp_attributes) (val : Z) :
  well_locked (spd5118_write_temp cfg attr val).
Proof.
  unfold spd5118_write_temp.
  destruct (negb (enable_temp_write cfg)); [exact I | ].
  destruct (temp_reg_writable attr) as [reg | ]; [ | exact I].
  cbn. intros _ r _. exact I.
Qed.

Lemma spd5118_clear_alarm_well_locked (cfg : module_params)
  (attr : hwmon_temp_attributes) :
  well_locked (spd5118_clear_alarm cfg attr).
Proof.
  unfold spd5118_clear_alarm.
  destruct (negb (enable_alarm_write cfg)); [exact I | ].
  destruct (alarm_clear_bit attr) as [regval | ]; [ | exact I].
  cbn. intros _ r _. exact I.
Qed.

Lemma spd5118_read_well_locked (type : hwmon_sensor_types)
  (attr : hwmon_temp_attributes) (channel : Z) :
  well_locked (spd5118_read type attr channel).
Proof.
  unfold spd5118_read.
  destruct (negb (is_hwmon_temp type)); [exact I | ].
  destruct attr;
    first [ exact I
          | apply spd5118_read_temp_well_locked
          | apply spd5118_read_alarm_well_locked ].
Qed.

Lemma spd5118_write_well_locked (cfg : module_params)
  (type : hwmon_sensor_types) (attr : hwmon_temp_attributes)
  (channel val : Z) :
  well_locked (spd5118_write cfg type attr channel val).
Proof.
  unfold spd5118_write.
  destruct (negb (is_hwmon_temp type)); [exact I | ].
  destruct attr;
    first [ exact I
          | apply spd5118_write_temp_well_locked
          | destruct (negb (val =? 0));
            [exact I | apply spd5118_clear_alarm_well_locked] ].
Qed.

Lemma entry_thread_well_locked (cfg : module_params) (e : entry) :
  thread_well_locked (entry_thread cfg e).
Proof.
  destruct e as [type attr channel | type attr channel val | fuel off count];
    cbn [entry_thread thread_well_locked].
  - apply spd5118_read_well_locked.
  - apply spd5118_write_well_locked.
  - apply eeprom_read_well_locked.
Qed.

(** *** Logs *)

Lemma holder_after_app (l l' : list (tid * event)) :
  forall h,
    holder_after h (l ++ l') =
    match holder_after h l with
    | Some h' => holder_after h' l'
    | None => None
    end.
Proof.
  induction l as [| [i ev] l IH]; intros h; [reflexivity | ].
  cbn [app holder_after].
  destruct ev, h as [o | ]; try reflexivity; try apply IH;
    destruct (Nat.eqb i o); try reflexivity; apply IH.
Qed.

(** In a log that is entries of others followed by entries of [i], what
    follows an entry of [i] is by [i]. *)
Lemma after_own_entry (i : tid) (pre : list (tid * event)) :
  forall l1 l2 suf a,
    l1 ++ a :: l2 = pre ++ suf ->
    fst a = i ->
    Forall (fun ev => fst ev <> i) pre ->
    Forall (fun ev => fst ev = i) suf ->
    Forall (fun ev => fst ev = i) l2.
Proof.
  induction pre as [| p pre IH]; intros l1 l2 suf a Heq Ha Hpre Hsuf.
  - cbn [app] in Heq. rewrite <- Heq in Hsuf.
    apply Forall_app in Hsuf. destruct Hsuf as [_ Hsuf].
    inversion Hsuf; assumption.
  - inversion Hpre as [| p' pre' Hp Hpre']; subst.
    destruct l1 as [| b l1]; cbn [app] in Heq.
    + injection Heq as -> _. contradiction.
    + injection Heq as _ Heq. exact (IH l1 l2 suf a Heq eq_refl Hpre' Hsuf).
Qed.

Lemma contiguous_nil (i : tid) : contiguous i [].
Proof.
  intros l1 l2 l3 e1 e2 Heq. destruct l1; discriminate Heq.
Qed.

(** Appending an entry of [i] keeps every thread's entries contiguous when
    the log ends with all the entries [i] has made so far. *)
Lemma contiguous_snoc (i j : tid) (e : event) (l pre suf : list (tid * event)) :
  contiguous j l ->
  l = pre ++ suf ->
  Forall (fun ev => fst ev <> i) pre ->
  Forall (fun ev => fst ev = i) suf ->
  contiguous j (l ++ [(i, e)]).
Proof.
  intros Hl Hsplit Hpre Hsuf l1 l2 l3 e1 e2 Heq.
  destruct l3 as [| y l3] using rev_ind.
  - replace (l1 ++ (j, e1) :: l2 ++ [(j, e2)])
      with ((l1 ++ (j, e1) :: l2) ++ [(j, e2)]) in Heq
      by (rewrite <- app_assoc; reflexivity).
    apply app_inj_tail in Heq. destruct Heq as [Hl' Hlast].
    injection Hlast as Hij _. subst j.
    rewrite Hsplit in Hl'. symmetry in Hl'.
    exact (after_own_entry i pre l1 l2 suf (i, e1) Hl' eq_refl Hpre Hsuf).
  - clear IHl3.
    replace (l1 ++ (j, e1) :: l2 ++ (j, e2) :: l3 ++ [y])
      with ((l1 ++ (j, e1) :: l2 ++ (j, e2) :: l3) ++ [y]) in Heq.
    + apply app_inj_tail in Heq. destruct Heq as [Hl' _].
      exact (Hl l1 l2 l3 e1 e2 Hl').
    + rewrite <- app_assoc. cbn [app]. f_equal. f_equal.
      rewrite <- app_assoc. reflexivity.
Qed.

Lemma pool_set_same (ts : pool) (i : tid) (th : thread) :
  pool_set ts i th i = th.
Proof. unfold pool_set. rewrite Nat.eqb_refl. reflexivity. Qed.

Lemma pool_set_other (ts : pool) (i j : tid) (th : thread) :
  j <> i -> pool_set ts i th j = ts j.
Proof.
  intros Hne. unfold pool_set.
  destruct (Nat.eqb_spec j i); [contradiction | reflexivity].
Qed.

Lemma smbus_xfer_log (t : tid) (op : bus_op) (w : world) :
  data (snd (smbus_xfer t op w)) = data w /\
  log (snd (smbus_xfer t op w)) =
    log w ++ [(t, EvBus op (fst (fst (smbus_xfer t op w))))].
Proof.
  unfold smbus_xfer.
  destruct (faults w) as [| [e | ] rest];
    try destruct (smbus_success (device w) op) as [r c];
    split; reflexivity.
Qed.

(** *** The invariant is kept by every step *)

(** The holder performs a guarded action that logs nothing. *)
Lemma invariant_holder_silent (ts : pool) (w w' : world) (i : tid)
  (th : thread) :
  lock_invariant (ts, w) ->
  update_lock (data w) = Some i ->
  update_lock (data w') = update_lock (data w) ->
  log w' = log w ->
  thread_critical th ->
  lock_invariant (pool_set ts i th, w').
Proof.
  unfold lock_invariant. cbn [fst snd].
  intros [Hlog [Hcont [Hholder [Hothers Hfresh]]]] Hh Hlock Hsame Hth.
  rewrite Hlock, Hsame.
  split; [exact Hlog | ]. split; [exact Hcont | ].
  split; [ | split].
  - intros o Ho. rewrite Hh in Ho. injection Ho as <-.
    rewrite pool_set_same. split; [exact Hth | ].
    exact (proj2 (Hholder i Hh)).
  - intros j Hj. rewrite pool_set_other by congruence. apply Hothers, Hj.
  - intros j Hj. rewrite pool_set_other by congruence. apply Hfresh, Hj.
Qed.

(** The holder performs a bus transfer. *)
Lemma invariant_holder_transfer (ts : pool) (w w' : world) (i : tid)
  (th : thread) (op : bus_op) (status : Z) :
  lock_invariant (ts, w) ->
  update_lock (data w) = Some i ->
  update_lock (data w') = update_lock (data w) ->
  log w' = log w ++ [(i, EvBus op status)] ->
  thread_critical th ->
  lock_invariant (pool_set ts i th, w').
Proof.
  unfold lock_invariant. cbn [fst snd].
  intros [Hlog [Hcont [Hholder [Hothers Hfresh]]]] Hh Hlock Hnew Hth.
  destruct (Hholder i Hh) as [_ [pre [suf [Hsplit [Hpre Hsuf]]]]].
  rewrite Hlock, Hnew.
  split; [ | split; [ | split; [ | split]]].
  - rewrite holder_after_app, Hlog, Hh. cbn [holder_after].
    rewrite Nat.eqb_refl. reflexivity.
  - intros j. exact (contiguous_snoc i j _ _ pre suf (Hcont j) Hsplit Hpre Hsuf).
  - intros o Ho. rewrite Hh in Ho. injection Ho as <-.
    rewrite pool_set_same. split; [exact Hth | ].
    exists pre, (suf ++ [(i, EvBus op status)]).
    split; [rewrite Hsplit, app_assoc; reflexivity | ].
    split; [exact Hpre | ].
    apply Forall_app. split; [exact Hsuf | ].
    constructor; [reflexivity | constructor].
  - intros j Hj. rewrite pool_set_other by congruence. apply Hothers, Hj.
  - intros j Hj. rewrite pool_set_other by congruence. intros Hwait.
    apply Forall_app. split; [exact (Hfresh j Hj Hwait) | ].
    constructor; [ | constructor]. cbn [fst]. congruence.
Qed.

Lemma released_well_locked {A : Type} (p : prog A) :
  released p -> well_locked p.
Proof. destruct p; [intros _; exact I | intros []]. Qed.

Lemma released_not_waiting {A : Type} (p : prog A) :
  released p -> ~ waiting (Thread p).
Proof. destruct p; [intros _ [] | intros []]. Qed.

Lemma step_invariant (c c' : pool * world) :
  lock_invariant c -> step c c' -> lock_invariant c'.
Proof.
  intros Hinv Hstep.
  destruct Hstep as [ts w w' i A X e k x Hth Hexec].
  pose proof Hinv as Hinv0.
  unfold lock_invariant in Hinv. cbn [fst snd] in Hinv.
  destruct Hinv as [Hlog [Hcont [Hholder [Hothers Hfresh]]]].
  (* a thread that does not hold the mutex can only take it *)
  assert (Hmine : kind_of e <> KLock -> update_lock (data w) = Some i).
  { intros Hkind.
    destruct (update_lock (data w)) as [o | ] eqn:Hh.
    - destruct (Nat.eq_dec o i) as [-> | Hne]; [reflexivity | ].
      assert (Hwl : thread_well_locked (ts i)) by (apply Hothers; congruence).
      rewrite Hth in Hwl. cbn [thread_well_locked well_locked] in Hwl.
      destruct (kind_of e); contradiction || congruence.
    - assert (Hwl : thread_well_locked (ts i)) by (apply Hothers; congruence).
      rewrite Hth in Hwl. cbn [thread_well_locked well_locked] in Hwl.
      destruct (kind_of e); contradiction || congruence. }
  assert (Hcrit : update_lock (data w) = Some i -> critical (Vis e k)).
  { intros Hh. pose proof (proj1 (Hholder i Hh)) as Hc.
    rewrite Hth in Hc. exact Hc. }
  destruct e; cbn [exec] in Hexec.
  - (* mutex_lock *)
    destruct (update_lock (data w)) as [o | ] eqn:Hh; [discriminate | ].
    injection Hexec as <- <-.
    assert (Hwl : thread_well_locked (ts i)) by (apply Hothers; congruence).
    rewrite Hth in Hwl. cbn [thread_well_locked well_locked kind_of] in Hwl.
    assert (Hnone : Forall (fun ev => fst ev <> i) (log w)).
    { apply Hfresh; [congruence | ]. rewrite Hth. reflexivity. }
    unfold lock_invariant. cbn [fst snd with_lock data log update_lock].
    split; [ | split; [ | split; [ | split]]].
    + rewrite holder_after_app, Hlog. reflexivity.
    + intros j.
      apply (contiguous_snoc i j _ _ (log w) []);
        [apply Hcont | symmetry; apply app_nil_r | exact Hnone | constructor].
    + intros o [= <-]. rewrite pool_set_same. split; [apply Hwl | ].
      exists (log w), [(i, EvLock)].
      split; [reflexivity | ]. split; [exact Hnone | ].
      constructor; [reflexivity | constructor].
    + intros j Hj. rewrite pool_set_other by congruence.
      apply Hothers. congruence.
    + intros j Hj. rewrite pool_set_other by congruence. intros Hwait.
      apply Forall_app. split; [apply Hfresh; [congruence | exact Hwait] | ].
      constructor; [ | constructor]. cbn [fst]. congruence.
  - (* mutex_unlock *)
    injection Hexec as <- <-.
    assert (Hh : update_lock (data w) = Some i) by (apply Hmine; discriminate).
    specialize (Hcrit Hh). cbn [critical kind_of] in Hcrit.
    destruct (Hholder i Hh) as [_ [pre [suf [Hsplit [Hpre Hsuf]]]]].
    unfold lock_invariant. cbn [fst snd with_lock data log update_lock].
    split; [ | split; [ | split; [ | split]]].
    + rewrite holder_after_app, Hlog, Hh. cbn [holder_after].
      rewrite Nat.eqb_refl. reflexivity.
    + intros j.
      exact (contiguous_snoc i j _ _ pre suf (Hcont j) Hsplit Hpre Hsuf).
    + intros o Ho. discriminate Ho.
    + intros j _. destruct (Nat.eq_dec j i) as [-> | Hne].
      * rewrite pool_set_same. apply released_well_locked, Hcrit.
      * rewrite pool_set_other by exact Hne. apply Hothers. congruence.
    + intros j _. destruct (Nat.eq_dec j i) as [-> | Hne].
      * rewrite pool_set_same. intros Hwait.
        exfalso. exact (released_not_waiting _ (Hcrit tt) Hwait).
      * rewrite pool_set_other by exact Hne. intros Hwait.
        apply Forall_app.
        split; [apply Hfresh; [congruence | exact Hwait] | ].
        constructor; [ | constructor]. cbn [fst]. congruence.
  - (* the cached page is read *)
    injection Hexec as <- <-.
    assert (Hh : update_lock (data w) = Some i) by (apply Hmine; discriminate).
    apply (invariant_holder_silent ts w w i _ Hinv0 Hh eq_refl eq_refl).
    apply (Hcrit Hh).
  - (* the cached page is written *)
    injection Hexec as <- <-.
    assert (Hh : update_lock (data w) = Some i) by (apply Hmine; discriminate).
    apply (invariant_holder_silent ts w _ i _ Hinv0 Hh eq_refl eq_refl).
    apply (Hcrit Hh).
  - (* a bus transfer *)
    injection Hexec as Hx.
    assert (Hh : update_lock (data w) = Some i) by (apply Hmine; discriminate).
    destruct (smbus_xfer_log i op w) as [Hdata Hnew].
    rewrite Hx in Hdata, Hnew. cbn [fst snd] in Hdata, Hnew.
    apply (invariant_holder_transfer ts w w' i _ op (fst x) Hinv0 Hh);
      [rewrite Hdata; reflexivity | exact Hnew | apply (Hcrit Hh)].
  - (* a spinning thread does not move *)
    discriminate Hexec.
Qed.

Lemma steps_invariant (c c' : pool * world) :
  lock_invariant c -> steps c c' -> lock_invariant c'.
Proof.
  intros Hinv Hsteps.
  induction Hsteps as [c | c1 c2 c3 Hsteps IH Hstep]; [exact Hinv | ].
  exact (step_invariant c2 c3 (IH Hinv) Hstep).
Qed.

Lemma initial_invariant (cfg : module_params) (calls : tid -> entry)
  (w : world) :
  update_lock (data w) = None -> log w = [] ->
  lock_invariant (fun i => entry_thread cfg (calls i), w).
Proof.
  intros Hfree Hempty.
  unfold lock_invariant. cbn [fst snd]. rewrite Hfree, Hempty.
  split; [reflexivity | ].
  split; [intros i; apply contiguous_nil | ].
  split; [intros o Ho; discriminate Ho | ].
  split; [intros i _; apply entry_thread_well_locked | ].
  intros i _ _. constructor.
Qed.

(** *** The scheduler builds executions *)

Lemma steps_cons (c1 c2 c3 : pool * world) :
  step c1 c2 -> steps c2 c3 -> steps c1 c3.
Proof.
  intros Hstep Hsteps.
  induction Hsteps as [c | c2 c3 c4 Hsteps IH Hlast].
  - exact (steps_snoc c1 c1 c (steps_refl c1) Hstep).
  - exact (steps_snoc c1 c3 c4 (IH Hstep) Hlast).
Qed.

Lemma try_step_step (i : tid) (c c' : pool * world) :
  try_step i c = Some c' -> step c c'.
Proof.
  destruct c as [ts w]. unfold try_step. cbn [fst snd].
  destruct (ts i) as [A p] eqn:Hth.
  destruct p as [a | X e k]; [discriminate | ].
  destruct (exec i e w) as [[x w'] | ] eqn:Hexec; [ | discriminate].
  intros [= <-].
  exact (step_action ts w w' i A X e k x Hth Hexec).
Qed.

Lemma schedule_steps (sched : list tid) :
  forall c, steps c (schedule sched c).
Proof.
  induction sched as [| i rest IH]; intros c; cbn [schedule].
  - apply steps_refl.
  - destruct (try_step i c) as [c' | ] eqn:Htry; [ | apply IH].
    exact (steps_cons c c' _ (try_step_step i c c' Htry) (IH c')).
Qed.

(** C9.  Let any number of threads each make one call of a driver entry
    point (a hwmon read or write, a bulk EEPROM read), interleaved in any
    way at the granularity of mutex operations and bus transfers, starting
    with the mutex free.  In every configuration that can be reached: the
    log obeys the mutex discipline, so every bus transfer was made by the
    thread holding the mutex at that time; the entries of each thread are
    contiguous in the log, so the transfers of two calls never interleave;
    and a thread that has returned, on whatever path, does not hold the
    mutex. *)
Theorem bus_transfers_never_interleave
  (cfg : module_params) (calls : tid -> entry) (w : world)
  (ts' : pool) (w' : world) :
  update_lock (data w) = None ->
  log w = [] ->
  steps (fun i => entry_thread cfg (calls i), w) (ts', w') ->
  holder_after None (log w') = Some (update_lock (data w')) /\
  (forall i, contiguous i (log w')) /\
  (forall i, thread_finished (ts' i) -> update_lock (data w') <> Some i).
Proof.
  intros Hfree Hempty Hsteps.
  pose proof (steps_invariant _ _ (initial_invariant cfg calls w Hfree Hempty)
                Hsteps) as Hinv.
  unfold lock_invariant in Hinv. cbn [fst snd] in Hinv.
  destruct Hinv as [Hlog [Hcont [Hholder _]]].
  split; [exact Hlog | ]. split; [exact Hcont | ].
  intros i Hdone Hh.
  destruct (Hholder i Hh) as [Hcrit _].
  destruct (ts' i) as [A p].
  cbn [thread_finished thread_critical] in Hdone, Hcrit.
  destruct p; [exact Hcrit | exact Hdone].
Qed.

Lemma bus_transfers_never_interleave_witness :
  holder_after None
    (log (snd (schedule sample_schedule (sample_pool, sample_world []))))
  = Some (update_lock
            (data (snd (schedule sample_schedule (sample_pool, sample_world [])))))
  /\
  (forall i,
     contiguous i
       (log (snd (schedule sample_schedule (sample_pool, sample_world [])))))
  /\
  (forall i,
     thread_finished
       (fst (schedule sample_schedule (sample_pool, sample_world [])) i) ->
     update_lock
       (data (snd (schedule sample_schedule (sample_pool, sample_world []))))
     <> Some i).
Proof.
  apply (bus_transfers_never_interleave
           (params false false) sample_calls (sample_world [])).
  - reflexivity.
  - reflexivity.
  - rewrite <- surjective_pairing.
    exact (schedule_steps sample_schedule (sample_pool, sample_world [])).
Defined.

(** * Further properties of the driver *)

(** ** The codec on temperatures at or above zero *)

Lemma s32_period (z k : Z) : s32 (z + k * 2 ^ 32) = s32 z.
Proof.
  unfold s32.
  replace (z + k * 2 ^ 32 + 2 ^ 31) with (z + 2 ^ 31 + k * 2 ^ 32) by lia.
  rewrite Z.mod_add by lia. reflexivity.
Qed.

Lemma decode_of_code (q : Z) :
  0 <= q < 1024 -> spd5118_temp_from_reg (Z.shiftl q 2) = 250 * q.
Proof.
  intros Hq. apply Z.eqb_eq. revert q Hq.
  apply (forallb_below 1024
           (fun q => spd5118_temp_from_reg (Z.shiftl q 2) =? 250 * q)).
  vm_compute. reflexivity.
Qed.

Lemma encode_nonneg (t : Z) :
  0 <= t ->
  spd5118_temp_to_reg t = Z.shiftl (Z.min t 255750 / 250) 2 /\
  0 <= Z.min t 255750 / 250 < 1024.
Proof.
  intros Ht.
  assert (Hq : 0 <= Z.min t 255750 / 250 < 1024).
  { split; [apply Z.div_pos; lia | apply Z.div_lt_upper_bound; lia]. }
  split; [ | exact Hq].
  rewrite spd5118_temp_to_reg_encode_spec. unfold encode_spec.
  assert (Hn : nearest_boundary t = Z.min t 255750).
  { unfold nearest_boundary.
    destruct (Z.ltb_spec t (-256000)); [lia | ].
    destruct (Z.ltb_spec 255750 t); lia. }
  rewrite Hn, Z.quot_div_nonneg by lia.
  rewrite Z.land_ones by lia.
  rewrite Z.mod_small by (change (2 ^ 11) with 2048; lia).
  reflexivity.
Qed.

Lemma roundtrip_nonneg (t : Z) :
  0 <= t ->
  spd5118_temp_from_reg (spd5118_temp_to_reg t) = 250 * (Z.min t 255750 / 250).
Proof.
  intros Ht.
  destruct (encode_nonneg t Ht) as [-> Hq].
  apply decode_of_code. exact Hq.
Qed.

(** X1.  Encoding a temperature at or above zero and decoding the register
    gives the temperature, cut to the top of the range and rounded down to a
    multiple of 250 millidegrees. *)
Theorem spd5118_temp_roundtrip_nonneg (t : Z) :
  0 <= t ->
  spd5118_temp_from_reg (spd5118_temp_to_reg t)
  = 250 * (Z.min t SPD5118_TEMP_RANGE_MAX / 250).
Proof.
  intros Ht. unfold SPD5118_TEMP_RANGE_MAX.
  apply roundtrip_nonneg. exact Ht.
Qed.

Lemma spd5118_temp_roundtrip_nonneg_witness :
  spd5118_temp_from_reg (spd5118_temp_to_reg 85123)
  = 250 * (Z.min 85123 SPD5118_TEMP_RANGE_MAX / 250).
Proof.
  apply (spd5118_temp_roundtrip_nonneg 85123). lia.
Defined.

(** ** Threshold writes with the flag set *)

Lemma temp_reg_writable_threshold (attr : hwmon_temp_attributes) :
  is_threshold attr ->
  exists reg,
    temp_reg_writable attr = Some reg /\
    temp_reg_readable attr = Some reg /\
    0x1c <= reg <= 0x22.
Proof.
  intros [-> | [-> | [-> | ->]]]; eexists;
    (split; [reflexivity | split; [reflexivity | ]]);
    unfold SPD5118_REG_TEMP_MAX, SPD5118_REG_TEMP_MIN,
      SPD5118_REG_TEMP_CRIT, SPD5118_REG_TEMP_LCRIT; lia.
Qed.

Lemma write_threshold_prog (cfg : module_params)
  (attr : hwmon_temp_attributes) (channel val : Z) :
  is_threshold attr ->
  spd5118_write cfg hwmon_temp attr channel val
  = spd5118_write_temp cfg attr val.
Proof. intros [-> | [-> | [-> | ->]]]; reflexivity. Qed.

Lemma u16_code (temp : Z) :
  u16 (spd5118_temp_to_reg temp) = spd5118_temp_to_reg temp.
Proof.
  unfold spd5118_temp_to_reg, u16 at 1.
  apply Z.mod_small. apply Z.mod_pos_bound. lia.
Qed.

(** X2.  With [enable_temp_write] set, a write of a threshold takes the
    mutex, issues exactly one word write to the register of the attribute,
    whose value is the code of [val] converted to [int], releases the mutex
    and returns the status of that transfer. *)
Theorem spd5118_write_temp_enabled
  (cfg : module_params) (attr : hwmon_temp_attributes) (channel val : Z)
  (t : tid) (w : world) :
  enable_temp_write cfg = true ->
  is_threshold attr ->
  update_lock (data w) = None ->
  exists reg status w',
    temp_reg_writable attr = Some reg /\
    run t (spd5118_write cfg hwmon_temp attr channel val) w
      = Some (status, w') /\
    log w' = log w ++
      [(t, EvLock);
       (t, EvBus (WriteWordData reg (spd5118_temp_to_reg (s32 val))) status);
       (t, EvUnlock)] /\
    status = match pending_fault w with
             | None => 0
             | Some e => fail_status e
             end /\
    update_lock (data w') = None.
Proof.
  intros Hon Hattr Hfree.
  destruct (temp_reg_writable_threshold attr Hattr) as [reg [Hreg [_ Hrange]]].
  exists reg.
  rewrite (write_threshold_prog cfg attr channel val Hattr).
  unfold spd5118_write_temp. rewrite Hon, Hreg.
  cbn [negb bind mutex_lock mutex_unlock call i2c_smbus_write_word_data
       run exec].
  rewrite Hfree, u16_code, (u8_small reg) by lia.
  set (w1 := with_lock (Some t) (t, EvLock) w).
  assert (Hpend : pending_fault w1 = pending_fault w) by reflexivity.
  destruct (pending_fault w) as [e | ] eqn:Hp.
  - rewrite (smbus_xfer_fault t _ w1 e Hpend).
    eexists. eexists. split; [reflexivity | ]. split; [reflexivity | ].
    cbn. rewrite <- !app_assoc. repeat split.
  - rewrite (smbus_xfer_ok t _ w1 Hpend).
    eexists. eexists. split; [reflexivity | ]. split; [reflexivity | ].
    cbn. rewrite <- !app_assoc. repeat split.
Qed.

Lemma spd5118_write_temp_enabled_witness :
  exists reg status w',
    temp_reg_writable hwmon_temp_max = Some reg /\
    run 0%nat (spd5118_write (params true false) hwmon_temp hwmon_temp_max 0 85000)
      (sample_world []) = Some (status, w') /\
    log w' = log (sample_world []) ++
      [(0%nat, EvLock);
       (0%nat, EvBus (WriteWordData reg (spd5118_temp_to_reg (s32 85000))) status);
       (0%nat, EvUnlock)] /\
    status = match pending_fault (sample_world []) with
             | None => 0
             | Some e => fail_status e
             end /\
    update_lock (data w') = None.
Proof.
  apply (spd5118_write_temp_enabled
           (params true false) hwmon_temp_max 0 85000 0%nat (sample_world [])).
  - reflexivity.
  - left. reflexivity.
  - reflexivity.
Defined.

(** X3.  The threshold handed to [spd5118_write_temp] is a [long], but it is
    clamped only after its conversion to [int]: values that differ by a
    multiple of 2^32 are written alike, and a value above the [int] range,
    up to 2^32 - 256000, is written as the lowest temperature, not the
    highest. *)
Theorem spd5118_write_temp_long_wraps
  (cfg : module_params) (attr : hwmon_temp_attributes) (val : Z) :
  2 ^ 31 <= val <= 2 ^ 32 - 256000 ->
  (forall k, spd5118_write_temp cfg attr (val + k * 2 ^ 32)
             = spd5118_write_temp cfg attr val) /\
  spd5118_write_temp cfg attr val
  = spd5118_write_temp cfg attr SPD5118_TEMP_RANGE_MIN /\
  spd5118_temp_to_reg (s32 val) = 0x1000.
Proof.
  intros Hval.
  assert (Hs : s32 val = val - 2 ^ 32).
  { unfold s32. replace (val + 2 ^ 31) with (val - 2 ^ 31 + 1 * 2 ^ 32) by lia.
    rewrite Z.mod_add by lia. rewrite Z.mod_small by lia. lia. }
  assert (Hcode : spd5118_temp_to_reg (s32 val) = 0x1000).
  { rewrite Hs. unfold spd5118_temp_to_reg.
    replace (clamp_val (val - 2 ^ 32) SPD5118_TEMP_RANGE_MIN
               SPD5118_TEMP_RANGE_MAX) with SPD5118_TEMP_RANGE_MIN
      by (unfold clamp_val, SPD5118_TEMP_RANGE_MIN, SPD5118_TEMP_RANGE_MAX; lia).
    reflexivity. }
  split; [ | split; [ | exact Hcode]].
  - intros k. unfold spd5118_write_temp. rewrite s32_period. reflexivity.
  - unfold spd5118_write_temp. rewrite Hcode. reflexivity.
Qed.

Lemma spd5118_write_temp_long_wraps_witness :
  (forall k, spd5118_write_temp (params true false) hwmon_temp_max
               (3000000000 + k * 2 ^ 32)
             = spd5118_write_temp (params true false) hwmon_temp_max 3000000000) /\
  spd5118_write_temp (params true false) hwmon_temp_max 3000000000
  = spd5118_write_temp (params true false) hwmon_temp_max SPD5118_TEMP_RANGE_MIN /\
  spd5118_temp_to_reg (s32 3000000000) = 0x1000.
Proof.
  apply (spd5118_write_temp_long_wraps (params true false) hwmon_temp_max 3000000000).
  lia.
Defined.

(** ** Reads of temperatures and alarms *)

Lemma temp_reg_readable_some (attr : hwmon_temp_attributes) :
  is_readable attr ->
  exists reg, temp_reg_readable attr = Some reg /\ 0x1c <= reg <= 0x31.
Proof.
  intros [-> | [-> | [-> | [-> | ->]]]]; eexists; (split; [reflexivity | ]);
    unfold SPD5118_REG_TEMP, SPD5118_REG_TEMP_MAX, SPD5118_REG_TEMP_MIN,
      SPD5118_REG_TEMP_CRIT, SPD5118_REG_TEMP_LCRIT; lia.
Qed.

Lemma read_readable_prog (attr : hwmon_temp_attributes) (channel : Z) :
  is_readable attr ->
  spd5118_read hwmon_temp attr channel = spd5118_read_temp attr.
Proof. intros [-> | [-> | [-> | [-> | ->]]]]; reflexivity. Qed.

(** X4.  A read of the temperature or of a threshold takes the mutex, issues
    exactly one word read at the register of the attribute and releases the
    mutex.  If the transfer fails its error is returned and no value is
    stored; otherwise the call returns 0 and stores the decoded word, which
    is a multiple of 250 and never below zero. *)
Theorem spd5118_read_temp_result
  (attr : hwmon_temp_attributes) (channel : Z) (t : tid) (w : world) :
  is_readable attr ->
  update_lock (data w) = None ->
  exists reg status r w',
    temp_reg_readable attr = Some reg /\
    run t (spd5118_read hwmon_temp attr channel) w = Some (r, w') /\
    log w' = log w ++
      [(t, EvLock); (t, EvBus (ReadWordData reg) status); (t, EvUnlock)] /\
    r = (if status <? 0 then (status, None)
         else (0, Some (spd5118_temp_from_reg (u16 status)))) /\
    (forall e, pending_fault w = Some e -> r = (fail_status e, None)) /\
    (forall v, snd r = Some v -> fst r = 0 /\ 0 <= v /\ (250 | v)) /\
    update_lock (data w') = None.
Proof.
  intros Hattr Hfree.
  destruct (temp_reg_readable_some attr Hattr) as [reg [Hreg Hrange]].
  exists reg.
  rewrite (read_readable_prog attr channel Hattr).
  unfold spd5118_read_temp. rewrite Hreg.
  cbn [bind mutex_lock mutex_unlock call i2c_smbus_read_word_data run exec].
  rewrite Hfree, (u8_small reg) by lia.
  set (w1 := with_lock (Some t) (t, EvLock) w).
  assert (Hpend : pending_fault w1 = pending_fault w) by reflexivity.
  destruct (pending_fault w) as [e | ] eqn:Hp.
  - rewrite (smbus_xfer_fault t _ w1 e Hpend).
    cbn [fst]. rewrite fail_status_ltb. cbn [run].
    eexists. eexists. eexists. split; [reflexivity | ]. split; [reflexivity | ].
    cbn [log with_lock w1]. rewrite <- !app_assoc.
    split; [reflexivity | ].
    rewrite fail_status_ltb.
    split; [reflexivity | ].
    split; [intros e' [= <-]; reflexivity | ].
    split; [intros v Hv; discriminate Hv | reflexivity].
  - rewrite (smbus_xfer_ok t _ w1 Hpend).
    set (status := fst (fst (smbus_success (device w1) (ReadWordData reg)))).
    cbn [fst].
    exists status.
    destruct (status <? 0) eqn:Hneg; cbn [run].
    + eexists. eexists. split; [reflexivity | ]. split; [reflexivity | ].
      cbn [log with_lock w1]. rewrite <- !app_assoc.
      split; [reflexivity | ]. split; [reflexivity | ].
      split; [intros e He; discriminate He | ].
      split; [intros v Hv; discriminate Hv | reflexivity].
    + eexists. eexists. split; [reflexivity | ]. split; [reflexivity | ].
      cbn [log with_lock w1]. rewrite <- !app_assoc.
      split; [reflexivity | ]. split; [reflexivity | ].
      split; [intros e He; discriminate He | ].
      split; [ | reflexivity].
      intros v [= <-]. split; [reflexivity | ].
      split; [apply spd5118_temp_from_reg_nonneg
             | apply spd5118_temp_from_reg_step].
Qed.

Lemma spd5118_read_temp_result_witness :
  exists reg status r w',
    temp_reg_readable hwmon_temp_input = Some reg /\
    run 0%nat (spd5118_read hwmon_temp hwmon_temp_input 0) (sample_world [])
      = Some (r, w') /\
    log w' = log (sample_world []) ++
      [(0%nat, EvLock); (0%nat, EvBus (ReadWordData reg) status);
       (0%nat, EvUnlock)] /\
    r = (if status <? 0 then (status, None)
         else (0, Some (spd5118_temp_from_reg (u16 status)))) /\
    (forall e, pending_fault (sample_world []) = Some e ->
               r = (fail_status e, None)) /\
    (forall v, snd r = Some v -> fst r = 0 /\ 0 <= v /\ (250 | v)) /\
    update_lock (data w') = None.
Proof.
  apply (spd5118_read_temp_result hwmon_temp_input 0 0%nat (sample_world [])).
  - left. reflexivity.
  - reflexivity.
Defined.

Lemma land_pow2 (s k : Z) :
  0 <= k -> (Z.land s (2 ^ k) =? 0) = negb (Z.testbit s k).
Proof.
  intros Hk.
  assert (Hl : Z.land s (2 ^ k) = if Z.testbit s k then 2 ^ k else 0).
  { apply Z.bits_inj'. intros n Hn.
    rewrite Z.land_spec, Z.pow2_bits_eqb by lia.
    destruct (Z.eqb_spec k n) as [-> | Hne].
    - destruct (Z.testbit s n); cbn.
      + rewrite Z.pow2_bits_eqb, Z.eqb_refl by lia. reflexivity.
      + rewrite Z.bits_0. reflexivity.
    - rewrite andb_false_r.
      destruct (Z.testbit s k).
      + rewrite Z.pow2_bits_eqb by lia. symmetry. apply Z.eqb_neq. exact Hne.
      + rewrite Z.bits_0. reflexivity. }
  rewrite Hl.
  destruct (Z.testbit s k); cbn [negb]; [ | reflexivity].
  apply Z.eqb_neq.
  pose proof (Z.pow_pos_nonneg 2 k ltac:(lia) Hk). lia.
Qed.

Lemma read_alarm_prog (attr : hwmon_temp_attributes) (channel : Z) :
  is_alarm attr ->
  spd5118_read hwmon_temp attr channel = spd5118_read_alarm attr.
Proof. intros [-> | [-> | [-> | ->]]]; reflexivity. Qed.

(** X5.  A read of an alarm takes the mutex, issues exactly one byte read of
    the status register and releases the mutex.  If the transfer fails its
    error is returned and no value is stored; otherwise the call returns 0
    and stores 1 when the bit of that alarm is set in the status byte and 0
    when it is clear. *)
Theorem spd5118_read_alarm_result
  (attr : hwmon_temp_attributes) (channel : Z) (t : tid) (w : world) :
  is_alarm attr ->
  update_lock (data w) = None ->
  exists status r w',
    run t (spd5118_read hwmon_temp attr channel) w = Some (r, w') /\
    log w' = log w ++
      [(t, EvLock);
       (t, EvBus (ReadByteData SPD5118_REG_TEMP_STATUS) status);
       (t, EvUnlock)] /\
    r = (if status <? 0 then (status, None)
         else (0, Some (if Z.testbit status (alarm_index attr) then 1 else 0))) /\
    (forall e, pending_fault w = Some e -> r = (fail_status e, None)) /\
    update_lock (data w') = None.
Proof.
  intros Hattr Hfree.
  destruct (alarm_clear_bit_index attr Hattr) as [_ [Hmask Hidx]].
  rewrite (read_alarm_prog attr channel Hattr).
  unfold spd5118_read_alarm. rewrite Hmask.
  cbn [bind mutex_lock mutex_unlock call i2c_smbus_read_byte_data run exec].
  rewrite Hfree.
  change (u8 SPD5118_REG_TEMP_STATUS) with SPD5118_REG_TEMP_STATUS.
  set (w1 := with_lock (Some t) (t, EvLock) w).
  assert (Hpend : pending_fault w1 = pending_fault w) by reflexivity.
  destruct (pending_fault w) as [e | ] eqn:Hp.
  - rewrite (smbus_xfer_fault t _ w1 e Hpend).
    cbn [fst]. rewrite fail_status_ltb. cbn [run].
    eexists. eexists. eexists. split; [reflexivity | ].
    cbn [log with_lock w1]. rewrite <- !app_assoc.
    split; [reflexivity | ].
    rewrite fail_status_ltb.
    split; [reflexivity | ].
    split; [intros e' [= <-]; reflexivity | reflexivity].
  - rewrite (smbus_xfer_ok t _ w1 Hpend).
    set (status := fst (fst (smbus_success (device w1)
                               (ReadByteData SPD5118_REG_TEMP_STATUS)))).
    cbn [fst].
    exists status.
    rewrite (land_pow2 status (alarm_index attr)) by lia.
    destruct (status <? 0) eqn:Hneg; cbn [run].
    + eexists. eexists. split; [reflexivity | ].
      cbn [log with_lock w1]. rewrite <- !app_assoc.
      split; [reflexivity | ]. split; [reflexivity | ].
      split; [intros e He; discriminate He | reflexivity].
    + eexists. eexists. split; [reflexivity | ].
      cbn [log with_lock w1]. rewrite <- !app_assoc.
      split; [reflexivity | ].
      split; [destruct (Z.testbit status (alarm_index attr)); reflexivity | ].
      split; [intros e He; discriminate He | reflexivity].
Qed.

Lemma spd5118_read_alarm_result_witness :
  exists status r w',
    run 0%nat (spd5118_read hwmon_temp hwmon_temp_crit_alarm 0) (sample_world [])
      = Some (r, w') /\
    log w' = log (sample_world []) ++
      [(0%nat, EvLock);
       (0%nat, EvBus (ReadByteData SPD5118_REG_TEMP_STATUS) status);
       (0%nat, EvUnlock)] /\
    r = (if status <? 0 then (status, None)
         else (0, Some (if Z.testbit status (alarm_index hwmon_temp_crit_alarm)
                        then 1 else 0))) /\
    (forall e, pending_fault (sample_world []) = Some e ->
               r = (fail_status e, None)) /\
    update_lock (data w') = None.
Proof.
  apply (spd5118_read_alarm_result hwmon_temp_crit_alarm 0 0%nat (sample_world [])).
  - right. right. left. reflexivity.
  - reflexivity.
Defined.

(** ** A threshold written is the threshold read back *)

(** The word the chip returns at a mode register pair after a word write. *)
Lemma chip_word_written (c : chip) (reg code : Z) :
  0 <= reg < 0x7f -> 0 <= code < 2 ^ 16 ->
  let c' := chip_write (chip_write c reg (Z.land code 0xff))
              (u8 (reg + 1)) (Z.shiftr code 8) in
  chip_read c' reg + 256 * chip_read c' (u8 (reg + 1)) = code.
Proof.
  intros Hreg Hcode c'.
  assert (Hlo : Z.land code 0xff = code mod 256).
  { change 0xff with (Z.ones 8). rewrite Z.land_ones by lia. reflexivity. }
  assert (Hhi : Z.shiftr code 8 = code / 256).
  { rewrite Z.shiftr_div_pow2 by lia. reflexivity. }
  pose proof (Z.mod_pos_bound code 256 ltac:(lia)) as Hm.
  assert (Hd : 0 <= code / 256 < 256).
  { split; [apply Z.div_pos; lia | apply Z.div_lt_upper_bound; lia]. }
  assert (Hr1 : u8 (reg + 1) = reg + 1) by (apply u8_small; lia).
  subst c'. rewrite Hr1, Hlo, Hhi.
  unfold chip_read, chip_write, SPD5118_EEPROM_BASE.
  destruct (Z.ltb_spec reg 128); [ | lia].
  destruct (Z.ltb_spec (reg + 1) 128); [ | lia].
  cbn [mode_regs].
  destruct (Z.eqb_spec reg (reg + 1)); [lia | ].
  rewrite !Z.eqb_refl.
  rewrite !(u8_small (code mod 256)), !(u8_small (code / 256)) by lia.
  pose proof (Z.div_mod code 256 ltac:(lia)). lia.
Qed.

(** X6.  With [enable_temp_write] set and a bus that does not fail, a
    threshold between 0 and the top of the [int] range that is written and
    then read comes back cut to 255750 and rounded down to a multiple of
    250 millidegrees. *)
Theorem threshold_write_then_read
  (cfg : module_params) (attr : hwmon_temp_attributes) (channel val : Z)
  (t : tid) (w : world) :
  enable_temp_write cfg = true ->
  is_threshold attr ->
  update_lock (data w) = None ->
  faults w = [] ->
  0 <= val < 2 ^ 31 ->
  exists w1 w2,
    run t (spd5118_write cfg hwmon_temp attr channel val) w = Some (0, w1) /\
    run t (spd5118_read hwmon_temp attr channel) w1
      = Some ((0, Some (250 * (Z.min val SPD5118_TEMP_RANGE_MAX / 250))), w2).
Proof.
  intros Hon Hattr Hfree Hfaults Hval.
  destruct (temp_reg_writable_threshold attr Hattr)
    as [reg [Hreg [Hreg' Hrange]]].
  rewrite (write_threshold_prog cfg attr channel val Hattr).
  rewrite (read_readable_prog attr channel (or_intror Hattr)).
  unfold spd5118_write_temp, spd5118_read_temp. rewrite Hon, Hreg, Hreg'.
  rewrite (s32_small val) by lia.
  set (code := spd5118_temp_to_reg val).
  assert (Hcode : 0 <= code < 2 ^ 16).
  { subst code. rewrite <- u16_code. apply u16_range. }
  assert (Hu16 : u16 code = code) by (apply Z.mod_small; exact Hcode).
  cbn [negb bind mutex_lock mutex_unlock call i2c_smbus_write_word_data
       i2c_smbus_read_word_data run exec].
  rewrite Hfree, Hu16, (u8_small reg) by lia.
  set (w0 := with_lock (Some t) (t, EvLock) w).
  assert (Hp0 : pending_fault w0 = None).
  { unfold pending_fault. cbn [w0 with_lock faults]. rewrite Hfaults.
    reflexivity. }
  rewrite (smbus_xfer_ok t _ w0 Hp0).
  cbn [smbus_success fst snd run].
  eexists. eexists. split; [reflexivity | ].
  cbn [run exec with_lock data update_lock].
  match goal with
  | |- context [smbus_xfer t ?op ?w1] =>
      assert (Hp1 : pending_fault w1 = None)
        by (unfold pending_fault; cbn [w0 with_lock faults];
            rewrite Hfaults; reflexivity);
      rewrite (smbus_xfer_ok t op w1 Hp1)
  end.
  cbn [smbus_success fst snd device with_lock w0].
  rewrite (chip_word_written (device w) reg code) by lia.
  destruct (Z.ltb_spec code 0) as [Hneg | _]; [lia | ].
  cbn [run]. rewrite Hu16. subst code.
  rewrite (roundtrip_nonneg val) by lia.
  reflexivity.
Qed.

Lemma threshold_write_then_read_witness :
  exists w1 w2,
    run 0%nat (spd5118_write (params true false) hwmon_temp hwmon_temp_crit 0 85123)
      (sample_world []) = Some (0, w1) /\
    run 0%nat (spd5118_read hwmon_temp hwmon_temp_crit 0) w1
      = Some ((0, Some (250 * (Z.min 85123 SPD5118_TEMP_RANGE_MAX / 250))), w2).
Proof.
  apply (threshold_write_then_read
           (params true false) hwmon_temp_crit 0 85123 0%nat (sample_world [])).
  - reflexivity.
  - right. right. left. reflexivity.
  - reflexivity.
  - reflexivity.
  - lia.
Defined.

(** ** Visibility and the dispatchers *)

Lemma is_visible_cases (cfg : module_params) (type : hwmon_sensor_types)
  (attr : hwmon_temp_attributes) (channel : Z) :
  (type = hwmon_temp /\ attr = hwmon_temp_input /\
   spd5118_is_visible cfg type attr channel = S_0444)
  \/
  (type = hwmon_temp /\ is_threshold attr /\
   spd5118_is_visible cfg type attr channel
   = if enable_temp_write cfg then S_0644 else S_0444)
  \/
  (type = hwmon_temp /\ is_alarm attr /\
   spd5118_is_visible cfg type attr channel
   = if enable_alarm_write cfg then S_0644 else S_0444)
  \/
  (spd5118_is_visible cfg type attr channel = 0 /\
   spd5118_read type attr channel = Ret (- EOPNOTSUPP, None) /\
   forall val, spd5118_write cfg type attr channel val = Ret (- EOPNOTSUPP)).
Proof.
  unfold is_threshold, is_alarm.
  destruct type;
    try (right; right; right; repeat split; reflexivity).
  destruct attr;
    try (right; right; right; repeat split; reflexivity);
    try (left; repeat split; reflexivity);
    try (right; left; split; [reflexivity | split; [ | reflexivity]]; tauto);
    try (right; right; left; split; [reflexivity | split; [ | reflexivity]]; tauto).
Qed.

Lemma write_alarm_zero_prog_or_refusal
  (cfg : module_params) (attr : hwmon_temp_attributes) (channel : Z) :
  is_alarm attr ->
  spd5118_write cfg hwmon_temp attr channel 0 =
    if enable_alarm_write cfg
    then (mutex_lock ;;
          ret <- i2c_smbus_write_byte_data SPD5118_REG_TEMP_CLR
                   (2 ^ alarm_index attr) ;;
          mutex_unlock ;;
          Ret ret)%prog
    else Ret (- EOPNOTSUPP).
Proof.
  intros Hattr.
  destruct (enable_alarm_write cfg) eqn:Hon.
  - apply write_alarm_zero_prog; assumption.
  - assert (Hw : spd5118_write cfg hwmon_temp attr channel 0
                 = spd5118_clear_alarm cfg attr).
    { destruct Hattr as [-> | [-> | [-> | ->]]]; reflexivity. }
    rewrite Hw. unfold spd5118_clear_alarm. rewrite Hon. reflexivity.
Qed.

(** X7.  [spd5118_is_visible] answers 0, 0444 or 0644, and it answers 0
    exactly for the type and attribute pairs that [spd5118_read] refuses at
    once; those [spd5118_write] refuses too, both with -EOPNOTSUPP and
    without any action. *)
Theorem spd5118_is_visible_agrees_with_read
  (cfg : module_params) (type : hwmon_sensor_types)
  (attr : hwmon_temp_attributes) (channel : Z) :
  (spd5118_is_visible cfg type attr channel = 0 \/
   spd5118_is_visible cfg type attr channel = S_0444 \/
   spd5118_is_visible cfg type attr channel = S_0644) /\
  (spd5118_is_visible cfg type attr channel = 0 <->
   returns_at_once (spd5118_read type attr channel)) /\
  (spd5118_is_visible cfg type attr channel = 0 ->
   spd5118_read type attr channel = Ret (- EOPNOTSUPP, None) /\
   forall val, spd5118_write cfg type attr channel val = Ret (- EOPNOTSUPP)).
Proof.
  destruct (is_visible_cases cfg type attr channel)
    as [[-> [-> Hm]] | [[-> [Hattr Hm]] | [[-> [Hattr Hm]] | [Hm [Hr Hw]]]]].
  - rewrite Hm. split; [right; left; reflexivity | ].
    split; [ | discriminate].
    split; [discriminate | intros []].
  - rewrite Hm.
    assert (Hne : (if enable_temp_write cfg then S_0644 else S_0444) <> 0)
      by (destruct (enable_temp_write cfg); discriminate).
    split; [destruct (enable_temp_write cfg); tauto | ].
    split; [ | tauto].
    split; [tauto | ].
    rewrite (read_readable_prog attr channel (or_intror Hattr)).
    destruct Hattr as [-> | [-> | [-> | ->]]]; intros [].
  - rewrite Hm.
    assert (Hne : (if enable_alarm_write cfg then S_0644 else S_0444) <> 0)
      by (destruct (enable_alarm_write cfg); discriminate).
    split; [destruct (enable_alarm_write cfg); tauto | ].
    split; [ | tauto].
    split; [tauto | ].
    rewrite (read_alarm_prog attr channel Hattr).
    destruct Hattr as [-> | [-> | [-> | ->]]]; intros [].
  - rewrite Hm, Hr. split; [left; reflexivity | ].
    split; [split; [intros _; exact I | reflexivity] | ].
    intros _. split; [reflexivity | exact Hw].
Qed.

(** X8.  [spd5118_write] acts only where [spd5118_is_visible] grants write
    permission: whenever the mode is not 0644 the write is refused at once,
    with -EOPNOTSUPP or -EINVAL and without any action; where the mode is
    0644, the write of a threshold, or of zero to an alarm, starts by taking
    the mutex. *)
Theorem spd5118_write_needs_permission
  (cfg : module_params) (type : hwmon_sensor_types)
  (attr : hwmon_temp_attributes) (channel val : Z) :
  (spd5118_is_visible cfg type attr channel <> S_0644 ->
   spd5118_write cfg type attr channel val = Ret (- EOPNOTSUPP) \/
   spd5118_write cfg type attr channel val = Ret (- EINVAL)) /\
  (spd5118_is_visible cfg type attr channel = S_0644 ->
   is_threshold attr \/ val = 0 ->
   exists k, spd5118_write cfg type attr channel val = Vis MutexLock k).
Proof.
  destruct (is_visible_cases cfg type attr channel)
    as [[-> [-> Hm]] | [[-> [Hattr Hm]] | [[-> [Hattr Hm]] | [Hm [Hr Hw]]]]];
    rewrite Hm.
  - split; [intros _; left; reflexivity | discriminate].
  - rewrite (write_threshold_prog cfg attr channel val Hattr).
    unfold spd5118_write_temp.
    destruct (temp_reg_writable_threshold attr Hattr) as [reg [-> _]].
    destruct (enable_temp_write cfg); cbn [negb].
    + split; [congruence | ]. intros _ _. eexists. reflexivity.
    + split; [intros _; left; reflexivity | discriminate].
  - destruct (Z.eq_dec val 0) as [-> | Hval].
    + rewrite (write_alarm_zero_prog_or_refusal cfg attr channel Hattr).
      destruct (enable_alarm_write cfg).
      * split; [congruence | ]. intros _ _. eexists. reflexivity.
      * split; [intros _; left; reflexivity | discriminate].
    + rewrite (write_alarm_nonzero_ret cfg attr channel val Hattr Hval).
      split; [intros _; right; reflexivity | ].
      intros _ [Hthr | H0]; [ | contradiction].
      exfalso. unfold is_alarm, is_threshold in *.
      destruct Hattr as [-> | [-> | [-> | ->]]];
        destruct Hthr as [H | [H | [H | H]]]; discriminate H.
  - split; [intros _; left; apply Hw | discriminate].
Qed.

(** ** Discovery and attach *)

Lemma chip_read_range (c : chip) (addr : Z) : 0 <= chip_read c addr < 256.
Proof.
  unfold chip_read.
  destruct (addr <? SPD5118_EEPROM_BASE); apply Z.mod_pos_bound; lia.
Qed.

Lemma chip_word_range (c : chip) (addr : Z) : 0 <= chip_word c addr < 2 ^ 16.
Proof.
  unfold chip_word.
  pose proof (chip_read_range c addr).
  pose proof (chip_read_range c (u8 (addr + 1))).
  lia.
Qed.

Lemma pending_fault_nth (w : world) : pending_fault w = nth_fault 0 w.
Proof.
  unfold pending_fault, nth_fault.
  destruct (faults w) as [| [e | ] rest]; reflexivity.
Qed.

Lemma nth_fault_after_read (t : tid) (op : bus_op) (status : Z) (w : world)
  (n : nat) :
  nth_fault n (after_read t op status w) = nth_fault (S n) w.
Proof.
  unfold nth_fault, after_read. cbn [faults].
  destruct (faults w) as [| f rest]; [destruct n; reflexivity | reflexivity].
Qed.

Lemma read_word_run (t : tid) (w : world) (reg : Z) :
  0 <= reg < 256 ->
  let status := match nth_fault 0 w with
                | Some e => fail_status e
                | None => chip_word (device w) reg
                end in
  run t (i2c_smbus_read_word_data reg) w
  = Some (status, after_read t (ReadWordData reg) status w).
Proof.
  intros Hreg status. subst status.
  unfold i2c_smbus_read_word_data.
  cbn [bind call run exec]. rewrite (u8_small reg) by exact Hreg.
  rewrite <- pending_fault_nth.
  destruct (pending_fault w) as [e | ] eqn:Hp.
  - rewrite (smbus_xfer_fault t _ w e Hp). reflexivity.
  - rewrite (smbus_xfer_ok t _ w Hp). reflexivity.
Qed.

Lemma read_byte_run (t : tid) (w : world) (reg : Z) :
  0 <= reg < 256 ->
  let status := match nth_fault 0 w with
                | Some e => fail_status e
                | None => chip_read (device w) reg
                end in
  run t (i2c_smbus_read_byte_data reg) w
  = Some (status, after_read t (ReadByteData reg) status w).
Proof.
  intros Hreg status. subst status.
  unfold i2c_smbus_read_byte_data.
  cbn [bind call run exec]. rewrite (u8_small reg) by exact Hreg.
  rewrite <- pending_fault_nth.
  destruct (pending_fault w) as [e | ] eqn:Hp.
  - rewrite (smbus_xfer_fault t _ w e Hp). reflexivity.
  - rewrite (smbus_xfer_ok t _ w Hp). reflexivity.
Qed.

Lemma swab16_u16 (r : Z) :
  is_u16 r -> swab16 (u16 r) = r / 256 + 256 * (r mod 256).
Proof.
  intros Hr. apply Z.eqb_eq. revert r Hr.
  apply forall_u16. vm_compute. reflexivity.
Qed.

(** The swapped type word is 0x5118 exactly when the chip answers 0x51 at
    register 0 and 0x18 at register 1. *)
Lemma type_word_signature (c : chip) :
  swab16 (u16 (chip_word c SPD5118_REG_TYPE)) = 0x5118 <->
  chip_read c 0 = 0x51 /\ chip_read c 1 = 0x18.
Proof.
  rewrite swab16_u16 by apply chip_word_range.
  unfold chip_word, SPD5118_REG_TYPE.
  change (u8 (0 + 1)) with 1.
  pose proof (chip_read_range c 0) as H0.
  pose proof (chip_read_range c 1) as H1.
  replace ((chip_read c 0 + 256 * chip_read c 1) / 256) with (chip_read c 1)
    by (apply Z.div_unique with (r := chip_read c 0); lia).
  replace ((chip_read c 0 + 256 * chip_read c 1) mod 256) with (chip_read c 0)
    by (apply Z.mod_unique with (q := chip_read c 1); lia).
  lia.
Qed.

Lemma read_word_swapped_run (t : tid) (w : world) (reg : Z) :
  0 <= reg < 256 ->
  let status := match nth_fault 0 w with
                | Some e => fail_status e
                | None => chip_word (device w) reg
                end in
  run t (i2c_smbus_read_word_swapped reg) w
  = Some (match nth_fault 0 w with
          | Some e => fail_status e
          | None => swab16 (u16 (chip_word (device w) reg))
          end, after_read t (ReadWordData reg) status w).
Proof.
  intros Hreg status. subst status.
  unfold i2c_smbus_read_word_swapped.
  rewrite run_bind, (read_word_run t w reg Hreg).
  cbn [run].
  destruct (nth_fault 0 w) as [e | ].
  - rewrite fail_status_ltb. reflexivity.
  - pose proof (chip_word_range (device w) reg) as Hw.
    destruct (Z.ltb_spec (chip_word (device w) reg) 0); [lia | reflexivity].
Qed.

(** X9.  [spd5118_detect] answers 0 or -ENODEV, never a transport error.  It
    issues at most two transfers, both word reads, none when the adapter
    lacks the functionality, and leaves the chip and the device record as
    they were.  It answers 0 exactly when the adapter has the functionality,
    both reads succeed, the chip answers 0x51, 0x18 at the type registers
    and its vendor word passes [spd5118_vendor_valid]. *)
Theorem spd5118_detect_result (functionality : bool) (t : tid) (w : world) :
  exists r w' l,
    run t (spd5118_detect functionality) w = Some (r, w') /\
    log w' = log w ++ l /\
    data w' = data w /\
    device w' = device w /\
    (r = (0, Some "spd5118"%string) \/ r = (- ENODEV, None)) /\
    (length l <= 2)%nat /\
    Forall (fun ev => exists reg status,
                        ev = (t, EvBus (ReadWordData reg) status)) l /\
    (functionality = false -> l = []) /\
    (fst r = 0 <->
     functionality = true /\
     nth_fault 0 w = None /\ nth_fault 1 w = None /\
     chip_read (device w) 0 = 0x51 /\ chip_read (device w) 1 = 0x18 /\
     spd5118_vendor_valid (chip_word (device w) SPD5118_REG_VENDOR) = true).
Proof.
  unfold spd5118_detect.
  destruct functionality; cbn [negb].
  2:{ exists (- ENODEV, None), w, []. rewrite app_nil_r.
      split; [reflexivity | ]. split; [reflexivity | ].
      split; [reflexivity | ]. split; [reflexivity | ].
      split; [right; reflexivity | ]. split; [cbn; lia | ].
      split; [constructor | ]. split; [reflexivity | ].
      split; [discriminate | intros [H _]; discriminate H]. }
  rewrite run_bind.
  rewrite (read_word_swapped_run t w SPD5118_REG_TYPE) by (cbv; split; congruence).
  set (s1 := match nth_fault 0 w with
             | Some e => fail_status e
             | None => chip_word (device w) SPD5118_REG_TYPE
             end).
  set (w1 := after_read t (ReadWordData SPD5118_REG_TYPE) s1 w).
  assert (Hone : Forall (fun ev => exists reg status,
                           ev = (t, EvBus (ReadWordData reg) status))
                   [(t, EvBus (ReadWordData SPD5118_REG_TYPE) s1)]).
  { constructor; [eexists; eexists; reflexivity | constructor]. }
  destruct (nth_fault 0 w) as [e1 | ] eqn:Hf0.
  - (* the type read fails *)
    rewrite (proj2 (Z.eqb_neq (fail_status e1) 0x5118))
      by (pose proof (fail_status_range e1); lia).
    cbn [negb run].
    exists (- ENODEV, None), w1. eexists.
    split; [reflexivity | ]. split; [reflexivity | ].
    split; [reflexivity | ]. split; [reflexivity | ].
    split; [right; reflexivity | ]. split; [cbn; lia | ].
    split; [exact Hone | ]. split; [discriminate | ].
    split; [discriminate | intros [_ [H _]]; discriminate H].
  - destruct (Z.eqb_spec (swab16 (u16 (chip_word (device w) SPD5118_REG_TYPE)))
                0x5118) as [Hsig | Hsig]; cbn [negb].
    2:{ (* another type signature *)
        cbn [run].
        exists (- ENODEV, None), w1. eexists.
        split; [reflexivity | ]. split; [reflexivity | ].
        split; [reflexivity | ]. split; [reflexivity | ].
        split; [right; reflexivity | ]. split; [cbn; lia | ].
        split; [exact Hone | ]. split; [discriminate | ].
        split; [discriminate | ].
        intros [_ [_ [_ [H0 [H1 _]]]]].
        exfalso. apply Hsig, type_word_signature. split; assumption. }
    apply type_word_signature in Hsig. destruct Hsig as [Hb0 Hb1].
    rewrite run_bind.
    rewrite (read_word_run t w1 SPD5118_REG_VENDOR) by (cbv; split; congruence).
    assert (Hn1 : nth_fault 0 w1 = nth_fault 1 w)
      by apply nth_fault_after_read.
    assert (Hd1 : device w1 = device w) by reflexivity.
    rewrite !Hn1, !Hd1.
    set (s2 := match nth_fault 1 w with
               | Some e => fail_status e
               | None => chip_word (device w) SPD5118_REG_VENDOR
               end).
    set (w2 := after_read t (ReadWordData SPD5118_REG_VENDOR) s2 w1).
    assert (Htwo : Forall (fun ev => exists reg status,
                             ev = (t, EvBus (ReadWordData reg) status))
                     [(t, EvBus (ReadWordData SPD5118_REG_TYPE) s1);
                      (t, EvBus (ReadWordData SPD5118_REG_VENDOR) s2)]).
    { constructor; [eexists; eexists; reflexivity | ].
      constructor; [eexists; eexists; reflexivity | constructor]. }
    assert (Hlog2 : log w2 = log w ++
                      [(t, EvBus (ReadWordData SPD5118_REG_TYPE) s1);
                       (t, EvBus (ReadWordData SPD5118_REG_VENDOR) s2)]).
    { cbn [w2 w1 after_read log]. rewrite <- app_assoc. reflexivity. }
    destruct (nth_fault 1 w) as [e2 | ] eqn:Hf1.
    + (* the vendor read fails *)
      subst s2. rewrite fail_status_ltb. cbn [orb run].
      exists (- ENODEV, None), w2. eexists.
      split; [reflexivity | ]. split; [exact Hlog2 | ].
      split; [reflexivity | ]. split; [reflexivity | ].
      split; [right; reflexivity | ]. split; [cbn; lia | ].
      split; [exact Htwo | ]. split; [discriminate | ].
      split; [discriminate | intros [_ [_ [H _]]]; discriminate H].
    + pose proof (chip_word_range (device w) SPD5118_REG_VENDOR) as Hv.
      destruct (Z.ltb_spec s2 0) as [Hneg | _]; [subst s2; lia | ].
      assert (Hu : u16 s2 = chip_word (device w) SPD5118_REG_VENDOR)
        by (subst s2; apply Z.mod_small; exact Hv).
      rewrite Hu. cbn [orb].
      destruct (spd5118_vendor_valid (chip_word (device w) SPD5118_REG_VENDOR))
        eqn:Hvalid; cbn [negb run].
      * exists (0, Some "spd5118"%string), w2. eexists.
        split; [reflexivity | ]. split; [exact Hlog2 | ].
        split; [reflexivity | ]. split; [reflexivity | ].
        split; [left; reflexivity | ]. split; [cbn; lia | ].
        split; [exact Htwo | ]. split; [discriminate | ].
        split; [intros _; repeat split; assumption | reflexivity].
      * exists (- ENODEV, None), w2. eexists.
        split; [reflexivity | ]. split; [exact Hlog2 | ].
        split; [reflexivity | ]. split; [reflexivity | ].
        split; [right; reflexivity | ]. split; [cbn; lia | ].
        split; [exact Htwo | ]. split; [discriminate | ].
        split; [discriminate | ].
        intros [_ [_ [_ [_ [_ H]]]]]. discriminate H.
Qed.

Lemma u32_range (z : Z) : 0 <= u32 z < 2 ^ 32.
Proof. unfold u32. apply Z.mod_pos_bound. lia. Qed.

Lemma u16_u32 (z : Z) : u16 (u32 z) = u16 z.
Proof.
  unfold u16, u32.
  apply Z.mod_mod_divide.
  exists (2 ^ 16). reflexivity.
Qed.

Lemma u8_u32 (z : Z) : u8 (u32 z) = u8 z.
Proof.
  unfold u8, u32.
  apply Z.mod_mod_divide.
  exists (2 ^ 24). reflexivity.
Qed.

Lemma probe_data_u32 (vendor revision : Z) :
  probe_data (u32 vendor) (u32 revision) = probe_data vendor revision.
Proof. unfold probe_data. rewrite u16_u32, u8_u32. reflexivity. Qed.

(** X10.  [spd5118_probe] reads the type word, the revision byte and the
    vendor word and never writes.  When the type read fails or the chip does
    not answer 0x51, 0x18 it returns -ENODEV after that one transfer.
    Otherwise the outcome no longer depends on the bus: the results of the
    revision and vendor reads are held in [unsigned int] variables, so their
    failure is not detected; the call returns -ENOMEM if the allocation
    fails and else the status of the hwmon registration, with a record whose
    mutex is free, whose [current_page] is -1 and whose [revision] and
    [vendor] are the low 8 and 16 bits of what the two reads returned, a
    negative errno included. *)
Theorem spd5118_probe_result
  (alloc_ok : bool) (hwmon_error : option errno) (t : tid) (w : world) :
  let type_ok := nth_fault 0 w = None /\
                 chip_read (device w) 0 = 0x51 /\
                 chip_read (device w) 1 = 0x18 in
  let revision := match nth_fault 1 w with
                  | Some e => fail_status e
                  | None => chip_read (device w) SPD5118_REG_REVISION
                  end in
  let vendor := match nth_fault 2 w with
                | Some e => fail_status e
                | None => chip_word (device w) SPD5118_REG_VENDOR
                end in
  exists r w' l,
    run t (spd5118_probe alloc_ok hwmon_error) w = Some (r, w') /\
    log w' = log w ++ l /\
    data w' = data w /\
    device w' = device w /\
    (~ type_ok -> r = (- ENODEV, None) /\ length l = 1%nat) /\
    (type_ok ->
     length l = 3%nat /\
     r = if alloc_ok
         then (match hwmon_error with
               | Some e => fail_status e
               | None => 0
               end, Some (probe_data vendor revision))
         else (- ENOMEM, None)).
Proof.
  intros type_ok revision vendor.
  unfold spd5118_probe.
  rewrite run_bind.
  rewrite (read_word_swapped_run t w SPD5118_REG_TYPE) by (cbv; split; congruence).
  set (s1 := match nth_fault 0 w with
             | Some e => fail_status e
             | None => chip_word (device w) SPD5118_REG_TYPE
             end).
  set (w1 := after_read t (ReadWordData SPD5118_REG_TYPE) s1 w).
  destruct (nth_fault 0 w) as [e1 | ] eqn:Hf0.
  - (* the type read fails: the errno, as unsigned, is not 0x5118 *)
    assert (Hne : (u32 (fail_status e1) =? 0x5118) = false).
    { apply Z.eqb_neq. pose proof (fail_status_range e1) as He.
      unfold MAX_ERRNO in He. unfold u32.
      replace (fail_status e1) with (fail_status e1 + 2 ^ 32 + (-1) * 2 ^ 32)
        by lia.
      rewrite Z.mod_add by lia. rewrite Z.mod_small by lia. lia. }
    rewrite Hne. cbn [negb run].
    exists (- ENODEV, None), w1. eexists.
    split; [reflexivity | ]. split; [reflexivity | ].
    split; [reflexivity | ]. split; [reflexivity | ].
    split; [intros _; split; reflexivity | ].
    intros [H _]. discriminate H.
  - pose proof (chip_word_range (device w) SPD5118_REG_TYPE) as Hw.
    assert (Hs : 0 <= swab16 (u16 (chip_word (device w) SPD5118_REG_TYPE))
                 < 2 ^ 16).
    { rewrite swab16_u16 by exact Hw.
      pose proof (Z.mod_pos_bound (chip_word (device w) SPD5118_REG_TYPE) 256
                    ltac:(lia)).
      assert (0 <= chip_word (device w) SPD5118_REG_TYPE / 256 < 256)
        by (split; [apply Z.div_pos; lia | apply Z.div_lt_upper_bound; lia]).
      lia. }
    replace (u32 (swab16 (u16 (chip_word (device w) SPD5118_REG_TYPE))))
      with (swab16 (u16 (chip_word (device w) SPD5118_REG_TYPE)))
      by (symmetry; apply Z.mod_small; lia).
    destruct (Z.eqb_spec (swab16 (u16 (chip_word (device w) SPD5118_REG_TYPE)))
                0x5118) as [Hsig | Hsig]; cbn [negb].
    2:{ cbn [run].
        exists (- ENODEV, None), w1. eexists.
        split; [reflexivity | ]. split; [reflexivity | ].
        split; [reflexivity | ]. split; [reflexivity | ].
        split; [intros _; split; reflexivity | ].
        intros [_ [H0 H1]].
        exfalso. apply Hsig, type_word_signature. split; assumption. }
    apply type_word_signature in Hsig. destruct Hsig as [Hb0 Hb1].
    rewrite run_bind.
    rewrite (read_byte_run t w1 SPD5118_REG_REVISION) by (cbv; split; congruence).
    assert (Hn1 : nth_fault 0 w1 = nth_fault 1 w)
      by apply nth_fault_after_read.
    assert (Hd1 : device w1 = device w) by reflexivity.
    rewrite !Hn1, !Hd1. fold revision.
    set (w2 := after_read t (ReadByteData SPD5118_REG_REVISION) revision w1).
    destruct (Z.ltb_spec (u32 revision) 0) as [Hneg | _];
      [pose proof (u32_range revision); lia | ].
    rewrite run_bind.
    rewrite (read_word_run t w2 SPD5118_REG_VENDOR) by (cbv; split; congruence).
    assert (Hn2 : nth_fault 0 w2 = nth_fault 2 w).
    { unfold w2. rewrite nth_fault_after_read. apply nth_fault_after_read. }
    assert (Hd2 : device w2 = device w) by reflexivity.
    rewrite !Hn2, !Hd2. fold vendor.
    set (w3 := after_read t (ReadWordData SPD5118_REG_VENDOR) vendor w2).
    destruct (Z.ltb_spec (u32 vendor) 0) as [Hneg | _];
      [pose proof (u32_range vendor); lia | ].
    rewrite probe_data_u32.
    exists (if alloc_ok
            then (match hwmon_error with
                  | Some e => fail_status e
                  | None => 0
                  end, Some (probe_data vendor revision))
            else (- ENOMEM, None)), w3.
    eexists.
    split; [destruct alloc_ok; reflexivity | ].
    split.
    { cbn [w3 w2 w1 after_read log]. rewrite <- !app_assoc. reflexivity. }
    split; [reflexivity | ]. split; [reflexivity | ].
    split.
    { intros Hbad. exfalso. apply Hbad. repeat split; assumption. }
    intros _. split; reflexivity.
Qed.

Lemma spd5118_probe_result_witness :
  exists w',
    run 0%nat (spd5118_probe true None)
      (world_of_chip (chip_with_identity 0x51 0x18 0x80 0xB3)
         [None; Some errno_EIO])
    = Some ((0, Some {| update_lock := None; current_page := -1;
                        vendor := 0xB380; revision := 251 |}), w').
Proof.
  destruct (spd5118_probe_result true None 0%nat
              (world_of_chip (chip_with_identity 0x51 0x18 0x80 0xB3)
                 [None; Some errno_EIO]))
    as [r [w' [l [Hrun [_ [_ [_ [_ Hok]]]]]]]].
  destruct Hok as [_ Hr]; [repeat split; reflexivity | ].
  exists w'. rewrite Hrun, Hr. reflexivity.
Defined.

(** ** The text attributes *)

Lemma string_app_assoc (s1 s2 s3 : string) :
  ((s1 ++ s2) ++ s3 = s1 ++ (s2 ++ s3))%string.
Proof.
  induction s1 as [| c s1 IH]; cbn; [reflexivity | rewrite IH; reflexivity].
Qed.

Lemma string_app_nil_r (s : string) : (s ++ "")%string = s.
Proof.
  induction s as [| c s IH]; cbn; [reflexivity | rewrite IH; reflexivity].
Qed.

Lemma string_length_app (s1 s2 : string) :
  String.length (s1 ++ s2)%string
  = (String.length s1 + String.length s2)%nat.
Proof.
  induction s1 as [| c s1 IH]; cbn; [reflexivity | rewrite IH; reflexivity].
Qed.

Lemma prefix_tokens_length (n : nat) :
  String.length (prefix_tokens n) = (3 * n)%nat.
Proof.
  induction n as [| n IH]; [reflexivity | ].
  cbn [prefix_tokens]. rewrite string_length_app, IH. cbn. lia.
Qed.

Lemma land_bound (z : Z) (k : Z) :
  0 <= k -> 0 <= Z.land z (Z.ones k) < 2 ^ k.
Proof.
  intros Hk. rewrite Z.land_ones by exact Hk.
  apply Z.mod_pos_bound. apply Z.pow_pos_nonneg; lia.
Qed.

(** X11.  For every revision byte [revision_show] writes exactly four
    characters and returns 4: the digit of 1 plus bits 5..4, a dot, the
    digit of bits 3..1 and a newline; so the major revision shown is 1 to 4
    and the minor 0 to 7. *)
Theorem revision_show_format (revision : Z) :
  let major := Z.land (Z.shiftr revision 4) 3 in
  let minor := Z.land (Z.shiftr revision 1) 7 in
  0 <= major < 4 /\ 0 <= minor < 8 /\
  revision_show revision
  = (4, String (ascii_of_nat (49 + Z.to_nat major))
          (String "." (String (ascii_of_nat (48 + Z.to_nat minor)) newline))).
Proof.
  intros major minor.
  assert (Hmajor : 0 <= major < 4) by apply (land_bound _ 2 ltac:(lia)).
  assert (Hminor : 0 <= minor < 8) by apply (land_bound _ 3 ltac:(lia)).
  split; [exact Hmajor | ]. split; [exact Hminor | ].
  unfold revision_show. fold major. fold minor.
  assert (Hd : forall a b, 0 <= a < 4 -> 0 <= b < 8 ->
            (sprintf_d (1 + a) ++ "." ++ sprintf_d b ++ newline)%string
            = String (ascii_of_nat (49 + Z.to_nat a))
                (String "." (String (ascii_of_nat (48 + Z.to_nat b)) newline))).
  { intros a b Ha Hb.
    assert (Ha' : a = 0 \/ a = 1 \/ a = 2 \/ a = 3) by lia.
    assert (Hb' : b = 0 \/ b = 1 \/ b = 2 \/ b = 3 \/
                  b = 4 \/ b = 5 \/ b = 6 \/ b = 7) by lia.
    destruct Ha' as [-> | [-> | [-> | ->]]];
      destruct Hb' as [-> | [-> | [-> | [-> | [-> | [-> | [-> | ->]]]]]]];
      reflexivity. }
  rewrite (Hd major minor Hmajor Hminor). reflexivity.
Qed.

Lemma vendor_prefix_loop_spec (fuel : nat) :
  forall (pfx n : Z) (buf : string),
    0 <= pfx < 256 -> (Z.to_nat pfx < fuel)%nat ->
    0 <= n -> n + 3 * pfx < 2 ^ 31 ->
    vendor_prefix_loop fuel pfx n buf
    = Some (n + 3 * pfx, (buf ++ prefix_tokens (Z.to_nat pfx))%string).
Proof.
  induction fuel as [| fuel IH]; intros pfx n buf Hpfx Hfuel Hn Hsum; [lia | ].
  cbn [vendor_prefix_loop].
  destruct (Z.eqb_spec pfx 0) as [-> | Hnz].
  - cbn [Z.to_nat prefix_tokens]. rewrite string_app_nil_r.
    do 2 f_equal. lia.
  - rewrite (u8_small (pfx - 1)) by lia.
    rewrite (s32_small (n + 3)) by lia.
    rewrite IH by lia.
    replace (Z.to_nat pfx) with (S (Z.to_nat (pfx - 1))) by lia.
    cbn [prefix_tokens].
    rewrite string_app_assoc.
    f_equal. f_equal. lia.
Qed.

Lemma sprintf_02X_length (v : Z) :
  0 <= v < 256 -> String.length (sprintf_02X v) = 2%nat.
Proof.
  intros Hv. apply Nat.eqb_eq. revert v Hv.
  apply (forall_u8 (fun v => Nat.eqb (String.length (sprintf_02X v)) 2)).
  vm_compute. reflexivity.
Qed.

(** X12.  Given fuel for 128 iterations, [pmic_vendor_id_show] returns for
    every vendor word: the text is one "7F " for each unit of the low seven
    bits of the low byte, then the two upper-case hexadecimal digits of the
    low seven bits of the high byte, then a newline; the value returned is
    the length of that text, three times the prefix count plus three, at
    most 384. *)
Theorem pmic_vendor_id_show_format (fuel : nat) (vendor : Z) :
  (128 <= fuel)%nat ->
  let pfx := Z.land vendor 0x7f in
  let id := Z.land (Z.shiftr vendor 8) 0x7f in
  exists out,
    pmic_vendor_id_show fuel vendor = Some (3 * pfx + 3, out) /\
    out = (prefix_tokens (Z.to_nat pfx) ++ sprintf_02X id ++ newline)%string /\
    String.length (sprintf_02X id) = 2%nat /\
    Z.of_nat (String.length out) = 3 * pfx + 3 /\
    3 * pfx + 3 <= 384.
Proof.
  intros Hfuel pfx id.
  assert (Hpfx : 0 <= pfx < 128) by apply (land_bound _ 7 ltac:(lia)).
  assert (Hid : 0 <= id < 128) by apply (land_bound _ 7 ltac:(lia)).
  assert (Hlen : String.length (sprintf_02X id) = 2%nat)
    by (apply sprintf_02X_length; lia).
  unfold pmic_vendor_id_show. fold pfx. fold id.
  rewrite (u8_small pfx), (u8_small id) by lia.
  rewrite (vendor_prefix_loop_spec fuel pfx 0 EmptyString) by lia.
  cbn [append].
  exists (prefix_tokens (Z.to_nat pfx) ++ sprintf_02X id ++ newline)%string.
  assert (Htail : String.length (sprintf_02X id ++ newline)%string = 3%nat).
  { rewrite string_length_app, Hlen. reflexivity. }
  split.
  { rewrite Htail, s32_small by lia. do 2 f_equal. }
  split; [reflexivity | ]. split; [exact Hlen | ].
  split; [ | lia].
  rewrite string_length_app, prefix_tokens_length, Htail. lia.
Qed.

Lemma pmic_vendor_id_show_format_witness :
  exists out,
    pmic_vendor_id_show 128 0x8A02
      = Some (3 * Z.land 0x8A02 0x7f + 3, out) /\
    out = (prefix_tokens (Z.to_nat (Z.land 0x8A02 0x7f))
           ++ sprintf_02X (Z.land (Z.shiftr 0x8A02 8) 0x7f) ++ newline)%string /\
    String.length (sprintf_02X (Z.land (Z.shiftr 0x8A02 8) 0x7f)) = 2%nat /\
    Z.of_nat (String.length out) = 3 * Z.land 0x8A02 0x7f + 3 /\
    3 * Z.land 0x8A02 0x7f + 3 <= 384.
Proof.
  apply (pmic_vendor_id_show_format 128 0x8A02). lia.
Defined.

Lemma pmic_vendor_id_show_text (fuel : nat) (vendor : Z) :
  (128 <= fuel)%nat ->
  pmic_vendor_id_show fuel vendor
  = Some (3 * Z.land vendor 0x7f + 3,
          (prefix_tokens (Z.to_nat (Z.land vendor 0x7f))
           ++ sprintf_02X (Z.land (Z.shiftr vendor 8) 0x7f) ++ newline)%string).
Proof.
  intros Hfuel.
  set (pfx := Z.land vendor 0x7f).
  set (id := Z.land (Z.shiftr vendor 8) 0x7f).
  assert (Hpfx : 0 <= pfx < 128) by apply (land_bound _ 7 ltac:(lia)).
  assert (Hid : 0 <= id < 128) by apply (land_bound _ 7 ltac:(lia)).
  unfold pmic_vendor_id_show. fold pfx. fold id.
  rewrite (u8_small pfx), (u8_small id) by lia.
  rewrite (vendor_prefix_loop_spec fuel pfx 0 EmptyString) by lia.
  cbn [append].
  assert (Htail : String.length (sprintf_02X id ++ newline)%string = 3%nat).
  { rewrite string_length_app, sprintf_02X_length by lia. reflexivity. }
  rewrite Htail, s32_small by lia.
  do 2 f_equal.
Qed.

Lemma string_app_inv_head (s s1 s2 : string) :
  (s ++ s1 = s ++ s2)%string -> s1 = s2.
Proof.
  induction s as [| c s IH]; cbn; [trivial | ].
  intros [= H]. exact (IH H).
Qed.

Lemma hex_pair_of_sprintf (v : Z) :
  0 <= v < 256 -> hex_pair_value (sprintf_02X v ++ newline)%string = v.
Proof.
  intros Hv. apply Z.eqb_eq. revert v Hv.
  apply (forall_u8
           (fun v => hex_pair_value (sprintf_02X v ++ newline)%string =? v)).
  vm_compute. reflexivity.
Qed.

(** X13.  The text of [pmic_vendor_id_show] identifies what it shows: two
    vendor words give the same text only if they have the same prefix count
    (low seven bits of the low byte) and the same id (low seven bits of the
    high byte). *)
Theorem pmic_vendor_id_show_injective (fuel : nat) (v1 v2 : Z) :
  (128 <= fuel)%nat ->
  pmic_vendor_id_show fuel v1 = pmic_vendor_id_show fuel v2 ->
  Z.land v1 0x7f = Z.land v2 0x7f /\
  Z.land (Z.shiftr v1 8) 0x7f = Z.land (Z.shiftr v2 8) 0x7f.
Proof.
  intros Hfuel Heq.
  rewrite !pmic_vendor_id_show_text in Heq by exact Hfuel.
  pose proof (f_equal (fun o : option (Z * string) =>
                         match o with Some (n, _) => n | None => 0 end) Heq)
    as Hn.
  pose proof (f_equal (fun o : option (Z * string) =>
                         match o with Some (_, s) => s | None => EmptyString end)
                Heq) as Hout.
  cbv beta iota in Hn, Hout.
  assert (Hpfx : Z.land v1 0x7f = Z.land v2 0x7f) by lia.
  split; [exact Hpfx | ].
  rewrite Hpfx in Hout. apply string_app_inv_head in Hout.
  pose proof (land_bound (Z.shiftr v1 8) 7 ltac:(lia)) as H1.
  pose proof (land_bound (Z.shiftr v2 8) 7 ltac:(lia)) as H2.
  change (Z.ones 7) with 0x7f in H1, H2. change (2 ^ 7) with 128 in H1, H2.
  rewrite <- (hex_pair_of_sprintf (Z.land (Z.shiftr v1 8) 0x7f)) by lia.
  rewrite <- (hex_pair_of_sprintf (Z.land (Z.shiftr v2 8) 0x7f)) by lia.
  rewrite Hout. reflexivity.
Qed.

Lemma pmic_vendor_id_show_injective_witness :
  Z.land 0x8A02 0x7f = Z.land 0x0A82 0x7f /\
  Z.land (Z.shiftr 0x8A02 8) 0x7f = Z.land (Z.shiftr 0x0A82 8) 0x7f.
Proof.
  apply (pmic_vendor_id_show_injective 128 0x8A02 0x0A82).
  - lia.
  - vm_compute. reflexivity.
Defined.

(** ** Every hwmon call returns *)

(** A call made of one transfer between lock and unlock, then a return. *)
Lemma locked_transfer_run {A : Type} (t : tid) (w : world) (op : bus_op)
  (g : Z -> prog A) (a : Z -> A) :
  (forall s, g s = Ret (a s)) ->
  update_lock (data w) = None ->
  exists status w',
    run t (Vis MutexLock (fun _ =>
           Vis (Smbus op) (fun r =>
           Vis MutexUnlock (fun _ => g (fst r))))) w
      = Some (a status, w') /\
    log w' = log w ++ [(t, EvLock); (t, EvBus op status); (t, EvUnlock)] /\
    update_lock (data w') = None /\
    current_page (data w') = current_page (data w) /\
    status = match pending_fault w with
             | Some e => fail_status e
             | None => fst (fst (smbus_success (device w) op))
             end.
Proof.
  intros Hg Hfree.
  cbn [run exec]. rewrite Hfree.
  set (w1 := with_lock (Some t) (t, EvLock) w).
  assert (Hpend : pending_fault w1 = pending_fault w) by reflexivity.
  destruct (pending_fault w) as [e | ] eqn:Hp.
  - rewrite (smbus_xfer_fault t op w1 e Hpend).
    cbn [fst]. rewrite Hg. cbn [run].
    eexists. eexists. split; [reflexivity | ].
    cbn [log with_lock w1 data update_lock current_page].
    rewrite <- !app_assoc. repeat split.
  - rewrite (smbus_xfer_ok t op w1 Hpend).
    cbn [fst]. rewrite Hg. cbn [run].
    eexists. eexists. split; [reflexivity | ].
    cbn [log with_lock w1 data update_lock current_page].
    rewrite <- !app_assoc. repeat split.
Qed.

Lemma write_status_nonpos (c : chip) (op : bus_op) (w : world) :
  (exists command value, op = WriteByteData command value) \/
  (exists command value, op = WriteWordData command value) ->
  match pending_fault w with
  | Some e => fail_status e
  | None => fst (fst (smbus_success c op))
  end <= 0.
Proof.
  intros Hop.
  destruct (pending_fault w) as [e | ].
  - pose proof (fail_status_range e). lia.
  - destruct Hop as [[command [value ->]] | [command [value ->]]]; cbn; lia.
Qed.

(** The shape of a log a hwmon call leaves: nothing, or one transfer
    between taking and releasing the mutex. *)
Lemma hwmon_read_returns (type : hwmon_sensor_types)
  (attr : hwmon_temp_attributes) (channel : Z) (t : tid) (w : world) :
  update_lock (data w) = None ->
  exists r w' l,
    run t (spd5118_read type attr channel) w = Some (r, w') /\
    log w' = log w ++ l /\
    update_lock (data w') = None /\
    (l = [] \/ exists op status,
       l = [(t, EvLock); (t, EvBus op status); (t, EvUnlock)]) /\
    fst r <= 0 /\
    (fst r = 0 <-> snd r <> None).
Proof.
  intros Hfree.
  assert (Hrefused :
    spd5118_read type attr channel = Ret (- EOPNOTSUPP, None) ->
    exists r w' l,
      run t (spd5118_read type attr channel) w = Some (r, w') /\
      log w' = log w ++ l /\ update_lock (data w') = None /\
      (l = [] \/ exists op status,
         l = [(t, EvLock); (t, EvBus op status); (t, EvUnlock)]) /\
      fst r <= 0 /\ (fst r = 0 <-> snd r <> None)).
  { intros ->. exists (- EOPNOTSUPP, None), w, []. rewrite app_nil_r.
    split; [reflexivity | ]. split; [reflexivity | ].
    split; [exact Hfree | ]. split; [left; reflexivity | ].
    split; [cbn; lia | ].
    split; [discriminate | intros H; exfalso; apply H; reflexivity]. }
  assert (Hlocked :
    forall op (a : Z -> option Z),
      spd5118_read type attr channel =
        Vis MutexLock (fun _ =>
        Vis (Smbus op) (fun r =>
        Vis MutexUnlock (fun _ =>
          if fst r <? 0 then Ret (fst r, None)
          else Ret (0, a (fst r))))) ->
      (forall s, a s <> None) ->
      exists r w' l,
        run t (spd5118_read type attr channel) w = Some (r, w') /\
        log w' = log w ++ l /\ update_lock (data w') = None /\
        (l = [] \/ exists op status,
           l = [(t, EvLock); (t, EvBus op status); (t, EvUnlock)]) /\
        fst r <= 0 /\ (fst r = 0 <-> snd r <> None)).
  { intros op a -> Ha.
    destruct (locked_transfer_run t w op
                (fun s => if s <? 0 then Ret (s, None) else Ret (0, a s))
                (fun s => if s <? 0 then (s, None) else (0, a s))
                ltac:(intros s; cbv beta; destruct (s <? 0); reflexivity) Hfree)
      as [status [w' [Hrun [Hlog [Hlock _]]]]].
    eexists. exists w'. eexists.
    split; [exact Hrun | ]. split; [exact Hlog | ]. split; [exact Hlock | ].
    split; [right; eexists; eexists; reflexivity | ].
    destruct (Z.ltb_spec status 0) as [Hneg | Hpos]; cbn [fst snd].
    - split; [lia | ].
      split; [lia | intros Hsome; exfalso; apply Hsome; reflexivity].
    - split; [lia | ]. split; [intros _; apply Ha | reflexivity]. }
  destruct type; try (apply Hrefused; reflexivity).
  destruct attr; try (apply Hrefused; reflexivity);
    first
      [ eapply (Hlocked _ (fun s => Some (spd5118_temp_from_reg (u16 s))));
        [reflexivity | intros s; discriminate]
      | eapply (Hlocked _ (fun s => Some (if Z.land s _ =? 0 then 0 else 1)));
        [reflexivity | intros s; discriminate] ].
Qed.

Lemma hwmon_write_returns (cfg : module_params) (type : hwmon_sensor_types)
  (attr : hwmon_temp_attributes) (channel val : Z) (t : tid) (w : world) :
  update_lock (data w) = None ->
  exists r w' l,
    run t (spd5118_write cfg type attr channel val) w = Some (r, w') /\
    log w' = log w ++ l /\
    update_lock (data w') = None /\
    (l = [] \/ exists op status,
       l = [(t, EvLock); (t, EvBus op status); (t, EvUnlock)]) /\
    r <= 0.
Proof.
  intros Hfree.
  assert (Hrefused :
    forall err, 0 <= err ->
    spd5118_write cfg type attr channel val = Ret (- err) ->
    exists r w' l,
      run t (spd5118_write cfg type attr channel val) w = Some (r, w') /\
      log w' = log w ++ l /\ update_lock (data w') = None /\
      (l = [] \/ exists op status,
         l = [(t, EvLock); (t, EvBus op status); (t, EvUnlock)]) /\
      r <= 0).
  { intros err Herr ->. exists (- err), w, []. rewrite app_nil_r.
    split; [reflexivity | ]. split; [reflexivity | ].
    split; [exact Hfree | ]. split; [left; reflexivity | lia]. }
  assert (Hlocked :
    forall op,
      (exists command value, op = WriteByteData command value) \/
      (exists command value, op = WriteWordData command value) ->
      spd5118_write cfg type attr channel val =
        Vis MutexLock (fun _ =>
        Vis (Smbus op) (fun r =>
        Vis MutexUnlock (fun _ => Ret (fst r)))) ->
      exists r w' l,
        run t (spd5118_write cfg type attr channel val) w = Some (r, w') /\
        log w' = log w ++ l /\ update_lock (data w') = None /\
        (l = [] \/ exists op status,
           l = [(t, EvLock); (t, EvBus op status); (t, EvUnlock)]) /\
        r <= 0).
  { intros op Hop ->.
    destruct (locked_transfer_run t w op (fun s => Ret s) (fun s => s)
                ltac:(reflexivity) Hfree)
      as [status [w' [Hrun [Hlog [Hlock [_ Hstatus]]]]]].
    exists status, w'. eexists.
    split; [exact Hrun | ]. split; [exact Hlog | ]. split; [exact Hlock | ].
    split; [right; eexists; eexists; reflexivity | ].
    rewrite Hstatus. apply write_status_nonpos. exact Hop. }
  destruct (is_visible_cases cfg type attr channel)
    as [[-> [-> _]] | [[-> [Hattr _]] | [[-> [Hattr _]] | [_ [_ Hw]]]]].
  - apply (Hrefused EOPNOTSUPP); [cbv; congruence | reflexivity].
  - destruct (temp_reg_writable_threshold attr Hattr) as [reg [Hreg _]].
    destruct (enable_temp_write cfg) eqn:Hon.
    + eapply Hlocked;
        [ | rewrite (write_threshold_prog cfg attr channel val Hattr);
            unfold spd5118_write_temp; rewrite Hon, Hreg; reflexivity ].
      right. eexists. eexists. reflexivity.
    + apply (Hrefused EOPNOTSUPP); [cbv; congruence | ].
      rewrite (write_threshold_prog cfg attr channel val Hattr).
      unfold spd5118_write_temp. rewrite Hon. reflexivity.
  - destruct (Z.eq_dec val 0) as [-> | Hnz].
    + destruct (enable_alarm_write cfg) eqn:Hon.
      * eapply Hlocked;
          [ | rewrite (write_alarm_zero_prog_or_refusal cfg attr channel Hattr);
              rewrite Hon; reflexivity ].
        left. eexists. eexists. reflexivity.
      * apply (Hrefused EOPNOTSUPP); [cbv; congruence | ].
        rewrite (write_alarm_zero_prog_or_refusal cfg attr channel Hattr).
        rewrite Hon. reflexivity.
    + apply (Hrefused EINVAL); [cbv; congruence | ].
      apply write_alarm_nonzero_ret; assumption.
  - apply (Hrefused EOPNOTSUPP); [cbv; congruence | apply Hw].
Qed.

(** X14.  Called with the mutex free, every hwmon read and write returns,
    whatever the type, attribute and value and whatever the bus does; it
    leaves the mutex free and has issued no transfer at all, or exactly one
    between taking and releasing the mutex.  The result is 0 or a negative
    errno, and a read stores a value exactly when it returns 0. *)
Theorem hwmon_calls_return
  (cfg : module_params) (type : hwmon_sensor_types)
  (attr : hwmon_temp_attributes) (channel val : Z) (t : tid) (w : world) :
  update_lock (data w) = None ->
  (exists r w' l,
     run t (spd5118_read type attr channel) w = Some (r, w') /\
     log w' = log w ++ l /\
     update_lock (data w') = None /\
     (l = [] \/ exists op status,
        l = [(t, EvLock); (t, EvBus op status); (t, EvUnlock)]) /\
     fst r <= 0 /\
     (fst r = 0 <-> snd r <> None))
  /\
  (exists r w' l,
     run t (spd5118_write cfg type attr channel val) w = Some (r, w') /\
     log w' = log w ++ l /\
     update_lock (data w') = None /\
     (l = [] \/ exists op status,
        l = [(t, EvLock); (t, EvBus op status); (t, EvUnlock)]) /\
     r <= 0).
Proof.
  intros Hfree. split.
  - apply hwmon_read_returns. exact Hfree.
  - apply hwmon_write_returns. exact Hfree.
Qed.

Lemma hwmon_calls_return_witness :
  (exists r w' l,
     run 0%nat (spd5118_read hwmon_temp hwmon_temp_min 0) (sample_world [Some errno_EIO])
       = Some (r, w') /\
     log w' = log (sample_world [Some errno_EIO]) ++ l /\
     update_lock (data w') = None /\
     (l = [] \/ exists op status,
        l = [(0%nat, EvLock); (0%nat, EvBus op status); (0%nat, EvUnlock)]) /\
     fst r <= 0 /\
     (fst r = 0 <-> snd r <> None))
  /\
  (exists r w' l,
     run 0%nat (spd5118_write (params true true) hwmon_temp hwmon_temp_min 0 (-5000))
       (sample_world [Some errno_EIO]) = Some (r, w') /\
     log w' = log (sample_world [Some errno_EIO]) ++ l /\
     update_lock (data w') = None /\
     (l = [] \/ exists op status,
        l = [(0%nat, EvLock); (0%nat, EvBus op status); (0%nat, EvUnlock)]) /\
     r <= 0).
Proof.
  apply (hwmon_calls_return (params true true) hwmon_temp hwmon_temp_min 0 (-5000)
           0%nat (sample_world [Some errno_EIO])).
  reflexivity.
Defined.

(** ** No call is ever stuck *)



(** ** The page cache across bulk reads *)

(** A call of [spd5118_eeprom_read] that does not fail leaves the page of
    its offset cached. *)
Lemma spd5118_eeprom_read_caches (t : tid) (w w' : world) (off count : Z)
  (r : Z * list Z) :
  0 <= off -> 0 < count -> off + count <= SPD5118_EEPROM_SIZE ->
  run t (spd5118_eeprom_read (u32 off) count) w = Some (r, w') ->
  0 <= fst r ->
  current_page (data w') = off / 128.
Proof.
  intros Hoff Hcount Hend Hrun Hok.
  destruct (eeprom_offset_arith off count Hoff Hcount Hend)
    as [Hu32 [Hpage [Hintra _]]].
  rewrite Hu32 in Hrun. unfold spd5118_eeprom_read in Hrun.
  rewrite Hpage, Hintra, run_bind in Hrun.
  destruct (Z.eq_dec (off / 128) (current_page (data w))) as [Hcached | Hother].
  - rewrite (set_current_page_cached t w _ Hcached) in Hrun.
    cbn [Z.eqb negb] in Hrun.
    destruct (block_read_run t w (SPD5118_EEPROM_BASE + off mod 128)
                (page_clamp (off mod 128) count))
      as [r' [w'' [Hrun' [_ [Hdata _]]]]].
    rewrite Hrun' in Hrun. injection Hrun as _ <-.
    rewrite Hdata. symmetry. exact Hcached.
  - destruct (pending_fault w) as [e | ] eqn:Hp.
    + rewrite (set_current_page_fault t w _ e Hother Hp) in Hrun.
      rewrite fail_status_eqb in Hrun. cbn [negb run] in Hrun.
      injection Hrun as <- _. cbn [fst] in Hok.
      pose proof (fail_status_range e). lia.
    + rewrite (set_current_page_ok t w _ Hother Hp) in Hrun.
      cbn [Z.eqb negb] in Hrun.
      match type of Hrun with
      | run t _ ?w1 = _ =>
          destruct (block_read_run t w1 (SPD5118_EEPROM_BASE + off mod 128)
                      (page_clamp (off mod 128) count))
            as [r' [w'' [Hrun' [_ [Hdata _]]]]]
      end.
      rewrite Hrun' in Hrun. injection Hrun as _ <-.
      rewrite Hdata. reflexivity.
Qed.

Lemma same_page_last (off n : Z) :
  0 <= off -> 0 < n <= 128 - off mod 128 -> (off + n - 1) / 128 = off / 128.
Proof.
  intros Hoff Hn.
  pose proof (Z.mod_pos_bound off 128 ltac:(lia)) as Hm.
  pose proof (Z.div_mod off 128 ltac:(lia)) as Hdm.
  symmetry. apply Z.div_unique with (r := off mod 128 + n - 1); lia.
Qed.

Lemma eeprom_read_loop_caches (t : tid) (fuel : nat) :
  forall (w w' : world) (buf out : list Z) (off count ret0 ret : Z),
    0 <= off -> 0 < count -> off + count <= SPD5118_EEPROM_SIZE ->
    (Z.to_nat count <= fuel)%nat ->
    coherent w ->
    run t (eeprom_read_loop fuel buf off count ret0) w = Some ((ret, out), w') ->
    0 <= ret ->
    current_page (data w') = (off + count - 1) / 128.
Proof.
  induction fuel as [| fuel IH];
    intros w w' buf out off count ret0 ret Hoff Hcount Hend Hfuel Hcoh Hrun Hok;
    [lia | ].
  cbn [eeprom_read_loop] in Hrun.
  destruct (Z.eqb_spec count 0) as [Hz | _]; [lia | ].
  destruct (spd5118_eeprom_read_step t w off count Hoff Hcount Hend Hcoh)
    as [r [w1 [l1 [Hrun1 [_ [_ [Hcoh1 [_ [_ Hres1]]]]]]]]].
  rewrite run_bind, Hrun1 in Hrun.
  pose proof (Z.mod_pos_bound off 128 ltac:(lia)) as Hm.
  assert (Hs32 : s32 (fst r) = fst r).
  { apply s32_small. unfold MAX_ERRNO in Hres1.
    destruct Hres1 as [[Hr _] | [Hr _]]; lia. }
  rewrite Hs32 in Hrun.
  destruct Hres1 as [[Hneg _] | [Hn _]].
  - destruct (Z.ltb_spec (fst r) 0) as [_ | Hge]; [ | lia].
    cbn [run] in Hrun. injection Hrun as <- _ _. lia.
  - destruct (Z.ltb_spec (fst r) 0) as [Hlt | _]; [lia | ].
    assert (Hpage1 : current_page (data w1) = off / 128).
    { apply (spd5118_eeprom_read_caches t w w1 off count r); try assumption.
      lia. }
    assert (Hu64 : u64 (count - fst r) = count - fst r).
    { unfold u64. apply Z.mod_small.
      unfold SPD5118_EEPROM_SIZE, SPD5118_PAGE_SIZE, SPD5118_NUM_PAGES in Hend.
      lia. }
    rewrite Hu64 in Hrun.
    destruct (Z.eq_dec (count - fst r) 0) as [Hdone | Hmore].
    + (* that was the last call *)
      rewrite Hdone in Hrun.
      assert (Hret : run t (eeprom_read_loop fuel (buf ++ snd r)
                              (off + fst r) 0 (fst r)) w1
                     = Some ((fst r, buf ++ snd r), w1))
        by (destruct fuel; reflexivity).
      rewrite Hret in Hrun. injection Hrun as _ _ <-.
      rewrite Hpage1. symmetry. apply same_page_last; lia.
    + replace (off + count - 1) with ((off + fst r) + (count - fst r) - 1)
        by lia.
      apply (IH w1 w' (buf ++ snd r) out (off + fst r) (count - fst r)
               (fst r) ret); try assumption; lia.
Qed.

(** X16.  A bulk read of at least one byte inside the EEPROM that succeeds
    leaves the page of the last byte read cached, in agreement with the
    chip. *)
Theorem eeprom_read_caches_last_page
  (t : tid) (w w' : world) (fuel : nat) (off count ret : Z) (buf : list Z) :
  0 <= off -> 0 < count -> off + count <= SPD5118_EEPROM_SIZE ->
  (Z.to_nat count <= fuel)%nat ->
  coherent w ->
  run t (eeprom_read fuel off count) w = Some ((ret, buf), w') ->
  0 <= ret ->
  current_page (data w') = (off + count - 1) / 128 /\
  chip_page (device w') = (off + count - 1) / 128.
Proof.
  intros Hoff Hcount Hend Hfuel Hcoh Hrun Hok.
  unfold eeprom_read in Hrun.
  cbn [bind mutex_lock call run exec] in Hrun.
  destruct (update_lock (data w)); [discriminate Hrun | ].
  set (w0 := with_lock (Some t) (t, EvLock) w) in Hrun.
  assert (Hcoh0 : coherent w0) by exact Hcoh.
  destruct (eeprom_read_loop_spec t fuel w0 [] off count 0
              Hoff (Z.lt_le_incl _ _ Hcount) Hend Hfuel Hcoh0 (Z.le_refl 0))
    as [ret1 [out [w1 [l [Hrun1 [_ [_ [Hcoh1 _]]]]]]]].
  fold (@bind (Z * list Z) (Z * list Z)) in Hrun.
  rewrite run_bind, Hrun1 in Hrun.
  cbn [bind mutex_unlock call run exec fst snd] in Hrun.
  injection Hrun as Hret _ <-.
  assert (Hok1 : 0 <= ret1).
  { destruct (Z.ltb_spec ret1 0); lia. }
  pose proof (eeprom_read_loop_caches t fuel w0 w1 [] out off count 0 ret1
                Hoff Hcount Hend Hfuel Hcoh0 Hrun1 Hok1) as Hpage.
  cbn [with_lock data device current_page].
  split; [exact Hpage | ].
  destruct Hcoh1 as [Hunknown | Hsame].
  - assert (0 <= (off + count - 1) / 128) by (apply Z.div_pos; lia). lia.
  - rewrite <- Hsame. exact Hpage.
Qed.

Lemma eeprom_read_caches_last_page_witness :
  exists w' ret buf,
    run 0%nat (eeprom_read 50 120 50) (sample_world []) = Some ((ret, buf), w') /\
    current_page (data w') = (120 + 50 - 1) / 128 /\
    chip_page (device w') = (120 + 50 - 1) / 128.
Proof.
  eexists. eexists. eexists.
  split; [vm_compute; reflexivity | ].
  eapply (eeprom_read_caches_last_page 0%nat (sample_world []) _ 50 120 50).
  - lia.
  - lia.
  - unfold SPD5118_EEPROM_SIZE, SPD5118_PAGE_SIZE, SPD5118_NUM_PAGES. lia.
  - vm_compute. lia.
  - left. reflexivity.
  - vm_compute. reflexivity.
  - lia.
Defined.

(** A call of [spd5118_eeprom_read] that finds its page cached issues the
    block read only. *)
Lemma spd5118_eeprom_read_cached (t : tid) (w : world) (off count : Z) :
  0 <= off -> 0 < count -> off + count <= SPD5118_EEPROM_SIZE ->
  current_page (data w) = off / 128 ->
  exists r w' command length,
    run t (spd5118_eeprom_read (u32 off) count) w = Some (r, w') /\
    log w' = log w ++ [(t, EvBus (ReadI2cBlockData command length) (fst r))] /\
    data w' = data w /\
    device w' = device w /\
    (- MAX_ERRNO <= fst r < 0 \/
     fst r = Z.min (Z.min count (128 - off mod 128)) 32).
Proof.
  intros Hoff Hcount Hend Hcached.
  destruct (eeprom_offset_arith off count Hoff Hcount Hend)
    as [Hu32 [Hpage [Hintra [_ [Hirange Hclamp]]]]].
  rewrite Hu32. unfold spd5118_eeprom_read.
  rewrite Hpage, Hintra, Hclamp, run_bind.
  rewrite (set_current_page_cached t w _ (eq_sym Hcached)).
  cbn [Z.eqb negb].
  destruct (block_read_run t w (SPD5118_EEPROM_BASE + off mod 128)
              (Z.min count (128 - off mod 128)))
    as [r [w' [Hrun [Hlog [Hdata [Hdev [_ Hr]]]]]]].
  exists r, w'. eexists. eexists.
  split; [exact Hrun | ]. split; [exact Hlog | ].
  split; [exact Hdata | ]. split; [exact Hdev | ].
  destruct (pending_fault w) as [e | ].
  - left. subst r. cbn [fst]. apply fail_status_range.
  - right. subst r. cbn [smbus_success fst].
    rewrite (u8_small (Z.min count (128 - off mod 128))) by lia.
    reflexivity.
Qed.

Lemma same_page_between (off n count : Z) :
  0 <= off -> 0 < n -> n < count ->
  (off + count - 1) / 128 = off / 128 ->
  (off + n) / 128 = off / 128 /\
  (off + n + (count - n) - 1) / 128 = (off + n) / 128.
Proof.
  intros Hoff Hn Hlt Hsame.
  assert (Hlo : off / 128 <= (off + n) / 128)
    by (apply Z.div_le_mono; lia).
  assert (Hhi : (off + n) / 128 <= (off + count - 1) / 128)
    by (apply Z.div_le_mono; lia).
  replace (off + n + (count - n) - 1) with (off + count - 1) by lia.
  lia.
Qed.

Lemma eeprom_read_loop_cached (t : tid) (fuel : nat) :
  forall (w : world) (buf : list Z) (off count ret0 : Z),
    0 <= off -> 0 < count -> off + count <= SPD5118_EEPROM_SIZE ->
    (Z.to_nat count <= fuel)%nat ->
    (off + count - 1) / 128 = off / 128 ->
    current_page (data w) = off / 128 ->
    exists r w' l,
      run t (eeprom_read_loop fuel buf off count ret0) w = Some (r, w') /\
      log w' = log w ++ l /\
      data w' = data w /\
      Forall (is_block_read t) l.
Proof.
  induction fuel as [| fuel IH];
    intros w buf off count ret0 Hoff Hcount Hend Hfuel Hsame Hcached; [lia | ].
  cbn [eeprom_read_loop].
  destruct (Z.eqb_spec count 0) as [Hz | _]; [lia | ].
  destruct (spd5118_eeprom_read_cached t w off count Hoff Hcount Hend Hcached)
    as [r [w1 [command [length [Hrun1 [Hlog1 [Hdata1 [_ Hres1]]]]]]]].
  rewrite run_bind, Hrun1.
  pose proof (Z.mod_pos_bound off 128 ltac:(lia)) as Hm.
  assert (Hs32 : s32 (fst r) = fst r).
  { apply s32_small. unfold MAX_ERRNO in Hres1. lia. }
  rewrite Hs32.
  assert (Hev : Forall (is_block_read t)
                  [(t, EvBus (ReadI2cBlockData command length) (fst r))]).
  { constructor; [ | constructor]. eexists. eexists. eexists. reflexivity. }
  destruct (Z.ltb_spec (fst r) 0) as [Hneg | Hge].
  - cbn [run]. eexists. exists w1. eexists.
    split; [reflexivity | ]. split; [exact Hlog1 | ].
    split; [exact Hdata1 | exact Hev].
  - destruct Hres1 as [Hbad | Hn]; [lia | ].
    assert (Hu64 : u64 (count - fst r) = count - fst r).
    { unfold u64. apply Z.mod_small.
      unfold SPD5118_EEPROM_SIZE, SPD5118_PAGE_SIZE, SPD5118_NUM_PAGES in Hend.
      lia. }
    rewrite Hu64.
    destruct (Z.eq_dec (count - fst r) 0) as [Hdone | Hmore].
    + rewrite Hdone.
      assert (Hret : run t (eeprom_read_loop fuel (buf ++ snd r)
                              (off + fst r) 0 (fst r)) w1
                     = Some ((fst r, buf ++ snd r), w1))
        by (destruct fuel; reflexivity).
      rewrite Hret. eexists. exists w1. eexists.
      split; [reflexivity | ]. split; [exact Hlog1 | ].
      split; [exact Hdata1 | exact Hev].
    + destruct (same_page_between off (fst r) count) as [Hp1 Hp2];
        try assumption; try lia.
      destruct (IH w1 (buf ++ snd r) (off + fst r) (count - fst r) (fst r))
        as [r2 [w2 [l2 [Hrun2 [Hlog2 [Hdata2 Hev2]]]]]];
        try lia; try assumption.
      { rewrite Hdata1, Hp1. exact Hcached. }
      exists r2, w2. eexists.
      split; [exact Hrun2 | ].
      split; [rewrite Hlog2, Hlog1, <- app_assoc; reflexivity | ].
      split; [congruence | ].
      apply Forall_app. split; [exact Hev | exact Hev2].
Qed.

(** X17.  A bulk read that lies inside one page and finds that page cached
    issues no page-select write: between taking and releasing the mutex it
    logs block reads only, and the cached page stays as it was. *)
Theorem eeprom_read_cached_page_no_select
  (t : tid) (w : world) (fuel : nat) (off count : Z) :
  0 <= off -> 0 < count -> off + count <= SPD5118_EEPROM_SIZE ->
  (Z.to_nat count <= fuel)%nat ->
  update_lock (data w) = None ->
  (off + count - 1) / 128 = off / 128 ->
  current_page (data w) = off / 128 ->
  exists r w' l,
    run t (eeprom_read fuel off count) w = Some (r, w') /\
    log w' = log w ++ (t, EvLock) :: l ++ [(t, EvUnlock)] /\
    Forall (is_block_read t) l /\
    current_page (data w') = off / 128.
Proof.
  intros Hoff Hcount Hend Hfuel Hfree Hsame Hcached.
  unfold eeprom_read.
  cbn [bind mutex_lock call run exec]. rewrite Hfree.
  set (w0 := with_lock (Some t) (t, EvLock) w).
  destruct (eeprom_read_loop_cached t fuel w0 [] off count 0
              Hoff Hcount Hend Hfuel Hsame Hcached)
    as [r [w1 [l [Hrun [Hlog [Hdata Hev]]]]]].
  fold (@bind (Z * list Z) (Z * list Z)).
  rewrite run_bind, Hrun.
  cbn [bind mutex_unlock call run exec].
  eexists. eexists. exists l.
  split; [reflexivity | ].
  split.
  { cbn [log with_lock]. rewrite Hlog. cbn [w0 log with_lock].
    rewrite <- !app_assoc. reflexivity. }
  split; [exact Hev | ].
  cbn [with_lock data current_page]. rewrite Hdata. exact Hcached.
Qed.

Lemma eeprom_read_cached_page_no_select_witness :
  exists r w' l,
    run 0%nat (eeprom_read 16 (3 * 128 + 10) 16) world_on_page_3 = Some (r, w') /\
    log w' = log world_on_page_3 ++ (0%nat, EvLock) :: l ++ [(0%nat, EvUnlock)] /\
    Forall (is_block_read 0%nat) l /\
    current_page (data w') = (3 * 128 + 10) / 128.
Proof.
  apply (eeprom_read_cached_page_no_select 0%nat world_on_page_3 16 (3 * 128 + 10) 16).
  - lia.
  - lia.
  - unfold SPD5118_EEPROM_SIZE, SPD5118_PAGE_SIZE, SPD5118_NUM_PAGES. lia.
  - vm_compute. lia.
  - reflexivity.
  - reflexivity.
  - reflexivity.
Defined.

(** A call of [spd5118_eeprom_read] for a page that is not the cached one
    logs the page-select write first. *)
Lemma spd5118_eeprom_read_selects_first (t : tid) (w w' : world)
  (off count : Z) (r : Z * list Z) :
  0 <= off -> 0 < count -> off + count <= SPD5118_EEPROM_SIZE ->
  off / 128 <> current_page (data w) ->
  run t (spd5118_eeprom_read (u32 off) count) w = Some (r, w') ->
  exists status l,
    log w' = log w ++
      (t, EvBus (WriteByteData SPD5118_REG_I2C_LEGACY_MODE (off / 128)) status)
      :: l.
Proof.
  intros Hoff Hcount Hend Hother Hrun.
  destruct (eeprom_offset_arith off count Hoff Hcount Hend)
    as [Hu32 [Hpage [Hintra [Hprange _]]]].
  rewrite Hu32 in Hrun. unfold spd5118_eeprom_read in Hrun.
  rewrite Hpage, Hintra, run_bind in Hrun.
  destruct (pending_fault w) as [e | ] eqn:Hp.
  - rewrite (set_current_page_fault t w _ e Hother Hp) in Hrun.
    rewrite fail_status_eqb in Hrun. cbn [negb run] in Hrun.
    injection Hrun as _ <-. cbn [log].
    rewrite (u8_small (off / 128)) by lia.
    eexists. exists []. reflexivity.
  - rewrite (set_current_page_ok t w _ Hother Hp) in Hrun.
    cbn [Z.eqb negb] in Hrun.
    match type of Hrun with
    | run t _ ?w1 = _ =>
        destruct (block_read_run t w1 (SPD5118_EEPROM_BASE + off mod 128)
                    (page_clamp (off mod 128) count))
          as [r' [w'' [Hrun' [Hlog _]]]]
    end.
    rewrite Hrun' in Hrun. injection Hrun as _ <-.
    rewrite Hlog. cbn [log with_page].
    rewrite (u8_small (off / 128)) by lia.
    rewrite <- app_assoc. eexists. eexists. reflexivity.
Qed.

(** X18.  The first bulk read after probe starts, once it holds the mutex,
    with the page-select write for the page of its offset: the page -1 that
    probe stores matches no page, so the state of the chip is not relied
    upon. *)
Theorem first_read_after_probe_selects
  (t : tid) (fuel : nat) (off count vendor revision : Z) (c : chip)
  (fl : list (option errno)) :
  0 <= off -> 0 < count -> off + count <= SPD5118_EEPROM_SIZE ->
  (Z.to_nat count <= fuel)%nat ->
  exists r w' status l,
    run t (eeprom_read fuel off count) (world_after_probe vendor revision c fl)
      = Some (r, w') /\
    log w' =
      (t, EvLock)
      :: (t, EvBus (WriteByteData SPD5118_REG_I2C_LEGACY_MODE (off / 128)) status)
      :: l.
Proof.
  intros Hoff Hcount Hend Hfuel.
  set (w := world_after_probe vendor revision c fl).
  unfold eeprom_read.
  cbn [bind mutex_lock call run exec].
  change (update_lock (data w)) with (@None tid). cbv iota.
  set (w0 := with_lock (Some t) (t, EvLock) w).
  assert (Hcoh0 : coherent w0) by (left; reflexivity).
  assert (Hother : off / 128 <> current_page (data w0)).
  { change (current_page (data w0)) with (-1).
    assert (0 <= off / 128) by (apply Z.div_pos; lia). lia. }
  destruct fuel as [| fuel]; [lia | ].
  fold (@bind (Z * list Z) (Z * list Z)).
  rewrite run_bind.
  cbn [eeprom_read_loop].
  destruct (Z.eqb_spec count 0) as [Hz | _]; [lia | ].
  destruct (spd5118_eeprom_read_step t w0 off count Hoff Hcount Hend Hcoh0)
    as [r1 [w1 [l1 [Hrun1 [_ [_ [Hcoh1 [_ [_ Hres1]]]]]]]]].
  destruct (spd5118_eeprom_read_selects_first t w0 w1 off count r1
              Hoff Hcount Hend Hother Hrun1) as [status [l1' Hlog1]].
  rewrite run_bind, Hrun1.
  pose proof (Z.mod_pos_bound off 128 ltac:(lia)) as Hm.
  assert (Hs32 : s32 (fst r1) = fst r1).
  { apply s32_small. unfold MAX_ERRNO in Hres1.
    destruct Hres1 as [[Hr _] | [Hr _]]; lia. }
  rewrite Hs32.
  destruct (Z.ltb_spec (fst r1) 0) as [Hneg | Hge].
  - cbn [run bind mutex_unlock call exec].
    eexists. eexists. exists status. eexists.
    split; [reflexivity | ].
    cbn [log with_lock]. rewrite Hlog1. cbn [w0 w log with_lock
                                             world_after_probe].
    cbn [app]. reflexivity.
  - destruct Hres1 as [[Hbad _] | [Hn _]]; [lia | ].
    assert (Hu64 : u64 (count - fst r1) = count - fst r1).
    { unfold u64. apply Z.mod_small.
      unfold SPD5118_EEPROM_SIZE, SPD5118_PAGE_SIZE, SPD5118_NUM_PAGES in Hend.
      lia. }
    rewrite Hu64.
    destruct (eeprom_read_loop_spec t fuel w1 ([] ++ snd r1) (off + fst r1)
                (count - fst r1) (fst r1))
      as [ret2 [out2 [w2 [l2 [Hrun2 [Hlog2 _]]]]]];
      try lia; try assumption.
    rewrite Hrun2.
    cbn [run bind mutex_unlock call exec].
    eexists. eexists. exists status. eexists.
    split; [reflexivity | ].
    cbn [log with_lock]. rewrite Hlog2, Hlog1.
    cbn [w0 w log with_lock world_after_probe].
    cbn [app]. reflexivity.
Qed.

Lemma first_read_after_probe_selects_witness :
  exists r w' status l,
    run 0%nat (eeprom_read 16 300 16)
      (world_after_probe 0xB380 0x11 sample_chip []) = Some (r, w') /\
    log w' =
      (0%nat, EvLock)
      :: (0%nat, EvBus (WriteByteData SPD5118_REG_I2C_LEGACY_MODE (300 / 128))
                   status)
      :: l.
Proof.
  apply (first_read_after_probe_selects 0%nat 16 300 16 0xB380 0x11 sample_chip []).
  - lia.
  - lia.
  - unfold SPD5118_EEPROM_SIZE, SPD5118_PAGE_SIZE, SPD5118_NUM_PAGES. lia.
  - vm_compute. lia.
Defined.

(** ** The word written for a threshold *)

(** X19.  Whatever temperature is encoded, the register word has its two
    low bits and its three high bits clear: writing a threshold never
    touches the reserved bits of the register. *)
Theorem spd5118_temp_to_reg_reserved_bits (temp : Z) :
  0 <= spd5118_temp_to_reg temp < 2 ^ 13 /\
  Z.land (spd5118_temp_to_reg temp) 0xE003 = 0.
Proof.
  rewrite spd5118_temp_to_reg_encode_spec. unfold encode_spec.
  set (q := Z.land (Z.quot (nearest_boundary temp) 250) (Z.ones 11)).
  assert (Hq : 0 <= q < 2 ^ 11) by apply (land_bound _ 11 ltac:(lia)).
  split.
  - rewrite Z.shiftl_mul_pow2 by lia. lia.
  - apply Z.bits_inj'. intros n Hn.
    rewrite Z.land_spec, Z.bits_0.
    destruct (Z.ltb_spec n 2) as [Hlow | Hhigh].
    + rewrite Z.shiftl_spec_low by lia. reflexivity.
    + rewrite Z.shiftl_spec by lia.
      destruct (Z.ltb_spec n 13) as [Hmid | Htop].
      * replace (Z.testbit 0xE003 n) with false; [apply andb_false_r | ].
        assert (Hc : n = 2 \/ n = 3 \/ n = 4 \/ n = 5 \/ n = 6 \/ n = 7 \/
                     n = 8 \/ n = 9 \/ n = 10 \/ n = 11 \/ n = 12) by lia.
        destruct Hc as [-> | [-> | [-> | [-> | [-> | [-> | [-> | [-> |
                       [-> | [-> | ->]]]]]]]]]]; reflexivity.
      * replace (Z.testbit q (n - 2)) with false; [reflexivity | ].
        symmetry. unfold q. rewrite Z.land_spec.
        rewrite Z.ones_spec_high by lia. apply andb_false_r.
Qed.

(** ** Witnesses of the visibility properties *)

Lemma spd5118_is_visible_agrees_with_read_witness :
  spd5118_read hwmon_fan hwmon_temp_input 0 = Ret (- EOPNOTSUPP, None) /\
  forall val,
    spd5118_write (params true true) hwmon_fan hwmon_temp_input 0 val
    = Ret (- EOPNOTSUPP).
Proof.
  apply (spd5118_is_visible_agrees_with_read
           (params true true) hwmon_fan hwmon_temp_input 0).
  reflexivity.
Defined.

Lemma spd5118_write_needs_permission_witness :
  (spd5118_write (params false true) hwmon_temp hwmon_temp_max 0 85000
     = Ret (- EOPNOTSUPP) \/
   spd5118_write (params false true) hwmon_temp hwmon_temp_max 0 85000
     = Ret (- EINVAL)) /\
  exists k,
    spd5118_write (params true false) hwmon_temp hwmon_temp_max 0 85000
    = Vis MutexLock k.
Proof.
  split.
  - apply (spd5118_write_needs_permission
             (params false true) hwmon_temp hwmon_temp_max 0 85000).
    discriminate.
  - apply (spd5118_write_needs_permission
             (params true false) hwmon_temp hwmon_temp_max 0 85000).
    + reflexivity.
    + left. left. reflexivity.
Defined.
